(** * Speaker recognition server: enrollment, registry and matcher

    A shallow embedding of [server.py] (the Flask endpoints [/enroll],
    [/predict], [/delete-user]) and of [migrate_existing.py]
    ([migrate_speaker]), with theorems about the enrollment accumulator,
    the registry and the identification matcher.

    Modelling conventions.
    - The three stores the program keeps on disk are one record [fs]:
      the enrollment folders [uploads/enrollments/<username>/<file>], the
      fingerprint files [embeddings/<username>.npy] and the JSON document
      [embeddings/registry.json].  Folders and fingerprint files are keyed
      by the user name, as on a POSIX file system where names that differ
      (also in case only) are different files.  The model follows the
      program for names that are one path component ([path_component]); a
      name with a [/], or [.] or [..], is resolved by the operating system
      to another place on disk, which the model does not follow.  The
      theorems are about names that are one path component; those that
      relate several identities have it as a hypothesis.
    - A Python [dict] (the registry, the score map) is an association list
      in insertion order, because [predict_speaker] iterates
      [registry.keys()] and the first maximal score wins.
    - Embedding components and similarity scores are exact rationals [Q];
      rounding of the float arithmetic of numpy is not modelled.
    - Everything the program obtains from outside (werkzeug's
      [secure_filename], the [ffmpeg] process, the resemblyzer encoder, the
      clock, whether [registry.json] can be opened for writing) is a field
      of the record [world] passed to each call.
    - Of the failures of the outside world the model has three: the
      transcoder fails (and may by then have overwritten its output file),
      the encoder fails, [registry.json] cannot be written.  Creating a
      folder, saving an upload, copying a clip and [np.save] succeed.
    - A [str] is the string of its UTF-8 bytes.  [str.lower], [str.strip]
      and [str.isdigit] are modelled on ASCII: they agree with Python on
      ASCII strings ([is_ascii]) and treat every other byte as a character
      that is neither a letter, nor white space, nor a digit.  The
      theorems are about ASCII text; those about the input checks or about
      several identities have it as a hypothesis. *)

From Stdlib Require Import Ascii QArith.
From stdpp Require Import gmap strings list pretty.

Local Open Scope string_scope.
Local Open Scope list_scope.
Local Open Scope nat_scope.

(** ** Python built-ins used by the program *)

Module Py.

(** [str.strip], [str.lower] and [str.isdigit] as they act on ASCII
    strings: white space is [\t \n \v \f \r], [\x1c] .. [\x1f] and the
    blank, letters are [A-Z] and [a-z], digits are [0-9]. *)

Definition is_space (a : ascii) : bool :=
  let n := N_of_ascii a in
  ((9 <=? n) && (n <=? 13) || (28 <=? n) && (n <=? 32))%N.

Definition lower_ascii (a : ascii) : ascii :=
  let n := N_of_ascii a in
  if ((65 <=? n) && (n <=? 90))%N then ascii_of_N (n + 32) else a.

Fixpoint lower (s : string) : string :=
  match s with
  | EmptyString => EmptyString
  | String a s' => String (lower_ascii a) (lower s')
  end.

Fixpoint lstrip (s : string) : string :=
  match s with
  | EmptyString => EmptyString
  | String a s' => if is_space a then lstrip s' else s
  end.

Definition rstrip (s : string) : string := String.rev (lstrip (String.rev s)).

Definition strip (s : string) : string := rstrip (lstrip s).

Definition is_digit (a : ascii) : bool :=
  let n := N_of_ascii a in ((48 <=? n) && (n <=? 57))%N.

Fixpoint all_digits (s : string) : bool :=
  match s with
  | EmptyString => true
  | String a s' => is_digit a && all_digits s'
  end.

(** [''.isdigit()] is [False]. *)
Definition isdigit (s : string) : bool :=
  match s with
  | EmptyString => false
  | _ => all_digits s
  end.

Fixpoint int_go (acc : nat) (s : string) : nat :=
  match s with
  | EmptyString => acc
  | String a s' => int_go (10 * acc + (N.to_nat (N_of_ascii a) - 48)) s'
  end.

(** [sys.int_info.default_max_str_digits]: CPython refuses to convert a
    longer string of digits. *)
Definition int_max_str_digits : nat := 4300.

(** [int(s)] for a string of decimal digits; [None] where it raises
    [ValueError] because the string has more than [int_max_str_digits]
    digits (leading zeros count). *)
Definition int (s : string) : option nat :=
  if Nat.leb (String.length s) int_max_str_digits
  then Some (int_go 0 s)
  else None.

Definition startswith (p s : string) : bool := String.prefix p s.

Definition endswith (p s : string) : bool :=
  String.prefix (String.rev p) (String.rev s).

(** ['.' in s] *)
Fixpoint has_dot (s : string) : bool :=
  match s with
  | EmptyString => false
  | String a s' => if Ascii.eqb a "."%char then true else has_dot s'
  end.

(** The characters before the first ['.'] of [s] (all of [s] if none). *)
Fixpoint before_dot (s : string) : string :=
  match s with
  | EmptyString => EmptyString
  | String a s' =>
      if Ascii.eqb a "."%char then EmptyString else String a (before_dot s')
  end.

(** [s.rsplit('.', 1)[1]] when ['.' in s]: what follows the last dot. *)
Definition rsplit_dot_1 (s : string) : string :=
  String.rev (before_dot (String.rev s)).

(** An insertion-ordered [dict] with string keys. *)
Definition dict (V : Type) : Type := list (string * V).

Section Dict.
Context {V : Type}.

Definition keys (d : dict V) : list string := d.*1.

Fixpoint get (k : string) (d : dict V) : option V :=
  match d with
  | [] => None
  | (k', v) :: d' => if decide (k' = k) then Some v else get k d'
  end.

(** [k in d] *)
Definition contains (k : string) (d : dict V) : bool :=
  bool_decide (is_Some (get k d)).

(** [d[k] = v]: an existing key keeps its position, a new one goes last. *)
Fixpoint set (k : string) (v : V) (d : dict V) : dict V :=
  match d with
  | [] => [(k, v)]
  | (k', v') :: d' =>
      if decide (k' = k) then (k, v) :: d' else (k', v') :: set k v d'
  end.

(** [del d[k]] *)
Fixpoint del (k : string) (d : dict V) : dict V :=
  match d with
  | [] => []
  | (k', v') :: d' =>
      if decide (k' = k) then d' else (k', v') :: del k d'
  end.
End Dict.

End Py.

(** ** numpy on one-dimensional arrays of rationals *)

Definition embedding : Type := list Q.

Module Np.

Definition vadd (a b : embedding) : embedding :=
  zip_with Qplus a b.

Definition same_shape (v : embedding) (vs : list embedding) : bool :=
  forallb (λ u, Nat.eqb (length u) (length v)) vs.

(** [np.mean(vs, axis=0)] for a list of 1-d arrays: the running sum
    [((v1 + v2) + v3) + ...] divided by the number of rows.  Rows of
    different lengths make numpy raise ([None]).  The program never calls it
    on an empty list. *)
Definition mean (vs : list embedding) : option embedding :=
  match vs with
  | [] => None
  | v :: rest =>
      if same_shape v rest
      then Some ((λ x, x / inject_Z (Z.of_nat (length vs)))%Q
                   <$> fold_left vadd rest v)
      else None
  end.

(** [np.dot(a, b)] for 1-d arrays; a shape mismatch raises ([None]). *)
Definition dot (a b : embedding) : option Q :=
  if Nat.eqb (length a) (length b)
  then Some (fold_left (λ acc xy, acc + xy.1 * xy.2)%Q (zip a b) 0%Q)
  else None.

End Np.

(** ** Configuration ([server.py] lines 18-25, [migrate_existing.py] line 20) *)

Definition REQUIRED_CLIPS : nat := 4.
Definition SIMILARITY_THRESHOLD : Q := 3 # 4.
Definition CLIPS_TO_USE : nat := 3.

(** ** The stores on disk and the outside world *)

Definition audio : Type := string.

Record registry_entry := {
  enrolled_date : string;
  clips_count : nat;
  embedding_file : string;
  migrated_from : option string
}.

Record fs := {
  enrollments : gmap string (gmap string audio);
  embeddings : gmap string embedding;
  registry_file : option (Py.dict registry_entry)
}.

Definition empty_fs : fs :=
  {| enrollments := ∅; embeddings := ∅; registry_file := None |}.

(** What a call obtains from outside the program.
    - [secure_filename]: werkzeug's sanitiser of upload names.
    - [ffmpeg suffix input]: the transcoder run on a temporary file with
      that suffix and content; it exits with code 0 and the canonical audio
      at its output path, or it fails ([None]).
    - [ffmpeg_leaves suffix input]: what a failing run leaves at its output
      path.  The program runs [ffmpeg -y] with the destination file itself
      as output, so a run that fails after it has opened its output has
      replaced the file ([Some a], with [a] empty when the file was only
      truncated); a run that fails before (ffmpeg is not installed, the
      input is not recognised) has not ([None]).
    - [embed_utterance]: [preprocess_wav] followed by the encoder; [None]
      when either raises.
    - [now_isoformat]: [datetime.now().isoformat()].
    - [registry_writable]: whether [registry.json] can be opened for
      writing during the call. *)
Record world := {
  secure_filename : string → string;
  ffmpeg : string → audio → option audio;
  ffmpeg_leaves : string → audio → option audio;
  embed_utterance : audio → option embedding;
  now_isoformat : string;
  registry_writable : bool
}.

Record upload := { filename : string; content : audio }.

(** [os.makedirs(user_folder, exist_ok=True)], where [user_folder] is
    [os.path.join(ENROLLMENT_FOLDER, username)]: the entry [username] of
    the enrollment folder when the name is one path component. *)
Definition makedirs (username : string) (s : fs) : fs :=
  match enrollments s !! username with
  | Some _ => s
  | None =>
      {| enrollments := <[username := ∅]> (enrollments s);
         embeddings := embeddings s;
         registry_file := registry_file s |}
  end.

Definition user_folder (s : fs) (username : string) : gmap string audio :=
  default ∅ (enrollments s !! username).

(** Writing [wav] to [uploads/enrollments/<username>/<name>]. *)
Definition write_clip (username name : string) (wav : audio) (s : fs) : fs :=
  {| enrollments := <[username := <[name := wav]> (user_folder s username)]>
                      (enrollments s);
     embeddings := embeddings s;
     registry_file := registry_file s |}.

Definition os_listdir (folder : gmap string audio) : list string :=
  elements (dom folder).

Definition clip_name (i : nat) : string := "clip_" +:+ pretty i +:+ ".wav".

(** The file [f"{username}.npy"] of the embeddings folder, which
    [os.path.join(EMBEDDINGS_FOLDER, ...)] denotes when the name is one path
    component. *)
Definition embedding_path (username : string) : string := username +:+ ".npy".

(** [np.save(path, v)] *)
Definition np_save (path : string) (v : embedding) (s : fs) : fs :=
  {| enrollments := enrollments s;
     embeddings := <[path := v]> (embeddings s);
     registry_file := registry_file s |}.

Definition load_registry (s : fs) : Py.dict registry_entry :=
  default [] (registry_file s).

(** [save_registry]: [open(REGISTRY_FILE, 'w')] raises ([None]) when the file
    cannot be opened for writing; the document is then left as it was. *)
Definition save_registry (w : world) (registry : Py.dict registry_entry)
    (s : fs) : option fs :=
  if registry_writable w
  then Some {| enrollments := enrollments s;
               embeddings := embeddings s;
               registry_file := Some registry |}
  else None.

(** [extract_embedding]: any exception of the encoder gives [None]. *)
Definition extract_embedding (w : world) (wav : audio) : option embedding :=
  embed_utterance w wav.

(** [convert_to_wav]: [True] (here the converted audio) when ffmpeg exits
    with code 0, [False] otherwise. *)
Definition convert_to_wav (w : world) (suffix : string) (input : audio)
    : option audio :=
  ffmpeg w suffix input.

(** [save_uploaded_and_convert]: the audio left at [target_wav_path], or
    [None] where the source returns [False].  A [.wav] upload is saved as it
    is, without the transcoder. *)
Definition save_uploaded_and_convert (w : world) (file : upload)
    : option audio :=
  let orig_filename :=
    secure_filename w
      (if decide (filename file = "") then "upload" else filename file) in
  let ext :=
    if Py.has_dot orig_filename
    then "." +:+ Py.lower (Py.rsplit_dot_1 orig_filename)
    else "" in
  if decide (ext = ".wav") then Some (content file)
  else convert_to_wav w ext (content file).

(** What a call of [save_uploaded_and_convert] that returns [False] has done
    to [target_wav_path]: line 131 hands the target itself to
    [convert_to_wav] as the output of ffmpeg, so the target holds what the
    failed run left there ([None]: the run did not touch it). *)
Definition left_at_target (w : world) (file : upload) : option audio :=
  let orig_filename :=
    secure_filename w
      (if decide (filename file = "") then "upload" else filename file) in
  let ext :=
    if Py.has_dot orig_filename
    then "." +:+ Py.lower (Py.rsplit_dot_1 orig_filename)
    else "" in
  ffmpeg_leaves w ext (content file).

Definition compute_similarity (embedding1 embedding2 : embedding) : option Q :=
  Np.dot embedding1 embedding2.

(** ** Responses *)

Inductive message :=
| UsernameRequired | ValidClipNumberRequired | ClipNumberOutOfRange
| NoAudioFileProvided | NoFileSelected | FailedToConvert
| FailedToExtractEmbeddings | ServerError | EnrollmentComplete
| ClipReceived | FailedToProcessAudio | NoEnrolledUsers
| MatchedWith | NoMatchAboveThreshold | UserNotFound | UserDeleted.

Inductive enroll_response :=
| EnrollFail (code : nat) (msg : message)
| EnrollOk (msg : message) (username : string)
    (clips_received required_clips : nat) (enrollment_complete : bool).

Record prediction_body := {
  prediction : option string;
  confidence : Q;
  threshold : option Q;
  all_similarities : option (Py.dict Q);
  note : message
}.

Inductive predict_response :=
| PredictFail (code : nat) (msg : message)
| PredictOk (body : prediction_body).

Inductive delete_response :=
| DeleteFail (code : nat) (msg : message)
| DeleteOk.

Inductive migrate_result :=
| Returned (ok : bool)
| Raised.

(** ** [/enroll] *)

Record enroll_request := {
  form_username : option string;
  form_clip_number : option string;
  files_audio : option upload
}.

(** The loop of lines 235-241: the embeddings of the clips [clip_1.wav] ..
    [clip_REQUIRED_CLIPS.wav] that exist and that the encoder accepts, in
    slot order. *)
Definition clip_embeddings (w : world) (folder : gmap string audio)
    : list embedding :=
  omap (λ i, folder !! clip_name i ≫= extract_embedding w)
       (seq 1 REQUIRED_CLIPS).

(** [len([f for f in os.listdir(user_folder) if f.startswith('clip_')])] *)
Definition existing_clips (folder : gmap string audio) : nat :=
  length (filter (λ f, Is_true (Py.startswith "clip_" f)) (os_listdir folder)).

Definition new_entry (w : world) (username : string) (n : nat)
    (origin : option string) : registry_entry :=
  {| enrolled_date := now_isoformat w;
     clips_count := n;
     embedding_file := embedding_path username;
     migrated_from := origin |}.

(** Lines 231-273, the branch taken when all clips have been received. *)
Definition generate_embedding (w : world) (username : string) (received : nat)
    (s : fs) : fs * enroll_response :=
  let embeddings := clip_embeddings w (user_folder s username) in
  if Nat.eqb (length embeddings) 0
  then (s, EnrollFail 500 FailedToExtractEmbeddings)
  else
    match Np.mean embeddings with
    | None => (s, EnrollFail 500 ServerError)
    | Some avg_embedding =>
        let s1 := np_save (embedding_path username) avg_embedding s in
        let registry :=
          Py.set username (new_entry w username (length embeddings) None)
                 (load_registry s1) in
        match save_registry w registry s1 with
        | None => (s1, EnrollFail 500 ServerError)
        | Some s2 =>
            (s2, EnrollOk EnrollmentComplete username received
                   REQUIRED_CLIPS true)
        end
    end.

Definition enroll_speaker (w : world) (req : enroll_request) (s : fs)
    : fs * enroll_response :=
  let username := Py.lower (Py.strip (default "" (form_username req))) in
  let clip_number := default "" (form_clip_number req) in
  if decide (username = "") then (s, EnrollFail 400 UsernameRequired)
  else if negb (Py.isdigit clip_number)
  then (s, EnrollFail 400 ValidClipNumberRequired)
  else
    match Py.int clip_number with
    | None => (s, EnrollFail 500 ServerError)
    | Some clip_number =>
        if Nat.ltb clip_number 1 || Nat.ltb REQUIRED_CLIPS clip_number
        then (s, EnrollFail 400 ClipNumberOutOfRange)
        else
          match files_audio req with
          | None => (s, EnrollFail 400 NoAudioFileProvided)
          | Some file =>
              if decide (filename file = "")
              then (s, EnrollFail 400 NoFileSelected)
              else
                let s1 := makedirs username s in
                match save_uploaded_and_convert w file with
                | None =>
                    (match left_at_target w file with
                     | Some residue =>
                         write_clip username (clip_name clip_number) residue s1
                     | None => s1
                     end,
                     EnrollFail 400 FailedToConvert)
                | Some wav =>
                    let s2 :=
                      write_clip username (clip_name clip_number) wav s1 in
                    let received :=
                      existing_clips (user_folder s2 username) in
                    if Nat.leb REQUIRED_CLIPS received
                    then generate_embedding w username received s2
                    else (s2, EnrollOk ClipReceived username received
                                REQUIRED_CLIPS false)
                end
          end
    end.

(** ** [/predict] *)

Record match_state := {
  best_match : option string;
  best_similarity : Q;
  similarities : Py.dict Q
}.

Definition Qgtb (x y : Q) : bool := negb (Qle_bool x y).

(** The loop of lines 356-366 over [registry.keys()]; [None] when
    [np.dot] raises. *)
Fixpoint compare_with_enrolled (store : gmap string embedding)
    (test_embedding : embedding) (usernames : list string) (st : match_state)
    : option match_state :=
  match usernames with
  | [] => Some st
  | username :: rest =>
      match store !! embedding_path username with
      | None => compare_with_enrolled store test_embedding rest st
      | Some stored_embedding =>
          match compute_similarity test_embedding stored_embedding with
          | None => None
          | Some similarity =>
              let sims := Py.set username similarity (similarities st) in
              compare_with_enrolled store test_embedding rest
                (if Qgtb similarity (best_similarity st)
                 then {| best_match := Some username;
                         best_similarity := similarity;
                         similarities := sims |}
                 else {| best_match := best_match st;
                         best_similarity := best_similarity st;
                         similarities := sims |})
          end
      end
  end.

Definition initial_match : match_state :=
  {| best_match := None; best_similarity := (-1)%Q; similarities := [] |}.

(** Lines 340-391: the matcher proper, given the embedding of the probe. *)
Definition identify (test_embedding : embedding) (s : fs) : predict_response :=
  let registry := load_registry s in
  if Nat.eqb (length registry) 0
  then PredictOk {| prediction := Some "Unknown";
                    confidence := 0%Q;
                    threshold := None;
                    all_similarities := None;
                    note := NoEnrolledUsers |}
  else
    match compare_with_enrolled (embeddings s) test_embedding
            (Py.keys registry) initial_match with
    | None => PredictFail 500 ServerError
    | Some st =>
        let hit := Qle_bool SIMILARITY_THRESHOLD (best_similarity st) in
        PredictOk {| prediction :=
                       if hit then best_match st else Some "Unknown";
                     confidence := best_similarity st;
                     threshold := Some SIMILARITY_THRESHOLD;
                     all_similarities := Some (similarities st);
                     note :=
                       if hit then MatchedWith else NoMatchAboveThreshold |}
    end.

(** The uploaded probe is written under [uploads/predictions] and removed
    again after its embedding has been computed; what a failed conversion
    leaves there stays.  That folder is not part of [fs]. *)
Definition predict_speaker (w : world) (files_audio : option upload) (s : fs)
    : predict_response :=
  match files_audio with
  | None => PredictFail 400 NoAudioFileProvided
  | Some file =>
      if decide (filename file = "") then PredictFail 400 NoFileSelected
      else
        match save_uploaded_and_convert w file with
        | None => PredictFail 400 FailedToConvert
        | Some wav =>
            match extract_embedding w wav with
            | None => PredictFail 500 FailedToProcessAudio
            | Some test_embedding => identify test_embedding s
            end
        end
  end.

(** ** [/delete-user/<username>] *)

Definition delete_user (w : world) (username : string) (s : fs)
    : fs * delete_response :=
  let username := Py.lower (Py.strip username) in
  let registry := load_registry s in
  if negb (Py.contains username registry) then (s, DeleteFail 404 UserNotFound)
  else
    let s1 :=
      {| enrollments := delete username (enrollments s);
         embeddings := delete (embedding_path username) (embeddings s);
         registry_file := registry_file s |} in
    match save_registry w (Py.del username registry) s1 with
    | None => (s1, DeleteFail 500 ServerError)
    | Some s2 => (s2, DeleteOk)
    end.

(** ** [migrate_existing.py] *)

(** Lines 77-89: copy the chosen clips to [clip_1.wav], [clip_2.wav], ... and
    collect the embeddings of those the encoder accepts. *)
Fixpoint copy_and_extract (w : world) (username : string) (i : nat)
    (clips : list (string * audio)) (embs : list embedding) (s : fs)
    : fs * list embedding :=
  match clips with
  | [] => (s, embs)
  | (_, wav) :: rest =>
      let s' := write_clip username (clip_name i) wav s in
      copy_and_extract w username (S i) rest
        (embs ++ option_list (extract_embedding w wav)) s'
  end.

(** [source] is the tree under [audio_clips/]: for each speaker folder the
    entries that [os.listdir] reports, in its order. *)
Definition migrate_speaker (w : world)
    (source : gmap string (list (string * audio))) (speaker_name : string)
    (s : fs) : fs * migrate_result :=
  match source !! speaker_name with
  | None => (s, Returned false)
  | Some listing =>
      let audio_files :=
        filter (λ f, Is_true (Py.endswith ".wav" f.1)) listing in
      if Nat.eqb (length audio_files) 0 then (s, Returned false)
      else
        let clips_to_process := take CLIPS_TO_USE audio_files in
        let username := Py.lower speaker_name in
        let s1 := makedirs username s in
        let '(s2, embeddings) :=
          copy_and_extract w username 1 clips_to_process [] s1 in
        if Nat.eqb (length embeddings) 0 then (s2, Returned false)
        else
          match Np.mean embeddings with
          | None => (s2, Raised)
          | Some avg_embedding =>
              let s3 := np_save (embedding_path username) avg_embedding s2 in
              let registry :=
                Py.set username
                  (new_entry w username (length embeddings)
                     (Some speaker_name))
                  (load_registry s3) in
              match save_registry w registry s3 with
              | None => (s3, Raised)
              | Some s4 => (s4, Returned true)
              end
          end
  end.


(** ** Notions used in the statements *)

(** The normalised user name and the slot index that [enroll_speaker]
    computes from the form fields. *)
Definition req_username (req : enroll_request) : string :=
  Py.lower (Py.strip (default "" (form_username req))).

Definition req_slot (req : enroll_request) : nat :=
  default 0 (Py.int (default "" (form_clip_number req))).

(** The request passes the checks of lines 178-210 and carries [file]. *)
Definition valid_request (req : enroll_request) (file : upload) : Prop :=
  req_username req ≠ "" ∧
  Py.isdigit (default "" (form_clip_number req)) = true ∧
  1 ≤ req_slot req ≤ REQUIRED_CLIPS ∧
  files_audio req = Some file ∧
  filename file ≠ "".

(** The suffix [save_uploaded_and_convert] derives from the upload's name,
    and the event that the transcoder is run on the upload and fails. *)
Definition upload_suffix (w : world) (file : upload) : string :=
  let orig_filename :=
    secure_filename w
      (if decide (filename file = "") then "upload" else filename file) in
  if Py.has_dot orig_filename
  then "." +:+ Py.lower (Py.rsplit_dot_1 orig_filename)
  else "".

Definition transcoder_fails (w : world) (file : upload) : Prop :=
  upload_suffix w file ≠ ".wav" ∧
  convert_to_wav w (upload_suffix w file) (content file) = None.

(** The audio held by the slots 1 .. [REQUIRED_CLIPS] of a folder, in slot
    order; an empty slot contributes nothing. *)
Definition filled_slots (folder : gmap string audio) : list audio :=
  omap (λ i, folder !! clip_name i) (seq 1 REQUIRED_CLIPS).

(** The vectors of those clips whose extraction succeeds. *)
Definition extracted (w : world) (clips : list audio) : list embedding :=
  omap (extract_embedding w) clips.

Definition succeeded_count (w : world) (clips : list audio) : nat :=
  length (filter (λ a, is_Some (extract_embedding w a)) clips).

(** The clips [migrate_speaker] works on: the first [CLIPS_TO_USE] entries
    of the listing whose name ends in [.wav]. *)
Definition migration_clips (listing : list (string * audio)) : list audio :=
  (take CLIPS_TO_USE
     (filter (λ f, Is_true (Py.endswith ".wav" f.1)) listing)).*2.

(** The sum of component [j] over the vectors [vs]. *)
Definition component_sum (j : nat) (vs : list embedding) : Q :=
  foldr Qplus 0%Q ((λ v, nth j v 0%Q) <$> vs).

(** [fp] is the elementwise arithmetic mean of the vectors [vs]. *)
Definition elementwise_mean (fp : embedding) (vs : list embedding) : Prop :=
  Forall (λ v, length v = length fp) vs ∧
  ∀ j, j < length fp →
    (nth j fp 0 == component_sum j vs / inject_Z (Z.of_nat (length vs)))%Q.

(** The data-model invariant of the registry document. *)
Definition registry_invariant (registry : Py.dict registry_entry) : Prop :=
  NoDup (Py.keys registry) ∧
  Forall (λ ke, 1 ≤ clips_count ke.2 ≤ REQUIRED_CLIPS) registry.

(** The score map of the matcher: the registered identities that have a
    fingerprint file, each with the dot product of the probe and that
    fingerprint, in the order of [users]. *)
Definition scores (store : gmap string embedding) (probe : embedding)
    (users : list string) : Py.dict Q :=
  omap (λ u, fp ← store !! embedding_path u;
             x ← Np.dot probe fp; Some (u, x)) users.

(** One step of the selection of lines 364-366 on a score, and its
    iteration over a score map. *)
Definition pick (acc : option string * Q) (ux : string * Q)
    : option string * Q :=
  if Qgtb ux.2 acc.2 then (Some ux.1, ux.2) else acc.

Definition best_of (sims : Py.dict Q) (acc : option string * Q)
    : option string * Q :=
  fold_left pick sims acc.

(** The answer of the matcher when nothing was compared. *)
Definition nothing_compared : prediction_body :=
  {| prediction := Some "Unknown";
     confidence := (-1)%Q;
     threshold := Some SIMILARITY_THRESHOLD;
     all_similarities := Some [];
     note := NoMatchAboveThreshold |}.

(** The answer of the matcher on an empty registry. *)
Definition nobody_enrolled : prediction_body :=
  {| prediction := Some "Unknown";
     confidence := 0%Q;
     threshold := None;
     all_similarities := None;
     note := NoEnrolledUsers |}.

(** What a failed conversion leaves on disk: the folder of the identity
    exists, and the slot of the request holds what the transcoder left at
    its output path, if it left anything. *)
Definition after_failed_conversion (w : world) (req : enroll_request)
    (file : upload) (s : fs) : fs :=
  match left_at_target w file with
  | Some residue =>
      write_clip (req_username req) (clip_name (req_slot req)) residue
        (makedirs (req_username req) s)
  | None => makedirs (req_username req) s
  end.

(** The five ways a call of [enroll_speaker] ends. *)
Inductive enroll_outcome (w : world) (req : enroll_request) (s : fs)
    : fs * enroll_response → Prop :=
| Rejected msg :
    (∀ file, ¬ valid_request req file) →
    msg ≠ FailedToConvert →
    enroll_outcome w req s (s, EnrollFail 400 msg)
| IntRaised :
    (∀ file, ¬ valid_request req file) →
    Py.isdigit (default "" (form_clip_number req)) = true →
    Py.int (default "" (form_clip_number req)) = None →
    enroll_outcome w req s (s, EnrollFail 500 ServerError)
| NotConverted file :
    valid_request req file →
    save_uploaded_and_convert w file = None →
    enroll_outcome w req s
      (after_failed_conversion w req file s, EnrollFail 400 FailedToConvert)
| Progress file wav :
    valid_request req file →
    save_uploaded_and_convert w file = Some wav →
    let s' := write_clip (req_username req) (clip_name (req_slot req)) wav s in
    let received := existing_clips (user_folder s' (req_username req)) in
    received < REQUIRED_CLIPS →
    enroll_outcome w req s
      (s', EnrollOk ClipReceived (req_username req) received
             REQUIRED_CLIPS false)
| Commit file wav :
    valid_request req file →
    save_uploaded_and_convert w file = Some wav →
    let s' := write_clip (req_username req) (clip_name (req_slot req)) wav s in
    let received := existing_clips (user_folder s' (req_username req)) in
    REQUIRED_CLIPS ≤ received →
    enroll_outcome w req s
      (generate_embedding w (req_username req) received s').

(** The four ways the commit sequence [generate_embedding] ends. *)
Inductive commit_outcome (w : world) (username : string) (received : nat)
    (s : fs) : fs * enroll_response → Prop :=
| NothingExtracted :
    extracted w (filled_slots (user_folder s username)) = [] →
    commit_outcome w username received s
      (s, EnrollFail 500 FailedToExtractEmbeddings)
| MeanRaised :
    extracted w (filled_slots (user_folder s username)) ≠ [] →
    Np.mean (extracted w (filled_slots (user_folder s username))) = None →
    commit_outcome w username received s (s, EnrollFail 500 ServerError)
| RegistryNotWritten avg :
    extracted w (filled_slots (user_folder s username)) ≠ [] →
    Np.mean (extracted w (filled_slots (user_folder s username))) = Some avg →
    registry_writable w = false →
    commit_outcome w username received s
      (np_save (embedding_path username) avg s, EnrollFail 500 ServerError)
| Committed avg :
    let vs := extracted w (filled_slots (user_folder s username)) in
    vs ≠ [] →
    Np.mean vs = Some avg →
    registry_writable w = true →
    commit_outcome w username received s
      ({| enrollments := enrollments s;
          embeddings := <[embedding_path username := avg]> (embeddings s);
          registry_file :=
            Some (Py.set username (new_entry w username (length vs) None)
                    (load_registry s)) |},
       EnrollOk EnrollmentComplete username received REQUIRED_CLIPS true).

(** ** Where the model follows the program *)

(** [s.isascii()]: every byte of [s] is below 128. *)
Fixpoint is_ascii (s : string) : bool :=
  match s with
  | EmptyString => true
  | String a s' => (N_of_ascii a <? 128)%N && is_ascii s'
  end.

Fixpoint no_separator (s : string) : bool :=
  match s with
  | EmptyString => true
  | String a s' =>
      negb (Ascii.eqb a "/"%char) && negb (Ascii.eqb a Ascii.zero) &&
      no_separator s'
  end.

(** [name] is one path component: a file name other than [.] and [..],
    that is, not empty and without [/] and the NUL byte.  Then
    [os.path.join(folder, name)] is the entry [name] of [folder], and two
    such names give the same path only when they are equal. *)
Definition path_component (name : string) : bool :=
  bool_decide (name ≠ "" ∧ name ≠ "." ∧ name ≠ "..") && no_separator name.

(** A user name, as a request carries it, on which the model follows the
    program: it is ASCII, and its normal form is one path component. *)
Definition plain_username (raw : string) : Prop :=
  is_ascii raw = true ∧ path_component (Py.lower (Py.strip raw)) = true.

(** ** Sequences of calls *)

(** The calls that write to the stores ([predict_speaker], [home] and
    [get_enrolled_users] leave them as they are). *)
Inductive call :=
| Enroll (w : world) (req : enroll_request)
| Delete (w : world) (username : string)
| Migrate (w : world) (source : gmap string (list (string * audio)))
    (speaker_name : string).

Definition run_call (c : call) (s : fs) : fs :=
  match c with
  | Enroll w req => (enroll_speaker w req s).1
  | Delete w username => (delete_user w username s).1
  | Migrate w source speaker_name =>
      (migrate_speaker w source speaker_name s).1
  end.

(** The disk after the calls have been served one after the other. *)
Definition run (calls : list call) (s : fs) : fs :=
  fold_left (λ s c, run_call c s) calls s.

(** The user name a call is made with, and the identity it works on. *)
Definition call_username (c : call) : string :=
  match c with
  | Enroll _ req => default "" (form_username req)
  | Delete _ username => username
  | Migrate _ _ speaker_name => speaker_name
  end.

Definition call_identity (c : call) : string :=
  match c with
  | Enroll _ req => req_username req
  | Delete _ username => Py.lower (Py.strip username)
  | Migrate _ _ speaker_name => Py.lower speaker_name
  end.

Definition plain_call (c : call) : Prop :=
  is_ascii (call_username c) = true ∧
  path_component (call_identity c) = true.

(** [c] is not a [delete_user] of the identity [u]. *)
Definition no_delete_of (u : string) (c : call) : Prop :=
  match c with
  | Delete _ _ => call_identity c ≠ u
  | _ => True
  end.

(** ** Sample data for the examples *)

Module Sample.

(** An encoder that knows five recordings and rejects everything else. *)
Definition encoder (a : audio) : option embedding :=
  if decide (a = "alice-1") then Some [1; 0]%Q
  else if decide (a = "alice-2") then Some [0; 1]%Q
  else if decide (a = "alice-3") then Some [1 # 2; 1 # 2]%Q
  else if decide (a = "alice-4") then Some [1; 1]%Q
  else if decide (a = "alice-5") then Some [3; 3]%Q
  else None.

(** A transcoder that fails on the upload ["garbage"] and passes everything
    else through. *)
Definition transcoder (suffix : string) (a : audio) : option audio :=
  if decide (a = "garbage") then None else Some a.

(** The world at a given time, with a transcoder whose failing runs do not
    touch their output file. *)
Definition world_at (time : string) (writable : bool) : world :=
  {| secure_filename := id;
     ffmpeg := transcoder;
     ffmpeg_leaves := λ _ _, None;
     embed_utterance := encoder;
     now_isoformat := time;
     registry_writable := writable |}.

(** The same world with a transcoder whose failing runs have truncated
    their output file. *)
Definition truncating_world_at (time : string) : world :=
  {| secure_filename := id;
     ffmpeg := transcoder;
     ffmpeg_leaves := λ _ _, Some "";
     embed_utterance := encoder;
     now_isoformat := time;
     registry_writable := true |}.

Definition clip (username slot : string) (a : audio) : enroll_request :=
  {| form_username := Some username;
     form_clip_number := Some slot;
     files_audio := Some {| filename := "clip.webm"; content := a |} |}.

(** Alice has sent clips 1 to 3; clip 2 is noise the encoder rejects. *)
Definition three_clips : fs :=
  (enroll_speaker (world_at "09:03" true) (clip "Alice" "3" "alice-3")
     (enroll_speaker (world_at "09:02" true) (clip "Alice" "2" "noise")
        (enroll_speaker (world_at "09:01" true) (clip " alice " "1" "alice-1")
           empty_fs).1).1).1.

(** ... and then clip 4, which completes the enrollment. *)
Definition enrolled : fs :=
  (enroll_speaker (world_at "09:04" true) (clip "alice" "4" "alice-4")
     three_clips).1.

Definition old_clips : gmap string (list (string * audio)) :=
  {[ "Bob" := [("b.wav", "alice-2"); ("notes.txt", "alice-1");
               ("a.wav", "noise"); ("c.wav", "alice-4");
               ("d.wav", "alice-5")] ]}.

Definition entry_of (username : string) : registry_entry :=
  {| enrolled_date := "08:00"; clips_count := 4;
     embedding_file := embedding_path username; migrated_from := None |}.

(** Four registered identities; bob and alice have the same fingerprint,
    dave's fingerprint file is missing. *)
Definition four_speakers : fs :=
  {| enrollments := ∅;
     embeddings := {[ "carol.npy" := [0; 1]%Q;
                      "bob.npy" := [1; 0]%Q;
                      "alice.npy" := [1; 0]%Q ]};
     registry_file := Some [("carol", entry_of "carol");
                            ("bob", entry_of "bob");
                            ("dave", entry_of "dave");
                            ("alice", entry_of "alice")] |}.

(** A registry whose only identity has lost its fingerprint file. *)
Definition orphan_entry : fs :=
  {| enrollments := ∅;
     embeddings := ∅;
     registry_file := Some [("dave", entry_of "dave")] |}.

End Sample.

(** ** Further functions of [server.py] and [migrate_existing.py] *)

Definition ALLOWED_EXTENSIONS : list string :=
  ["wav"; "mp3"; "ogg"; "webm"; "m4a"].

(** [allowed_file] (lines 58-60). *)
Definition allowed_file (filename : string) : bool :=
  Py.has_dot filename &&
  bool_decide (Py.lower (Py.rsplit_dot_1 filename) ∈ ALLOWED_EXTENSIONS).

(** [home] (lines 150-165): the number the health check reports. *)
Definition home (s : fs) : nat := length (load_registry s).

Record user_info := {
  info_username : string;
  info_enrolled_date : string;
  info_clips_count : nat
}.

(** [get_enrolled_users] (lines 400-418): the count and the list of users,
    in registry order. *)
Definition get_enrolled_users (s : fs) : nat * list user_info :=
  let users_list :=
    (λ ue, {| info_username := ue.1;
              info_enrolled_date := enrolled_date ue.2;
              info_clips_count := clips_count ue.2 |}) <$> load_registry s in
  (length users_list, users_list).

(** The loop of [main] (lines 144-151) over the speaker folders;
    [world_of speaker] is the outside world while that speaker is migrated.
    An exception of [migrate_speaker] ends the script ([None]). *)
Fixpoint migrate_each (world_of : string → world)
    (source : gmap string (list (string * audio))) (speakers : list string)
    (successful failed : list string) (s : fs)
    : fs * option (list string * list string) :=
  match speakers with
  | [] => (s, Some (successful, failed))
  | speaker :: rest =>
      match migrate_speaker (world_of speaker) source speaker s with
      | (s', Returned true) =>
          migrate_each world_of source rest (successful ++ [speaker]) failed s'
      | (s', Returned false) =>
          migrate_each world_of source rest successful (failed ++ [speaker]) s'
      | (s', Raised) => (s', None)
      end
  end.

(** [main] (lines 117-175).  [tree] is [audio_clips/]: [None] when the folder
    does not exist, otherwise its speaker folders in [os.listdir] order.
    The result is the disk and the two lists of the summary, [successful]
    and [failed]; the early returns of lines 123-138 have migrated nobody. *)
Definition main (world_of : string → world)
    (tree : option (list (string * list (string * audio)))) (s : fs)
    : fs * option (list string * list string) :=
  match tree with
  | None => (s, Some ([], []))
  | Some folders =>
      let speakers := folders.*1 in
      if Nat.eqb (length speakers) 0 then (s, Some ([], []))
      else migrate_each world_of (list_to_map folders) speakers [] [] s
  end.

(** ** Further notions used in the statements *)

(** A folder that holds nothing but slot files. *)
Definition slot_names_only (folder : gmap string audio) : Prop :=
  ∀ name, is_Some (folder !! name) →
    ∃ i, 1 ≤ i ≤ REQUIRED_CLIPS ∧ name = clip_name i.

Definition slots_only (s : fs) : Prop :=
  ∀ u, slot_names_only (user_folder s u).

(** Every registered identity has its fingerprint file. *)
Definition fingerprints_present (s : fs) : Prop :=
  ∀ u, u ∈ Py.keys (load_registry s) →
    is_Some (embeddings s !! embedding_path u).

(** Every identity key is in lower case. *)
Definition lowercase_keys (registry : Py.dict registry_entry) : Prop :=
  ∀ u, u ∈ Py.keys registry → Py.lower u = u.

(** The validation messages of [enroll_speaker]. *)
Definition validation_messages : list message :=
  [UsernameRequired; ValidClipNumberRequired; ClipNumberOutOfRange;
   NoAudioFileProvided; NoFileSelected].
(** * Properties *)

(** ** The insertion-ordered dictionary *)

Module PyFacts.
Import Py.

Section DictFacts.
Context {V : Type}.
Implicit Types (d : dict V) (k : string) (v : V).

Lemma get_None_keys k d : get k d = None ↔ k ∉ keys d.
Proof.
  induction d as [|[k' v'] d IH]; simpl.
  - split; [intros _; apply not_elem_of_nil | reflexivity].
  - destruct (decide (k' = k)) as [->|Hne].
    + split; [done | intros H; exfalso; apply H; left].
    + rewrite IH, not_elem_of_cons. split; [intros ?; split; congruence | tauto].
Qed.

Lemma get_Some_elem k v d : get k d = Some v → (k, v) ∈ d.
Proof.
  induction d as [|[k' v'] d IH]; simpl; [done|].
  destruct (decide (k' = k)) as [->|Hne].
  - intros [= ->]. left.
  - intros H. right. auto.
Qed.

Lemma set_fresh k v d : k ∉ keys d → set k v d = d ++ [(k, v)].
Proof.
  induction d as [|[k' v'] d IH]; simpl; [done|].
  intros [Hne Hd]%not_elem_of_cons.
  destruct (decide (k' = k)); [congruence|]. by rewrite IH.
Qed.

Lemma keys_set_present k v d : k ∈ keys d → keys (set k v d) = keys d.
Proof.
  induction d as [|[k' v'] d IH]; simpl.
  - by intros ?%elem_of_nil.
  - destruct (decide (k' = k)) as [->|Hne]; [done|].
    intros [?|Hin]%elem_of_cons; [congruence|].
    unfold keys in *. rewrite !fmap_cons. f_equal. by apply IH.
Qed.

Lemma keys_set k v d :
  keys (set k v d) = if decide (k ∈ keys d) then keys d else keys d ++ [k].
Proof.
  destruct (decide (k ∈ keys d)) as [Hin|Hout].
  - by apply keys_set_present.
  - rewrite set_fresh by done. unfold keys. by rewrite fmap_app.
Qed.

Lemma NoDup_keys_set k v d : NoDup (keys d) → NoDup (keys (set k v d)).
Proof.
  intros Hnd. rewrite keys_set. destruct (decide (k ∈ keys d)); [done|].
  apply NoDup_app. split_and!; [done| |apply NoDup_singleton].
  intros x Hx ->%list_elem_of_singleton. done.
Qed.

Lemma get_set_eq k v d : get k (set k v d) = Some v.
Proof.
  induction d as [|[k' v'] d IH]; simpl.
  - by rewrite decide_True.
  - destruct (decide (k' = k)); simpl.
    + by rewrite decide_True.
    + by rewrite decide_False.
Qed.

Lemma get_set_ne k k' v d : k ≠ k' → get k' (set k v d) = get k' d.
Proof.
  intros Hne. induction d as [|[k0 v0] d IH]; simpl.
  - by rewrite decide_False.
  - destruct (decide (k0 = k)) as [->|]; simpl.
    + by rewrite !decide_False.
    + destruct (decide (k0 = k')); [done | apply IH].
Qed.

Lemma elem_of_set k v d x : x ∈ set k v d → x = (k, v) ∨ x ∈ d.
Proof.
  induction d as [|[k' v'] d IH]; simpl.
  - intros ->%list_elem_of_singleton. by left.
  - destruct (decide (k' = k)).
    + intros [->|?]%elem_of_cons; [by left | right; by right].
    + intros [->|Hin]%elem_of_cons; [right; left|].
      destruct (IH Hin); [by left | right; by right].
Qed.

Lemma del_sublist k d : del k d `sublist_of` d.
Proof.
  induction d as [|[k' v'] d IH]; simpl; [done|].
  destruct (decide (k' = k)).
  - by apply sublist_cons.
  - by apply sublist_skip.
Qed.

Lemma NoDup_keys_del k d : NoDup (keys d) → NoDup (keys (del k d)).
Proof.
  intros Hnd. eapply sublist_NoDup; [exact Hnd|].
  unfold keys. apply fmap_sublist, del_sublist.
Qed.

Lemma elem_of_del k d x : x ∈ del k d → x ∈ d.
Proof. intros Hx. eapply elem_of_sublist; [exact Hx | apply del_sublist]. Qed.

Lemma get_del_eq k d : NoDup (keys d) → get k (del k d) = None.
Proof.
  induction d as [|[k' v'] d IH]; simpl; [done|].
  intros [Hk' Hd]%NoDup_cons.
  destruct (decide (k' = k)) as [->|Hne]; simpl.
  - by apply get_None_keys.
  - rewrite decide_False by done. by apply IH.
Qed.
End DictFacts.

End PyFacts.

(** ** The stores *)

Lemma user_folder_write_clip u c wav s :
  user_folder (write_clip u c wav s) u = <[c := wav]> (user_folder s u).
Proof. unfold user_folder, write_clip; simpl. by rewrite lookup_insert_eq. Qed.

Lemma user_folder_write_clip_ne u u' c wav s :
  u ≠ u' → user_folder (write_clip u c wav s) u' = user_folder s u'.
Proof.
  intros Hne. unfold user_folder, write_clip; simpl.
  by rewrite lookup_insert_ne.
Qed.

Lemma user_folder_makedirs u u' s :
  user_folder (makedirs u s) u' = user_folder s u'.
Proof.
  unfold user_folder, makedirs.
  destruct (enrollments s !! u) eqn:Hu; [done|]. simpl.
  destruct (decide (u = u')) as [<-|Hne].
  - by rewrite lookup_insert_eq, Hu.
  - by rewrite lookup_insert_ne.
Qed.

(** Creating the folder first makes no difference once the clip is written. *)
Lemma write_clip_makedirs u c wav s :
  write_clip u c wav (makedirs u s) = write_clip u c wav s.
Proof.
  unfold write_clip. rewrite user_folder_makedirs.
  unfold makedirs. destruct (enrollments s !! u); [done|]. simpl.
  by rewrite insert_insert_eq.
Qed.

Lemma write_clip_twice u c wav1 wav2 s :
  write_clip u c wav2 (write_clip u c wav1 s) = write_clip u c wav2 s.
Proof.
  unfold write_clip at 1. rewrite user_folder_write_clip. simpl.
  unfold write_clip. by rewrite !insert_insert_eq.
Qed.

Lemma startswith_app p s : Py.startswith p (p +:+ s) = true.
Proof.
  unfold Py.startswith. induction p as [|a p IH]; [by destruct s|].
  change (String.prefix (String a p) (String a (p +:+ s)) = true).
  simpl. destruct (ascii_dec a a); [apply IH | done].
Qed.

Lemma clip_name_startswith i : Py.startswith "clip_" (clip_name i) = true.
Proof. apply startswith_app. Qed.

Lemma existing_clips_overwrite (folder : gmap string audio) c wav :
  is_Some (folder !! c) →
  existing_clips (<[c := wav]> folder) = existing_clips folder.
Proof.
  intros Hc. unfold existing_clips, os_listdir.
  rewrite dom_insert_L.
  replace ({[c]} ∪ dom folder) with (dom folder); [done|].
  symmetry. apply subseteq_union_1_L, singleton_subseteq_l.
  by apply elem_of_dom.
Qed.

Lemma existing_clips_new_clip (folder : gmap string audio) i wav :
  folder !! clip_name i = None →
  existing_clips (<[clip_name i := wav]> folder) = S (existing_clips folder).
Proof.
  intros Hc. unfold existing_clips, os_listdir.
  rewrite dom_insert_L.
  rewrite (elements_union_singleton (dom folder) (clip_name i))
    by (by apply not_elem_of_dom).
  rewrite filter_cons_True; [done|].
  by rewrite clip_name_startswith.
Qed.

Lemma existing_clips_write_mono (folder : gmap string audio) i wav :
  existing_clips folder ≤ existing_clips (<[clip_name i := wav]> folder).
Proof.
  destruct (folder !! clip_name i) eqn:Hc.
  - by rewrite existing_clips_overwrite.
  - rewrite existing_clips_new_clip by done. lia.
Qed.

(** ** The shape of [enroll_speaker] *)

Lemma enroll_speaker_outcome w req s :
  enroll_outcome w req s (enroll_speaker w req s).
Proof.
  unfold enroll_speaker.
  fold (req_username req).
  destruct (decide (req_username req = "")) as [Hu|Hu].
  { apply Rejected; [|done]. intros file (? & _); done. }
  destruct (Py.isdigit (default "" (form_clip_number req))) eqn:Hd;
    cbn [negb].
  2:{ apply Rejected; [|done]. intros file (_ & ? & _); congruence. }
  destruct (Py.int (default "" (form_clip_number req))) as [n|] eqn:Hint.
  2:{ apply IntRaised; [|done..]. intros file (_ & _ & [Hlo _] & _).
      unfold req_slot in Hlo. rewrite Hint in Hlo. cbn in Hlo. lia. }
  assert (req_slot req = n) as Hslot by (unfold req_slot; by rewrite Hint).
  rewrite <- Hslot. clear Hslot Hint n.
  destruct (Nat.ltb (req_slot req) 1 || Nat.ltb REQUIRED_CLIPS (req_slot req))
    eqn:Hr.
  { apply Rejected; [|done]. intros file (_ & _ & [Hlo Hhi] & _).
    apply orb_true_iff in Hr as [Hr|Hr]; apply Nat.ltb_lt in Hr; lia. }
  apply orb_false_iff in Hr as [Hlo Hhi].
  apply Nat.ltb_ge in Hlo, Hhi.
  destruct (files_audio req) as [file|] eqn:Hf.
  2:{ apply Rejected; [|done]. intros file (_ & _ & _ & ? & _); congruence. }
  destruct (decide (filename file = "")) as [Hn|Hn].
  { apply Rejected; [|done]. intros file' (_ & _ & _ & ? & ?); congruence. }
  assert (valid_request req file) as Hv by done.
  destruct (save_uploaded_and_convert w file) as [wav|] eqn:Hc.
  2:{ fold (after_failed_conversion w req file s). by eapply NotConverted. }
  rewrite write_clip_makedirs.
  match goal with
  | |- context [Nat.leb REQUIRED_CLIPS ?n] =>
      destruct (Nat.leb REQUIRED_CLIPS n) eqn:Hn4
  end.
  - apply Nat.leb_le in Hn4. by eapply Commit.
  - apply Nat.leb_gt in Hn4. by eapply Progress.
Qed.

(** What a failed conversion leaves behind. *)
Lemma after_failed_conversion_folder w req file s :
  user_folder (after_failed_conversion w req file s) (req_username req)
  = match left_at_target w file with
    | Some residue =>
        <[clip_name (req_slot req) := residue]> (user_folder s (req_username req))
    | None => user_folder s (req_username req)
    end.
Proof.
  unfold after_failed_conversion. destruct (left_at_target w file).
  - by rewrite user_folder_write_clip, user_folder_makedirs.
  - apply user_folder_makedirs.
Qed.

Lemma after_failed_conversion_other w req file s u :
  u ≠ req_username req →
  user_folder (after_failed_conversion w req file s) u = user_folder s u.
Proof.
  intros Hne. unfold after_failed_conversion. destruct (left_at_target w file).
  - rewrite user_folder_write_clip_ne by done. apply user_folder_makedirs.
  - apply user_folder_makedirs.
Qed.

Lemma after_failed_conversion_embeddings w req file s :
  embeddings (after_failed_conversion w req file s) = embeddings s.
Proof.
  unfold after_failed_conversion, makedirs.
  by destruct (left_at_target w file), (enrollments s !! _).
Qed.

Lemma after_failed_conversion_registry_file w req file s :
  registry_file (after_failed_conversion w req file s) = registry_file s.
Proof.
  unfold after_failed_conversion, makedirs.
  by destruct (left_at_target w file), (enrollments s !! _).
Qed.

(** ** The commit sequence *)

Lemma omap_omap {A B C} (f : A → option B) (g : B → option C) (l : list A) :
  omap g (omap f l) = omap (λ x, f x ≫= g) l.
Proof.
  induction l as [|x l IH]; [done|]. cbn [omap list_omap].
  destruct (f x) as [y|]; cbn [omap list_omap mbind option_bind]; [|exact IH].
  destruct (g y); [f_equal|]; exact IH.
Qed.

Lemma length_omap_le {A B} (f : A → option B) (l : list A) :
  length (omap f l) ≤ length l.
Proof.
  induction l as [|x l IH]; [done|]. cbn [omap list_omap length].
  destruct (f x); cbn [length]; lia.
Qed.

Lemma length_omap_filter {A B} (f : A → option B) (l : list A) :
  length (omap f l) = length (filter (λ x, is_Some (f x)) l).
Proof.
  induction l as [|x l IH]; [done|]. cbn [omap list_omap].
  destruct (f x) as [y|] eqn:Hx.
  - rewrite filter_cons_True by (by rewrite Hx). cbn [length]. by rewrite IH.
  - rewrite filter_cons_False; [done|]. rewrite Hx. by intros [? ?].
Qed.

Lemma clip_embeddings_extracted w folder :
  clip_embeddings w folder = extracted w (filled_slots folder).
Proof. unfold clip_embeddings, extracted, filled_slots. by rewrite omap_omap. Qed.

Lemma length_filled_slots folder : length (filled_slots folder) ≤ REQUIRED_CLIPS.
Proof.
  unfold filled_slots. etrans; [apply length_omap_le|]. by rewrite length_seq.
Qed.

Lemma length_extracted_le w clips : length (extracted w clips) ≤ length clips.
Proof. apply length_omap_le. Qed.

Lemma length_extracted_succeeded w clips :
  length (extracted w clips) = succeeded_count w clips.
Proof. apply length_omap_filter. Qed.

Lemma generate_embedding_outcome w u n s :
  commit_outcome w u n s (generate_embedding w u n s).
Proof.
  unfold generate_embedding. rewrite clip_embeddings_extracted.
  destruct (Nat.eqb (length (extracted w (filled_slots (user_folder s u)))) 0)
    eqn:Hlen.
  { apply Nat.eqb_eq, length_zero_iff_nil in Hlen. by apply NothingExtracted. }
  assert (extracted w (filled_slots (user_folder s u)) ≠ []) as Hne.
  { intros Hnil. rewrite Hnil in Hlen. discriminate. }
  destruct (Np.mean _) as [avg|] eqn:Hm.
  2:{ by apply MeanRaised. }
  unfold save_registry.
  destruct (registry_writable w) eqn:Hw.
  - by apply (Committed w u n s avg).
  - by apply RegistryNotWritten.
Qed.

(** ** [np.mean] is the elementwise arithmetic mean *)

Lemma length_vadd a b : length b = length a → length (Np.vadd a b) = length a.
Proof.
  revert b. induction a as [|x a IH]; intros [|y b]; simpl; try done.
  intros [= Hl]. by rewrite IH.
Qed.

Lemma nth_vadd a b j :
  length b = length a → j < length a →
  nth j (Np.vadd a b) 0%Q = (nth j a 0 + nth j b 0)%Q.
Proof.
  revert b j. induction a as [|x a IH]; intros [|y b] j; simpl; try done.
  - lia.
  - intros [= Hl] Hj. destruct j as [|j]; [done|]. apply IH; [done | lia].
Qed.

Lemma same_shape_Forall v vs :
  Np.same_shape v vs = true ↔ Forall (λ u, length u = length v) vs.
Proof.
  unfold Np.same_shape. rewrite forallb_forall, Forall_forall.
  split; intros H u Hu.
  - apply Nat.eqb_eq, H. by apply list_elem_of_In.
  - apply Nat.eqb_eq, H. by apply list_elem_of_In.
Qed.

Lemma running_sum_spec rest : ∀ v,
  Forall (λ u, length u = length v) rest →
  length (fold_left Np.vadd rest v) = length v ∧
  ∀ j, j < length v →
    (nth j (fold_left Np.vadd rest v) 0 == nth j v 0 + component_sum j rest)%Q.
Proof.
  induction rest as [|u rest IH]; intros v Hall.
  - split; [done|]. intros j _. unfold component_sum.
    cbn [fmap list_fmap foldr fold_left]. by rewrite Qplus_0_r.
  - apply Forall_cons in Hall as [Hu Hrest]. cbn [fold_left].
    destruct (IH (Np.vadd v u)) as [Hlen Hnth].
    { rewrite length_vadd by done. exact Hrest. }
    rewrite length_vadd in Hlen, Hnth by done.
    split; [done|]. intros j Hj.
    rewrite Hnth by done. rewrite nth_vadd by done.
    unfold component_sum. cbn [fmap list_fmap foldr].
    by rewrite Qplus_assoc.
Qed.

Lemma np_mean_spec vs fp : Np.mean vs = Some fp → elementwise_mean fp vs.
Proof.
  unfold Np.mean. destruct vs as [|v rest]; [done|].
  destruct (Np.same_shape v rest) eqn:Hshape; [|done].
  set (k := inject_Z (Z.of_nat (length (v :: rest)))).
  intros Heq. injection Heq as <-. apply same_shape_Forall in Hshape.
  destruct (running_sum_spec rest v Hshape) as [Hlen Hnth].
  assert (length ((λ x, x / k)%Q <$> fold_left Np.vadd rest v) = length v)
    as Hfp by (by rewrite length_fmap).
  unfold elementwise_mean. rewrite Hfp. fold k. split.
  - by apply Forall_cons.
  - intros j Hj.
    rewrite (nth_indep _ 0%Q (0 / k)%Q) by (rewrite length_fmap; lia).
    change (list_fmap Q Q (λ x, (x / k)%Q)) with (map (λ x, (x / k)%Q)).
    rewrite (map_nth (λ x, (x / k)%Q)).
    rewrite Hnth by done. unfold component_sum.
    cbn [fmap list_fmap foldr]. reflexivity.
Qed.

Lemma np_mean_defined vs d :
  vs ≠ [] → Forall (λ v, length v = d) vs → is_Some (Np.mean vs).
Proof.
  intros Hne Hall. destruct vs as [|v rest]; [done|].
  apply Forall_cons in Hall as [Hv Hrest]. unfold Np.mean.
  replace (Np.same_shape v rest) with true; [done|].
  symmetry. apply same_shape_Forall.
  eapply Forall_impl; [exact Hrest|]. simpl. congruence.
Qed.

(** ** Valid requests *)

(** Discharges [valid_request] for a concrete request. *)
Ltac valid_request_by_computation :=
  split; [vm_compute; discriminate|];
  split; [vm_compute; reflexivity|];
  split; [vm_compute; split; repeat constructor|];
  split; [reflexivity | vm_compute; discriminate].

Lemma enroll_speaker_valid w req file wav s :
  valid_request req file →
  save_uploaded_and_convert w file = Some wav →
  let u := req_username req in
  let s2 := write_clip u (clip_name (req_slot req)) wav s in
  let received := existing_clips (user_folder s2 u) in
  enroll_speaker w req s =
    if Nat.leb REQUIRED_CLIPS received
    then generate_embedding w u received s2
    else (s2, EnrollOk ClipReceived u received REQUIRED_CLIPS false).
Proof.
  intros Hv Hc u s2 received.
  destruct (enroll_speaker_outcome w req s)
    as [msg Hno ?|Hno ? ?|file' Hv' Hc'|file' wav' Hv' Hc' s2' received' Hn
        |file' wav' Hv' Hc' s2' received' Hn].
  - destruct (Hno file Hv).
  - destruct (Hno file Hv).
  - destruct Hv as (_ & _ & _ & Hf & _), Hv' as (_ & _ & _ & Hf' & _).
    congruence.
  - destruct Hv as (_ & _ & _ & Hf & _), Hv' as (_ & _ & _ & Hf' & _).
    assert (file' = file) as -> by congruence.
    assert (wav' = wav) as -> by congruence.
    subst s2' received'. fold u s2 received in Hn |- *.
    apply Nat.leb_gt in Hn. by rewrite Hn.
  - destruct Hv as (_ & _ & _ & Hf & _), Hv' as (_ & _ & _ & Hf' & _).
    assert (file' = file) as -> by congruence.
    assert (wav' = wav) as -> by congruence.
    subst s2' received'. fold u s2 received in Hn |- *.
    apply Nat.leb_le in Hn. by rewrite Hn.
Qed.

Lemma length_extracted_slots w folder :
  length (extracted w (filled_slots folder)) ≤ REQUIRED_CLIPS.
Proof. etrans; [apply length_extracted_le | apply length_filled_slots]. Qed.

Lemma length_pos_of_ne_nil {A} (l : list A) : l ≠ [] → 1 ≤ length l.
Proof. destruct l; [done | simpl; lia]. Qed.

(** ** Inversion of a completed enrollment and of a successful migration *)

Lemma enroll_complete_inv w req s s' msg u n m :
  enroll_speaker w req s = (s', EnrollOk msg u n m true) →
  ∃ file wav avg,
    valid_request req file ∧
    save_uploaded_and_convert w file = Some wav ∧
    u = req_username req ∧
    let s2 := write_clip u (clip_name (req_slot req)) wav s in
    let vs := extracted w (filled_slots (user_folder s2 u)) in
    REQUIRED_CLIPS ≤ existing_clips (user_folder s2 u) ∧
    vs ≠ [] ∧ Np.mean vs = Some avg ∧ registry_writable w = true ∧
    s' = {| enrollments := enrollments s2;
            embeddings := <[embedding_path u := avg]> (embeddings s);
            registry_file :=
              Some (Py.set u (new_entry w u (length vs) None)
                      (load_registry s)) |}.
Proof.
  intros Heq. pose proof (enroll_speaker_outcome w req s) as Ho.
  rewrite Heq in Ho. inversion Ho as [| | | |file wav Hv Hc s2 received Hn Hg].
  pose proof (generate_embedding_outcome w (req_username req) received s2) as Hco.
  rewrite Hg in Hco. inversion Hco as [| | |avg vs Hne Hm Hw]; subst.
  exists file, wav, avg. done.
Qed.

Lemma enroll_progress_inv w req s s' msg u n m :
  enroll_speaker w req s = (s', EnrollOk msg u n m false) →
  ∃ file wav,
    valid_request req file ∧
    save_uploaded_and_convert w file = Some wav ∧
    u = req_username req ∧
    s' = write_clip u (clip_name (req_slot req)) wav s ∧
    n = existing_clips (user_folder s' u) ∧
    n < REQUIRED_CLIPS ∧ msg = ClipReceived ∧ m = REQUIRED_CLIPS.
Proof.
  intros Heq. pose proof (enroll_speaker_outcome w req s) as Ho.
  rewrite Heq in Ho.
  inversion Ho as [| | |file wav Hv Hc s2 received Hn
                   |file wav Hv Hc s2 received Hn Hg].
  - exists file, wav. subst. done.
  - pose proof (generate_embedding_outcome w (req_username req) received s2)
      as Hco.
    rewrite Hg in Hco. inversion Hco.
Qed.

Lemma copy_and_extract_spec w u clips : ∀ i embs s,
  (copy_and_extract w u i clips embs s).2 = embs ++ extracted w clips.*2 ∧
  embeddings (copy_and_extract w u i clips embs s).1 = embeddings s ∧
  registry_file (copy_and_extract w u i clips embs s).1 = registry_file s.
Proof.
  induction clips as [|[name wav] clips IH]; intros i embs s.
  - simpl. by rewrite app_nil_r.
  - cbn [copy_and_extract].
    destruct (IH (S i) (embs ++ option_list (extract_embedding w wav))
                (write_clip u (clip_name i) wav s)) as (-> & -> & ->).
    split; [|done]. rewrite <- app_assoc. f_equal.
    unfold extracted. rewrite fmap_cons. cbn [omap list_omap snd].
    by destruct (extract_embedding w wav).
Qed.

Lemma length_migration_clips listing :
  length (migration_clips listing) ≤ CLIPS_TO_USE.
Proof.
  unfold migration_clips. rewrite length_fmap, length_take. lia.
Qed.

(** What [migrate_speaker] leaves in the fingerprint store and in the
    registry: nothing new, or the mean of the extracted vectors and, when
    the registry could be written, the new entry. *)
Lemma migrate_speaker_writes w source name s :
  let s' := (migrate_speaker w source name s).1 in
  let r := (migrate_speaker w source name s).2 in
  (r ≠ Returned true ∧ registry_file s' = registry_file s) ∨
  ∃ listing avg,
    source !! name = Some listing ∧
    let vs := extracted w (migration_clips listing) in
    r = Returned true ∧ vs ≠ [] ∧ Np.mean vs = Some avg ∧
    embeddings s' = <[embedding_path (Py.lower name) := avg]> (embeddings s) ∧
    registry_file s' =
      Some (Py.set (Py.lower name)
              (new_entry w (Py.lower name) (length vs) (Some name))
              (load_registry s)).
Proof.
  unfold migrate_speaker.
  destruct (source !! name) as [listing|] eqn:Hsrc; [|left; done].
  destruct (Nat.eqb (length (filter _ listing)) 0); [left; done|].
  pose proof (copy_and_extract_spec w (Py.lower name)
    (take CLIPS_TO_USE
       (filter (λ f, Is_true (Py.endswith ".wav" f.1)) listing))
    1 [] (makedirs (Py.lower name) s)) as (Hembs & Hstore & Hreg).
  destruct (copy_and_extract _ _ _ _ _ _) as [s2 embs].
  cbn [fst snd] in *. rewrite app_nil_l in Hembs.
  fold (migration_clips listing) in Hembs. subst embs.
  assert (embeddings s2 = embeddings s) as Hstore'.
  { rewrite Hstore. unfold makedirs. by destruct (enrollments s !! _). }
  assert (registry_file s2 = registry_file s) as Hreg'.
  { rewrite Hreg. unfold makedirs. by destruct (enrollments s !! _). }
  destruct (Nat.eqb (length (extracted w (migration_clips listing))) 0)
    eqn:Hlen; [left; done|].
  assert (extracted w (migration_clips listing) ≠ []) as Hne.
  { intros Hnil. rewrite Hnil in Hlen. discriminate. }
  destruct (Np.mean _) as [avg|] eqn:Hm; [|left; done].
  unfold save_registry. destruct (registry_writable w).
  - right. exists listing, avg. cbn [fst snd embeddings registry_file np_save].
    rewrite Hstore'. unfold load_registry, np_save. cbn [registry_file].
    rewrite Hreg'. done.
  - left. split; [done|]. cbn [fst registry_file np_save]. done.
Qed.

(** ** The committed fingerprint *)

(** C1. When the commit sequence runs with at least one extracted vector,
    the fingerprint that is stored for the identity is the elementwise
    arithmetic mean of exactly the vectors whose extraction succeeded: with
    [k] such vectors, [1 <= k <= REQUIRED_CLIPS], component [j] of the
    fingerprint is the sum of component [j] over the [k] vectors divided by
    [k]; a clip whose extraction fails is not among them.  First part: a
    submission that fills the last slot stores that mean (and completes
    when the registry can be written).  Second part: every completed
    [enroll_speaker] has stored it.  Third part: so has every successful
    [migrate_speaker]. *)
Theorem committed_fingerprint_is_mean :
  (∀ w req file wav s d,
     valid_request req file →
     save_uploaded_and_convert w file = Some wav →
     let u := req_username req in
     let s2 := write_clip u (clip_name (req_slot req)) wav s in
     let vs := extracted w (filled_slots (user_folder s2 u)) in
     REQUIRED_CLIPS ≤ existing_clips (user_folder s2 u) →
     vs ≠ [] →
     Forall (λ v, length v = d) vs →
     1 ≤ length vs ≤ REQUIRED_CLIPS ∧
     (registry_writable w = true →
      (enroll_speaker w req s).2
        = EnrollOk EnrollmentComplete u (existing_clips (user_folder s2 u))
            REQUIRED_CLIPS true) ∧
     ∃ fp, embeddings (enroll_speaker w req s).1 !! embedding_path u
             = Some fp ∧
           elementwise_mean fp vs) ∧
  (∀ w req s s' msg u n m,
     enroll_speaker w req s = (s', EnrollOk msg u n m true) →
     let vs := extracted w (filled_slots (user_folder s' u)) in
     1 ≤ length vs ≤ REQUIRED_CLIPS ∧
     ∃ fp, embeddings s' !! embedding_path u = Some fp ∧
           elementwise_mean fp vs) ∧
  (∀ w source name listing s s',
     source !! name = Some listing →
     migrate_speaker w source name s = (s', Returned true) →
     let vs := extracted w (migration_clips listing) in
     1 ≤ length vs ≤ REQUIRED_CLIPS ∧
     ∃ fp, embeddings s' !! embedding_path (Py.lower name) = Some fp ∧
           elementwise_mean fp vs).
Proof.
  split; [|split].
  - intros w req file wav s d Hv Hc u s2 vs Hn Hne Hdim.
    split.
    { split; [by apply length_pos_of_ne_nil | apply length_extracted_slots]. }
    rewrite (enroll_speaker_valid w req file wav s Hv Hc). fold u s2.
    apply Nat.leb_le in Hn. rewrite Hn.
    destruct (np_mean_defined vs d Hne Hdim) as [avg Hm].
    destruct (generate_embedding_outcome w u
                (existing_clips (user_folder s2 u)) s2)
      as [Hnil|? Hnone|avg' ? Hm' Hw'|avg' vs' ? Hm' ?]; cbn [fst snd].
    + done.
    + unfold vs in Hm. congruence.
    + split; [congruence|]. exists avg'.
      split; [apply lookup_insert_eq | by apply np_mean_spec].
    + split; [done|]. exists avg'.
      split; [apply lookup_insert_eq | by apply np_mean_spec].
  - intros w req s s' msg u n m Heq.
    apply enroll_complete_inv in Heq
      as (file & wav & avg & _ & _ & _ & _ & Hne & Hm & _ & ->).
    unfold user_folder at 1. cbn [enrollments embeddings].
    fold (user_folder (write_clip u (clip_name (req_slot req)) wav s) u).
    split.
    + split.
      * destruct (extracted _ _); [done | simpl; lia].
      * etrans; [apply length_extracted_le | apply length_filled_slots].
    + exists avg. split; [apply lookup_insert_eq | by apply np_mean_spec].
  - intros w source name listing s s' Hsrc Heq.
    destruct (migrate_speaker_writes w source name s) as [[Hr _]|Hex].
    { rewrite Heq in Hr. done. }
    destruct Hex as (listing' & avg & Hsrc' & _ & Hne & Hm & Hstore & _).
    rewrite Heq in Hstore. cbn [fst] in Hstore.
    assert (listing' = listing) as -> by congruence.
    split.
    + split.
      * destruct (extracted _ _); [done | simpl; lia].
      * etrans; [apply length_extracted_le|].
        etrans; [apply length_migration_clips|]. unfold CLIPS_TO_USE,
          REQUIRED_CLIPS. lia.
    + exists avg. rewrite Hstore.
      split; [apply lookup_insert_eq | by apply np_mean_spec].
Qed.

Lemma committed_fingerprint_is_mean_witness :
  (let w := Sample.world_at "09:04" true in
   let req := Sample.clip "alice" "4" "alice-4" in
   let s2 := write_clip "alice" (clip_name 4) "alice-4" Sample.three_clips in
   let vs := extracted w (filled_slots (user_folder s2 "alice")) in
   1 ≤ length vs ≤ REQUIRED_CLIPS ∧
   (registry_writable w = true →
    (enroll_speaker w req Sample.three_clips).2
      = EnrollOk EnrollmentComplete "alice"
          (existing_clips (user_folder s2 "alice")) REQUIRED_CLIPS true) ∧
   ∃ fp, embeddings (enroll_speaker w req Sample.three_clips).1
           !! embedding_path "alice" = Some fp ∧
         elementwise_mean fp vs) ∧
  (let vs := extracted (Sample.world_at "09:04" true)
               (filled_slots (user_folder Sample.enrolled "alice")) in
   1 ≤ length vs ≤ REQUIRED_CLIPS ∧
   ∃ fp, embeddings Sample.enrolled !! embedding_path "alice" = Some fp ∧
         elementwise_mean fp vs) ∧
  (let vs := extracted (Sample.world_at "10:00" true)
               (migration_clips [("b.wav", "alice-2"); ("notes.txt", "alice-1");
                                 ("a.wav", "noise"); ("c.wav", "alice-4");
                                 ("d.wav", "alice-5")]) in
   1 ≤ length vs ≤ REQUIRED_CLIPS ∧
   ∃ fp, embeddings
           (migrate_speaker (Sample.world_at "10:00" true) Sample.old_clips
              "Bob" empty_fs).1 !! embedding_path (Py.lower "Bob") = Some fp ∧
         elementwise_mean fp vs).
Proof.
  destruct committed_fingerprint_is_mean as (Hforward & Henroll & Hmigrate).
  split; [|split].
  - apply (Hforward (Sample.world_at "09:04" true)
             (Sample.clip "alice" "4" "alice-4")
             {| filename := "clip.webm"; content := "alice-4" |} "alice-4"
             Sample.three_clips 2).
    + valid_request_by_computation.
    + vm_compute. reflexivity.
    + vm_compute. repeat constructor.
    + vm_compute. discriminate.
    + vm_compute. repeat constructor.
  - apply (Henroll (Sample.world_at "09:04" true)
             (Sample.clip "alice" "4" "alice-4") Sample.three_clips
             Sample.enrolled EnrollmentComplete "alice" 4 4).
    vm_compute. reflexivity.
  - apply (Hmigrate (Sample.world_at "10:00" true)
             Sample.old_clips "Bob" _ empty_fs).
    + vm_compute. reflexivity.
    + vm_compute. reflexivity.
Defined.

(** ** The registry invariant *)

(** The empty document that the server writes at start-up. *)
Lemma registry_invariant_initial : registry_invariant [].
Proof. split; [apply NoDup_nil_2 | apply Forall_nil_2]. Qed.

Lemma registry_invariant_set w u n origin registry :
  1 ≤ n ≤ REQUIRED_CLIPS →
  registry_invariant registry →
  registry_invariant (Py.set u (new_entry w u n origin) registry).
Proof.
  intros Hn [Hnd Hall]. split.
  - by apply PyFacts.NoDup_keys_set.
  - apply Forall_forall. intros x [->|Hx]%PyFacts.elem_of_set; [done|].
    rewrite Forall_forall in Hall. by apply Hall.
Qed.

Lemma registry_invariant_del u registry :
  registry_invariant registry → registry_invariant (Py.del u registry).
Proof.
  intros [Hnd Hall]. split.
  - by apply PyFacts.NoDup_keys_del.
  - apply Forall_forall. intros x Hx%PyFacts.elem_of_del.
    rewrite Forall_forall in Hall. by apply Hall.
Qed.

(** [enroll_speaker] leaves the registry document alone or sets one entry. *)
Lemma enroll_speaker_registry w req s :
  let s' := (enroll_speaker w req s).1 in
  registry_file s' = registry_file s ∨
  ∃ u n, 1 ≤ n ≤ REQUIRED_CLIPS ∧
    registry_file s' =
      Some (Py.set u (new_entry w u n None) (load_registry s)).
Proof.
  destruct (enroll_speaker_outcome w req s)
    as [msg ? ?|? ? ?|file ? ?|file wav ? ? s2 received ?
        |file wav ? ? s2 received ?];
    cbn [fst].
  - by left.
  - by left.
  - left. apply after_failed_conversion_registry_file.
  - by left.
  - destruct (generate_embedding_outcome w (req_username req) received s2)
      as [?|? ?|avg ? ? ?|avg vs Hne ? ?]; cbn [fst]; try by left.
    right. exists (req_username req), (length vs). split; [|done].
    split; [by apply length_pos_of_ne_nil | apply length_extracted_slots].
Qed.

Lemma delete_user_registry w name s :
  let s' := (delete_user w name s).1 in
  registry_file s' = registry_file s ∨
  registry_file s' =
    Some (Py.del (Py.lower (Py.strip name)) (load_registry s)).
Proof.
  unfold delete_user. destruct (negb _); [by left|].
  unfold save_registry. destruct (registry_writable w); cbn; auto.
Qed.

(** C9. The registry document keeps its data-model invariant under every
    operation that writes it ([enroll_speaker], [migrate_speaker],
    [delete_user]): identity keys are unique and every entry has
    [1 <= clips_count <= REQUIRED_CLIPS]; and the entry a commit writes has
    [clips_count] equal to the number of clips whose extraction succeeded at
    that commit. *)
Theorem registry_invariant_kept w s :
  registry_invariant (load_registry s) →
  (∀ req, registry_invariant (load_registry (enroll_speaker w req s).1)) ∧
  (∀ source name,
     registry_invariant (load_registry (migrate_speaker w source name s).1)) ∧
  (∀ name, registry_invariant (load_registry (delete_user w name s).1)) ∧
  (∀ req s' msg u n m,
     enroll_speaker w req s = (s', EnrollOk msg u n m true) →
     ∃ e, Py.get u (load_registry s') = Some e ∧
          clips_count e =
            succeeded_count w (filled_slots (user_folder s' u))) ∧
  (∀ source name listing s',
     source !! name = Some listing →
     migrate_speaker w source name s = (s', Returned true) →
     ∃ e, Py.get (Py.lower name) (load_registry s') = Some e ∧
          clips_count e = succeeded_count w (migration_clips listing)).
Proof.
  intros Hinv. split_and!.
  - intros req.
    destruct (enroll_speaker_registry w req s) as [Heq|(u & n & Hn & Heq)];
      unfold load_registry at 1; rewrite Heq; [done|].
    by apply registry_invariant_set.
  - intros source name.
    destruct (migrate_speaker_writes w source name s)
      as [[_ Heq]|(listing & avg & _ & _ & Hne & _ & _ & Heq)];
      unfold load_registry at 1; rewrite Heq; [done|].
    apply registry_invariant_set; [|done].
    split; [by apply length_pos_of_ne_nil|].
    etrans; [apply length_extracted_le|].
    etrans; [apply length_migration_clips|].
    unfold CLIPS_TO_USE, REQUIRED_CLIPS. lia.
  - intros name.
    destruct (delete_user_registry w name s) as [Heq|Heq];
      unfold load_registry at 1; rewrite Heq; [done|].
    by apply registry_invariant_del.
  - intros req s' msg u n m Heq.
    apply enroll_complete_inv in Heq
      as (file & wav & avg & _ & _ & _ & _ & _ & _ & _ & ->).
    eexists. split.
    + unfold load_registry at 1. cbn [registry_file default].
      apply PyFacts.get_set_eq.
    + cbn [clips_count new_entry]. rewrite length_extracted_succeeded.
      done.
  - intros source name listing s' Hsrc Heq.
    destruct (migrate_speaker_writes w source name s) as [[Hr _]|Hex].
    { rewrite Heq in Hr. done. }
    destruct Hex as (listing' & avg & Hsrc' & _ & _ & _ & _ & Hreg).
    rewrite Heq in Hreg. cbn [fst] in Hreg.
    assert (listing' = listing) as -> by congruence.
    eexists. split.
    + unfold load_registry at 1. rewrite Hreg. cbn [default].
      apply PyFacts.get_set_eq.
    + cbn [clips_count new_entry]. by rewrite length_extracted_succeeded.
Qed.

Lemma registry_invariant_kept_witness :
  let w := Sample.world_at "09:05" true in
  let again := Sample.clip "alice" "2" "alice-2" in
  registry_invariant (load_registry Sample.enrolled) ∧
  registry_invariant (load_registry (enroll_speaker w again Sample.enrolled).1) ∧
  registry_invariant
    (load_registry (migrate_speaker w Sample.old_clips "Bob" Sample.enrolled).1) ∧
  registry_invariant (load_registry (delete_user w "Alice" Sample.enrolled).1) ∧
  (∃ e, Py.get "alice"
          (load_registry (enroll_speaker w again Sample.enrolled).1) = Some e ∧
        clips_count e =
          succeeded_count w
            (filled_slots
               (user_folder (enroll_speaker w again Sample.enrolled).1
                  "alice"))) ∧
  (∃ e, Py.get (Py.lower "Bob")
          (load_registry
             (migrate_speaker w Sample.old_clips "Bob" Sample.enrolled).1)
          = Some e ∧
        clips_count e =
          succeeded_count w
            (migration_clips
               [("b.wav", "alice-2"); ("notes.txt", "alice-1");
                ("a.wav", "noise"); ("c.wav", "alice-4");
                ("d.wav", "alice-5")])).
Proof.
  intros w again.
  assert (registry_invariant (load_registry Sample.enrolled)) as Hinv.
  { vm_compute. split.
    - apply NoDup_singleton.
    - apply Forall_singleton. simpl. lia. }
  destruct (registry_invariant_kept w Sample.enrolled Hinv)
    as (Henroll & Hmigrate & Hdelete & Hcount & Hmcount).
  split_and!.
  - exact Hinv.
  - apply Henroll.
  - apply Hmigrate.
  - apply Hdelete.
  - apply (Hcount again _ EnrollmentComplete "alice" 4 4).
    vm_compute. reflexivity.
  - apply (Hmcount Sample.old_clips "Bob").
    + vm_compute. reflexivity.
    + vm_compute. reflexivity.
Defined.

(** ** The transcoder *)

Lemma save_uploaded_and_convert_None w file :
  save_uploaded_and_convert w file = None ↔ transcoder_fails w file.
Proof.
  unfold save_uploaded_and_convert, transcoder_fails.
  fold (upload_suffix w file).
  destruct (decide (upload_suffix w file = ".wav")) as [Hwav|Hwav].
  - split; [done | by intros [? _]].
  - split; [done | by intros [_ ?]].
Qed.

(** ** A failed conversion *)

(** C4, as the code has it.  When the transcoder fails on the uploaded
    audio of a request that passed the input checks, [enroll_speaker]
    answers with the conversion error of status 400.  Every other slot of
    the identity holds exactly what it held before, no file of the folder
    is removed, and the fingerprint store and the registry are unchanged.
    The slot of the request itself is untouched only if the failing run
    did not touch its output file: the slot file is the output file of
    ffmpeg, so whatever the failing run left there has replaced the
    previous content of the slot.  The folder of every other identity
    whose name is one path component is unchanged as well.  (The user name
    of the request is plain: ASCII, one path component.) *)
Theorem failed_transcode_touches_one_slot w req file s :
  valid_request req file →
  plain_username (default "" (form_username req)) →
  transcoder_fails w file →
  let u := req_username req in
  let slot := clip_name (req_slot req) in
  let s' := (enroll_speaker w req s).1 in
  (enroll_speaker w req s).2 = EnrollFail 400 FailedToConvert ∧
  (∀ name, name ≠ slot → user_folder s' u !! name = user_folder s u !! name) ∧
  user_folder s' u !! slot
    = match left_at_target w file with
      | Some residue => Some residue
      | None => user_folder s u !! slot
      end ∧
  (∀ name, is_Some (user_folder s u !! name) →
           is_Some (user_folder s' u !! name)) ∧
  (∀ u', path_component u' = true → u' ≠ u →
         user_folder s' u' = user_folder s u') ∧
  embeddings s' = embeddings s ∧
  registry_file s' = registry_file s.
Proof.
  intros Hv _ Hfail%save_uploaded_and_convert_None u slot s'. subst s'.
  destruct (enroll_speaker_outcome w req s)
    as [msg Hno ?|Hno ? ?|file' Hv' Hc'|file' wav' Hv' Hc' s2' received' Hn
        |file' wav' Hv' Hc' s2' received' Hn]; cbn [fst snd].
  - destruct (Hno file Hv).
  - destruct (Hno file Hv).
  - assert (file' = file) as ->.
    { destruct Hv as (_ & _ & _ & Hf & _), Hv' as (_ & _ & _ & Hf' & _).
      congruence. }
    split; [done|]. fold u. unfold u.
    rewrite after_failed_conversion_folder. fold u slot.
    split; [|split; [|split; [|split; [|split]]]].
    + intros name Hne. destruct (left_at_target w file); [|done].
      by apply lookup_insert_ne.
    + destruct (left_at_target w file); [apply lookup_insert_eq | done].
    + intros name Hname. destruct (left_at_target w file); [|done].
      apply lookup_insert_is_Some'. by right.
    + intros u' _ Hne. by apply after_failed_conversion_other.
    + apply after_failed_conversion_embeddings.
    + apply after_failed_conversion_registry_file.
  - destruct Hv as (_ & _ & _ & Hf & _), Hv' as (_ & _ & _ & Hf' & _).
    congruence.
  - destruct Hv as (_ & _ & _ & Hf & _), Hv' as (_ & _ & _ & Hf' & _).
    congruence.
Qed.

Lemma failed_transcode_touches_one_slot_witness :
  let w := Sample.truncating_world_at "09:04" in
  let bad := Sample.clip "alice" "1" "garbage" in
  let file := {| filename := "clip.webm"; content := "garbage" |} in
  let s := Sample.three_clips in
  let s' := (enroll_speaker w bad s).1 in
  (enroll_speaker w bad s).2 = EnrollFail 400 FailedToConvert ∧
  (∀ name, name ≠ clip_name (req_slot bad) →
           user_folder s' (req_username bad) !! name
             = user_folder s (req_username bad) !! name) ∧
  user_folder s' (req_username bad) !! clip_name (req_slot bad)
    = match left_at_target w file with
      | Some residue => Some residue
      | None => user_folder s (req_username bad) !! clip_name (req_slot bad)
      end ∧
  (∀ name, is_Some (user_folder s (req_username bad) !! name) →
           is_Some (user_folder s' (req_username bad) !! name)) ∧
  (∀ u', path_component u' = true → u' ≠ req_username bad →
         user_folder s' u' = user_folder s u') ∧
  embeddings s' = embeddings s ∧
  registry_file s' = registry_file s.
Proof.
  intros w bad file s.
  apply (failed_transcode_touches_one_slot w bad file s).
  - valid_request_by_computation.
  - split; vm_compute; reflexivity.
  - split; [vm_compute; discriminate | vm_compute; reflexivity].
Defined.

(** C4 as stated fails.  Alice's first slot holds the clip she sent at
    09:01.  At 09:04 she sends the slot again with audio on which ffmpeg
    fails after it has opened its output file: the call fails with the
    conversion error, and the clip of 09:01 is gone, the slot file is
    empty. *)
Lemma failed_transcode_truncates_slot :
  let w := Sample.truncating_world_at "09:04" in
  let bad := Sample.clip "alice" "1" "garbage" in
  let call := enroll_speaker w bad Sample.three_clips in
  transcoder_fails w {| filename := "clip.webm"; content := "garbage" |} ∧
  call.2 = EnrollFail 400 FailedToConvert ∧
  user_folder Sample.three_clips "alice" !! clip_name 1 = Some "alice-1" ∧
  user_folder call.1 "alice" !! clip_name 1 = Some "" ∧
  user_folder call.1 "alice" !! clip_name 1
    ≠ user_folder Sample.three_clips "alice" !! clip_name 1.
Proof.
  split; [split; [vm_compute; discriminate | vm_compute; reflexivity]|].
  vm_compute. repeat split; try reflexivity. discriminate.
Qed.

(** C7. If the commit step extracts no vector from the filled slots, the
    call fails with the 500 error "Failed to extract embeddings", the commit
    step changes nothing: no registry entry and no fingerprint is written,
    and the slots keep their content (the clip just submitted included), so
    the failing clips can be sent again. *)
Theorem zero_vectors_no_commit :
  (∀ w u n s,
     extracted w (filled_slots (user_folder s u)) = [] →
     generate_embedding w u n s
       = (s, EnrollFail 500 FailedToExtractEmbeddings)) ∧
  (∀ w req file wav s,
     valid_request req file →
     save_uploaded_and_convert w file = Some wav →
     let u := req_username req in
     let s2 := write_clip u (clip_name (req_slot req)) wav s in
     REQUIRED_CLIPS ≤ existing_clips (user_folder s2 u) →
     extracted w (filled_slots (user_folder s2 u)) = [] →
     enroll_speaker w req s
       = (s2, EnrollFail 500 FailedToExtractEmbeddings) ∧
     registry_file s2 = registry_file s ∧
     embeddings s2 = embeddings s ∧
     (∀ u', Py.get u' (load_registry s2) = Py.get u' (load_registry s))) ∧
  (∀ w req s s',
     enroll_speaker w req s
       = (s', EnrollFail 500 FailedToExtractEmbeddings) →
     ∃ file wav,
       valid_request req file ∧
       save_uploaded_and_convert w file = Some wav ∧
       s' = write_clip (req_username req) (clip_name (req_slot req)) wav s ∧
       REQUIRED_CLIPS ≤ existing_clips (user_folder s' (req_username req)) ∧
       extracted w (filled_slots (user_folder s' (req_username req))) = []).
Proof.
  split_and!.
  - intros w u n s Hnil.
    unfold generate_embedding. rewrite clip_embeddings_extracted, Hnil. done.
  - intros w req file wav s Hv Hc u s2 Hn Hnil.
    rewrite (enroll_speaker_valid w req file wav s Hv Hc).
    fold u s2. apply Nat.leb_le in Hn. rewrite Hn.
    unfold generate_embedding. rewrite clip_embeddings_extracted, Hnil. done.
  - intros w req s s' Heq.
    pose proof (enroll_speaker_outcome w req s) as Ho. rewrite Heq in Ho.
    inversion Ho as [| | | |file wav Hv Hc s2 received Hn Hg].
    pose proof (generate_embedding_outcome w (req_username req) received s2)
      as Hco.
    rewrite Hg in Hco. inversion Hco as [Hnil| | |]; subst.
    exists file, wav. done.
Qed.

Lemma zero_vectors_no_commit_witness :
  let w := Sample.world_at "09:10" true in
  let s := (enroll_speaker w (Sample.clip "carol" "3" "hum")
             (enroll_speaker w (Sample.clip "carol" "2" "hiss")
               (enroll_speaker w (Sample.clip "carol" "1" "noise")
                  empty_fs).1).1).1 in
  let s2 := write_clip "carol" (clip_name 4) "buzz" s in
  generate_embedding w "carol" 4 s2
    = (s2, EnrollFail 500 FailedToExtractEmbeddings) ∧
  (enroll_speaker w (Sample.clip "carol" "4" "buzz") s
     = (s2, EnrollFail 500 FailedToExtractEmbeddings) ∧
   registry_file s2 = registry_file s ∧
   embeddings s2 = embeddings s ∧
   (∀ u', Py.get u' (load_registry s2) = Py.get u' (load_registry s))) ∧
  (∃ file wav,
     valid_request (Sample.clip "carol" "4" "buzz") file ∧
     save_uploaded_and_convert w file = Some wav ∧
     s2 = write_clip "carol" (clip_name 4) wav s ∧
     REQUIRED_CLIPS ≤ existing_clips (user_folder s2 "carol") ∧
     extracted w (filled_slots (user_folder s2 "carol")) = []).
Proof.
  intros w s s2.
  destruct zero_vectors_no_commit as (Hcommit & Henroll & Hinv).
  assert (valid_request (Sample.clip "carol" "4" "buzz")
            {| filename := "clip.webm"; content := "buzz" |}) as Hv.
  { valid_request_by_computation. }
  split; [|split].
  - apply Hcommit. vm_compute. reflexivity.
  - apply (Henroll w (Sample.clip "carol" "4" "buzz") _ "buzz" s Hv).
    + vm_compute. reflexivity.
    + vm_compute. lia.
    + vm_compute. reflexivity.
  - apply (Hinv w (Sample.clip "carol" "4" "buzz") s s2).
    vm_compute. reflexivity.
Defined.

(** ** Resubmission *)

(** C8. A clip sent to an already filled slot before completion replaces
    what the slot held: after two accepted submissions to the same slot, the
    stores are exactly what they would be had only the second one been made
    (so only its audio can reach a later fingerprint), the slot holds the
    second audio, and the number of received clips is the one reported for
    the first submission. *)
Theorem resubmission_overwrites w1 w2 req1 req2 file2 wav2 s s1 msg n1 m :
  enroll_speaker w1 req1 s
    = (s1, EnrollOk msg (req_username req1) n1 m false) →
  valid_request req2 file2 →
  save_uploaded_and_convert w2 file2 = Some wav2 →
  req_username req2 = req_username req1 →
  req_slot req2 = req_slot req1 →
  let u := req_username req1 in
  let slot := clip_name (req_slot req1) in
  enroll_speaker w2 req2 s1
    = (write_clip u slot wav2 s,
       EnrollOk ClipReceived u n1 REQUIRED_CLIPS false) ∧
  enroll_speaker w2 req2 s1 = enroll_speaker w2 req2 s ∧
  user_folder (enroll_speaker w2 req2 s1).1 u
    = <[slot := wav2]> (user_folder s u) ∧
  user_folder (enroll_speaker w2 req2 s1).1 u !! slot = Some wav2.
Proof.
  intros Heq Hv2 Hc2 Hu Hslot u slot.
  apply enroll_progress_inv in Heq
    as (file1 & wav1 & Hv1 & Hc1 & _ & -> & -> & Hn & -> & ->).
  fold u slot in Hn |- *.
  assert (existing_clips (user_folder (write_clip u slot wav2 s) u)
          = existing_clips (user_folder (write_clip u slot wav1 s) u)) as Hcnt.
  { rewrite !user_folder_write_clip.
    destruct (user_folder s u !! slot) eqn:Hold.
    - by rewrite !existing_clips_overwrite.
    - unfold slot in *. by rewrite !existing_clips_new_clip. }
  assert (enroll_speaker w2 req2 (write_clip u slot wav1 s)
          = (write_clip u slot wav2 s,
             EnrollOk ClipReceived u
               (existing_clips (user_folder (write_clip u slot wav1 s) u))
               REQUIRED_CLIPS false)) as Hsecond.
  { rewrite (enroll_speaker_valid w2 req2 file2 wav2 _ Hv2 Hc2).
    rewrite Hu, Hslot. fold u slot. rewrite write_clip_twice, Hcnt.
    apply Nat.leb_gt in Hn. by rewrite Hn. }
  assert (enroll_speaker w2 req2 s
          = (write_clip u slot wav2 s,
             EnrollOk ClipReceived u
               (existing_clips (user_folder (write_clip u slot wav1 s) u))
               REQUIRED_CLIPS false)) as Honly.
  { rewrite (enroll_speaker_valid w2 req2 file2 wav2 _ Hv2 Hc2).
    rewrite Hu, Hslot. fold u slot. rewrite Hcnt.
    apply Nat.leb_gt in Hn. by rewrite Hn. }
  rewrite Hsecond, Honly. cbn [fst].
  split; [done|]. split; [done|]. split.
  - apply user_folder_write_clip.
  - rewrite user_folder_write_clip. apply lookup_insert_eq.
Qed.

Lemma resubmission_overwrites_witness :
  let w1 := Sample.world_at "09:01" true in
  let w2 := Sample.world_at "09:02" true in
  let first := Sample.clip "alice" "1" "alice-1" in
  let second := Sample.clip " Alice" "01" "alice-2" in
  let s1 := (enroll_speaker w1 first empty_fs).1 in
  enroll_speaker w2 second s1
    = (write_clip "alice" (clip_name 1) "alice-2" empty_fs,
       EnrollOk ClipReceived "alice" 1 REQUIRED_CLIPS false) ∧
  enroll_speaker w2 second s1 = enroll_speaker w2 second empty_fs ∧
  user_folder (enroll_speaker w2 second s1).1 "alice"
    = <[clip_name 1 := "alice-2"]> (user_folder empty_fs "alice") ∧
  user_folder (enroll_speaker w2 second s1).1 "alice" !! clip_name 1
    = Some "alice-2".
Proof.
  intros w1 w2 first second s1.
  apply (resubmission_overwrites w1 w2 first second
           {| filename := "clip.webm"; content := "alice-2" |} "alice-2"
           empty_fs s1 ClipReceived 1 REQUIRED_CLIPS).
  - vm_compute. reflexivity.
  - valid_request_by_computation.
  - vm_compute. reflexivity.
  - vm_compute. reflexivity.
  - vm_compute. reflexivity.
Defined.

(** C5 as stated fails: Alice completes her enrollment at 09:04; at 09:30,
    with no reset in between, she sends slot 1 again, and this single
    resubmission commits a second time, replacing the registry entry and
    the fingerprint. *)
Lemma recommit_without_reset :
  let first := enroll_speaker (Sample.world_at "09:04" true)
                 (Sample.clip "alice" "4" "alice-4") Sample.three_clips in
  let second := enroll_speaker (Sample.world_at "09:30" true)
                  (Sample.clip "alice" "1" "alice-5") first.1 in
  first.2 = EnrollOk EnrollmentComplete "alice" 4 4 true ∧
  second.2 = EnrollOk EnrollmentComplete "alice" 4 4 true ∧
  enrolled_date <$> Py.get "alice" (load_registry first.1) = Some "09:04" ∧
  enrolled_date <$> Py.get "alice" (load_registry second.1) = Some "09:30" ∧
  embeddings first.1 !! "alice.npy" = Some [5 # 6; 3 # 6]%Q ∧
  embeddings second.1 !! "alice.npy" = Some [9 # 6; 9 # 6]%Q.
Proof. vm_compute. repeat split; reflexivity. Qed.

(** ** The commit is two writes *)




(** ** The matcher *)

Lemma Qgtb_true x y : Qgtb x y = true ↔ (y < x)%Q.
Proof.
  unfold Qgtb. rewrite negb_true_iff, <- not_true_iff_false, Qle_bool_iff.
  split; [apply Qnot_le_lt | apply Qlt_not_le].
Qed.

Lemma Qgtb_false x y : Qgtb x y = false ↔ (x <= y)%Q.
Proof. unfold Qgtb. by rewrite negb_false_iff, Qle_bool_iff. Qed.

Lemma best_of_cons u x sims bm bs :
  best_of ((u, x) :: sims) (bm, bs)
    = best_of sims (if Qgtb x bs then (Some u, x) else (bm, bs)).
Proof. reflexivity. Qed.

(** The selection keeps the first score that is strictly above everything
    before it and not below anything after it. *)
Lemma best_of_spec sims : ∀ bm bs,
  let r := best_of sims (bm, bs) in
  (bs <= r.2)%Q ∧
  (∀ u x, (u, x) ∈ sims → (x <= r.2)%Q) ∧
  (r = (bm, bs) ∨
   ∃ i b, sims !! i = Some (b, r.2) ∧ r.1 = Some b ∧ (bs < r.2)%Q ∧
          ∀ j u x, j < i → sims !! j = Some (u, x) → (x < r.2)%Q).
Proof.
  induction sims as [|[u0 x0] sims IH]; intros bm bs r.
  - subst r. cbn. split; [apply Qle_refl|]. split; [|by left].
    intros u x Hin. by apply elem_of_nil in Hin.
  - subst r. rewrite best_of_cons.
    destruct (Qgtb x0 bs) eqn:Hgt.
    + apply Qgtb_true in Hgt.
      destruct (IH (Some u0) x0) as (Hle & Hall & Hsel).
      split; [eapply Qle_trans; [apply Qlt_le_weak, Hgt | exact Hle]|].
      split.
      * intros u x [[= -> ->]|Hin]%elem_of_cons; [exact Hle | by eapply Hall].
      * right. destruct Hsel as [Heq|(i & b & Hi & Hb & Hlt & Hbefore)].
        -- exists 0, u0. rewrite Heq. cbn. split_and!; try done. lia.
        -- exists (S i), b. split_and!; try done.
           ++ eapply Qlt_trans; [exact Hgt | exact Hlt].
           ++ intros [|j] u x Hj Hlook.
              ** cbn in Hlook. injection Hlook as <- <-. exact Hlt.
              ** eapply (Hbefore j); [lia | exact Hlook].
    + apply Qgtb_false in Hgt.
      destruct (IH bm bs) as (Hle & Hall & Hsel).
      split; [exact Hle|]. split.
      * intros u x [[= -> ->]|Hin]%elem_of_cons; [|by eapply Hall].
        eapply Qle_trans; [exact Hgt | exact Hle].
      * destruct Hsel as [Heq|(i & b & Hi & Hb & Hlt & Hbefore)];
          [by left | right].
        exists (S i), b. split_and!; try done.
        intros [|j] u x Hj Hlook.
        -- cbn in Hlook. injection Hlook as <- <-.
           eapply Qle_lt_trans; [exact Hgt | exact Hlt].
        -- eapply (Hbefore j); [lia | exact Hlook].
Qed.

Lemma scores_cons_missing store probe u users :
  store !! embedding_path u = None →
  scores store probe (u :: users) = scores store probe users.
Proof. intros Hu. unfold scores. cbn. by rewrite Hu. Qed.

Lemma scores_cons_present store probe u users fp x :
  store !! embedding_path u = Some fp → Np.dot probe fp = Some x →
  scores store probe (u :: users) = (u, x) :: scores store probe users.
Proof. intros Hu Hx. unfold scores. cbn. rewrite Hu. cbn. by rewrite Hx. Qed.

Lemma elem_of_scores store probe users u x :
  (u, x) ∈ scores store probe users →
  u ∈ users ∧
  ∃ fp, store !! embedding_path u = Some fp ∧ Np.dot probe fp = Some x.
Proof.
  unfold scores. rewrite list_elem_of_omap. intros (u' & Hin & Hsome).
  destruct (store !! embedding_path u') as [fp|] eqn:Hfp; [|done].
  cbn in Hsome. destruct (Np.dot probe fp) as [y|] eqn:Hdot; [|done].
  cbn in Hsome. injection Hsome as <- <-. eauto.
Qed.

Lemma np_dot_defined a b : length b = length a → is_Some (Np.dot a b).
Proof.
  intros Hl. unfold Np.dot. rewrite Hl, Nat.eqb_refl. by eexists.
Qed.

(** The loop computes the score map and the selection over it. *)
Lemma compare_with_enrolled_spec store probe users : ∀ st,
  (∀ u fp, u ∈ users → store !! embedding_path u = Some fp →
           length fp = length probe) →
  NoDup users →
  (∀ u, u ∈ users → u ∉ Py.keys (similarities st)) →
  let r := best_of (scores store probe users)
             (best_match st, best_similarity st) in
  compare_with_enrolled store probe users st
    = Some {| best_match := r.1;
              best_similarity := r.2;
              similarities := similarities st ++ scores store probe users |}.
Proof.
  induction users as [|u users IH]; intros st Hdim Hnd Hfresh r.
  - subst r. cbn. rewrite app_nil_r. by destruct st.
  - apply NoDup_cons in Hnd as [Hu Hnd]. cbn [compare_with_enrolled].
    destruct (store !! embedding_path u) as [fp|] eqn:Hfp.
    + destruct (np_dot_defined probe fp) as [x Hx].
      { eapply Hdim; [left | done]. }
      unfold compute_similarity. rewrite Hx.
      subst r. rewrite (scores_cons_present _ _ _ _ fp x) by done.
      rewrite PyFacts.set_fresh by (apply Hfresh; left).
      rewrite best_of_cons.
      destruct (Qgtb x (best_similarity st)) eqn:Hgt.
      * rewrite IH; cbn [best_match best_similarity similarities].
        -- by rewrite <- app_assoc.
        -- intros; eapply Hdim; [by right | done].
        -- done.
        -- intros u' Hu'. unfold Py.keys. rewrite fmap_app, elem_of_app.
           intros [Hin|Hin%list_elem_of_singleton].
           ++ by apply (Hfresh u'); [right|].
           ++ cbn in Hin. congruence.
      * rewrite IH; cbn [best_match best_similarity similarities].
        -- by rewrite <- app_assoc.
        -- intros; eapply Hdim; [by right | done].
        -- done.
        -- intros u' Hu'. unfold Py.keys. rewrite fmap_app, elem_of_app.
           intros [Hin|Hin%list_elem_of_singleton].
           ++ by apply (Hfresh u'); [right|].
           ++ cbn in Hin. congruence.
    + subst r. rewrite scores_cons_missing by done.
      apply IH; [|done|].
      * intros; eapply Hdim; [by right | done].
      * intros u' Hu'. apply Hfresh. by right.
Qed.

Lemma identify_nonempty probe s :
  load_registry s ≠ [] →
  identify probe s =
    match compare_with_enrolled (embeddings s) probe
            (Py.keys (load_registry s)) initial_match with
    | None => PredictFail 500 ServerError
    | Some st =>
        let hit := Qle_bool SIMILARITY_THRESHOLD (best_similarity st) in
        PredictOk {| prediction :=
                       if hit then best_match st else Some "Unknown";
                     confidence := best_similarity st;
                     threshold := Some SIMILARITY_THRESHOLD;
                     all_similarities := Some (similarities st);
                     note :=
                       if hit then MatchedWith else NoMatchAboveThreshold |}
    end.
Proof.
  intros Hne. unfold identify. by destruct (load_registry s).
Qed.

(** C2, as the code has it.  On a non-empty registry (distinct keys, stored
    fingerprints of the probe's dimension) [identify] answers with the score
    map of the registered identities that have a fingerprint file, each
    score the dot product of the probe and the stored fingerprint; the
    confidence bounds every score from above.  If some score exceeds the
    initial value -1, the confidence is the maximum score and the selected
    identity is the first one in registry order that attains it; the
    prediction is that identity when the maximum is at least
    [SIMILARITY_THRESHOLD] and ["Unknown"] when it is below.  If no score
    exceeds -1 (in particular when nothing was compared) the confidence is
    -1 and the prediction is ["Unknown"]. *)
Theorem identify_selects_first_maximum probe s :
  load_registry s ≠ [] →
  NoDup (Py.keys (load_registry s)) →
  (∀ u fp, u ∈ Py.keys (load_registry s) →
           embeddings s !! embedding_path u = Some fp →
           length fp = length probe) →
  let sims := scores (embeddings s) probe (Py.keys (load_registry s)) in
  ∃ body,
    identify probe s = PredictOk body ∧
    all_similarities body = Some sims ∧
    threshold body = Some SIMILARITY_THRESHOLD ∧
    (∀ u x, (u, x) ∈ sims → (x <= confidence body)%Q) ∧
    ((∀ u x, (u, x) ∈ sims → (x <= -1)%Q) →
     confidence body = (-1)%Q ∧ prediction body = Some "Unknown") ∧
    ((∃ u x, (u, x) ∈ sims ∧ (-1 < x)%Q) →
     ∃ i best,
       sims !! i = Some (best, confidence body) ∧
       best ∈ Py.keys (load_registry s) ∧
       (∀ j u x, j < i → sims !! j = Some (u, x) →
                 (x < confidence body)%Q) ∧
       ((SIMILARITY_THRESHOLD <= confidence body)%Q →
        prediction body = Some best) ∧
       ((confidence body < SIMILARITY_THRESHOLD)%Q →
        prediction body = Some "Unknown")).
Proof.
  intros Hne Hnd Hdim sims.
  rewrite identify_nonempty by done.
  rewrite (compare_with_enrolled_spec (embeddings s) probe
             (Py.keys (load_registry s)) initial_match Hdim Hnd)
    by (intros u _; cbn; apply not_elem_of_nil).
  cbn [initial_match best_match best_similarity similarities app].
  fold sims.
  destruct (best_of_spec sims None (-1)%Q) as (Hlow & Hall & Hsel).
  set (r := best_of sims (None, (-1)%Q)) in *.
  eexists. split; [reflexivity|]. cbn [all_similarities threshold confidence
    prediction]. split; [done|]. split; [done|]. split; [exact Hall|].
  split.
  - intros Hbelow. destruct Hsel as [Heq|(i & b & Hi & _ & Hlt & _)].
    + rewrite Heq. done.
    + exfalso. apply list_elem_of_lookup_2 in Hi. apply Hbelow in Hi.
      apply (Qlt_irrefl (-1)). eapply Qlt_le_trans; [exact Hlt | exact Hi].
  - intros (u & x & Hin & Hx).
    destruct Hsel as [Heq|(i & b & Hi & Hb & Hlt & Hbefore)].
    + exfalso. apply Hall in Hin. rewrite Heq in Hin. cbn in Hin.
      apply (Qlt_irrefl x). eapply Qle_lt_trans; [exact Hin | exact Hx].
    + exists i, b. split; [exact Hi|]. split.
      { apply list_elem_of_lookup_2, elem_of_scores in Hi. tauto. }
      split; [exact Hbefore|]. split.
      * intros Hhit%Qle_bool_iff. rewrite Hhit. exact Hb.
      * intros Hmiss. destruct (Qle_bool SIMILARITY_THRESHOLD r.2) eqn:Hhit;
          [|done].
        apply Qle_bool_iff in Hhit. exfalso. apply (Qlt_irrefl r.2).
        eapply Qlt_le_trans; [exact Hmiss | exact Hhit].
Qed.

Lemma identify_selects_first_maximum_witness :
  let probe := [1; 0]%Q in
  let s := Sample.four_speakers in
  let sims := scores (embeddings s) probe (Py.keys (load_registry s)) in
  ∃ body,
    identify probe s = PredictOk body ∧
    all_similarities body = Some sims ∧
    threshold body = Some SIMILARITY_THRESHOLD ∧
    (∀ u x, (u, x) ∈ sims → (x <= confidence body)%Q) ∧
    ((∀ u x, (u, x) ∈ sims → (x <= -1)%Q) →
     confidence body = (-1)%Q ∧ prediction body = Some "Unknown") ∧
    ((∃ u x, (u, x) ∈ sims ∧ (-1 < x)%Q) →
     ∃ i best,
       sims !! i = Some (best, confidence body) ∧
       best ∈ Py.keys (load_registry s) ∧
       (∀ j u x, j < i → sims !! j = Some (u, x) →
                 (x < confidence body)%Q) ∧
       ((SIMILARITY_THRESHOLD <= confidence body)%Q →
        prediction body = Some best) ∧
       ((confidence body < SIMILARITY_THRESHOLD)%Q →
        prediction body = Some "Unknown")).
Proof.
  intros probe s.
  apply (identify_selects_first_maximum probe s).
  - vm_compute. discriminate.
  - apply (bool_decide_unpack _). vm_compute. exact I.
  - intros u fp Hu.
    change (u ∈ ["carol"; "bob"; "dave"; "alice"]) in Hu.
    rewrite !elem_of_cons, elem_of_nil in Hu.
    destruct Hu as [->|[->|[->|[->|[]]]]]; vm_compute; intros [= <-];
      reflexivity.
Defined.

(** The tie of bob and alice is decided for bob, who comes first in the
    registry. *)
Example tie_goes_to_first_registered :
  identify [1; 0]%Q Sample.four_speakers
    = PredictOk {| prediction := Some "bob";
                   confidence := 1;
                   threshold := Some SIMILARITY_THRESHOLD;
                   all_similarities :=
                     Some [("carol", 0%Q); ("bob", 1%Q); ("alice", 1%Q)];
                   note := MatchedWith |}.
Proof. vm_compute. reflexivity. Qed.

(** A score below the initial value -1 is recorded in the score map but
    never becomes the confidence. *)
Example score_below_initial_value :
  identify [-2; -2]%Q Sample.four_speakers
    = PredictOk {| prediction := Some "Unknown";
                   confidence := (-1)%Q;
                   threshold := Some SIMILARITY_THRESHOLD;
                   all_similarities :=
                     Some [("carol", (-2)%Q); ("bob", (-2)%Q);
                           ("alice", (-2)%Q)];
                   note := NoMatchAboveThreshold |}.
Proof. vm_compute. reflexivity. Qed.

(** C2 as stated fails on a non-empty registry whose identity has no
    fingerprint file: nothing is compared, the score map is empty, and the
    confidence is the initial value -1, which is the score of no
    identity. *)
Lemma nonempty_registry_without_scores :
  load_registry Sample.orphan_entry ≠ [] ∧
  identify [1; 0]%Q Sample.orphan_entry = PredictOk nothing_compared ∧
  ¬ ∃ best fp x,
      best ∈ Py.keys (load_registry Sample.orphan_entry) ∧
      embeddings Sample.orphan_entry !! embedding_path best = Some fp ∧
      Np.dot [1; 0]%Q fp = Some x ∧
      confidence nothing_compared = x.
Proof.
  split; [vm_compute; discriminate|]. split; [vm_compute; reflexivity|].
  intros (best & fp & x & _ & Hfp & _). cbn in Hfp.
  by rewrite lookup_empty in Hfp.
Qed.

(** C6. On an empty registry [identify] answers ["Unknown"] with
    confidence exactly 0 for every probe, whatever the fingerprint store
    holds: no stored fingerprint is compared and the answer has no score
    map.  So does the endpoint, for every upload it can embed. *)
Theorem empty_registry_unknown probe s :
  load_registry s = [] →
  identify probe s = PredictOk nobody_enrolled ∧
  (∀ store folders,
     identify probe {| enrollments := folders; embeddings := store;
                       registry_file := registry_file s |}
       = PredictOk nobody_enrolled) ∧
  (∀ w file wav,
     filename file ≠ "" →
     save_uploaded_and_convert w file = Some wav →
     extract_embedding w wav = Some probe →
     predict_speaker w (Some file) s = PredictOk nobody_enrolled) ∧
  confidence nobody_enrolled = 0%Q ∧
  all_similarities nobody_enrolled = None.
Proof.
  intros Hempty.
  assert (∀ s', load_registry s' = [] →
                identify probe s' = PredictOk nobody_enrolled) as Hid.
  { intros s' Hs'. unfold identify. by rewrite Hs'. }
  split; [by apply Hid|]. split; [|split; [|done]].
  - intros store folders. apply Hid. exact Hempty.
  - intros w file wav Hname Hc Hx. unfold predict_speaker.
    rewrite decide_False by done. rewrite Hc, Hx. by apply Hid.
Qed.

Lemma empty_registry_unknown_witness :
  let probe := [1; 0]%Q in
  identify probe empty_fs = PredictOk nobody_enrolled ∧
  (∀ store folders,
     identify probe {| enrollments := folders; embeddings := store;
                       registry_file := registry_file empty_fs |}
       = PredictOk nobody_enrolled) ∧
  (∀ w file wav,
     filename file ≠ "" →
     save_uploaded_and_convert w file = Some wav →
     extract_embedding w wav = Some probe →
     predict_speaker w (Some file) empty_fs = PredictOk nobody_enrolled) ∧
  confidence nobody_enrolled = 0%Q ∧
  all_similarities nobody_enrolled = None.
Proof.
  intros probe. apply (empty_registry_unknown probe empty_fs). reflexivity.
Defined.

(** C10. If the registry is non-empty but none of its identities has a
    fingerprint file, [identify] answers ["Unknown"] with confidence -1 (the
    initial value, not 0) and an empty score map.  More generally an
    identity whose fingerprint file is missing is passed over by the
    comparison loop, which neither fails nor records a score for it. *)
Theorem missing_fingerprints_are_skipped :
  (∀ probe s,
     load_registry s ≠ [] →
     (∀ u, u ∈ Py.keys (load_registry s) →
           embeddings s !! embedding_path u = None) →
     identify probe s = PredictOk nothing_compared) ∧
  (∀ store probe u users st,
     store !! embedding_path u = None →
     compare_with_enrolled store probe (u :: users) st
       = compare_with_enrolled store probe users st) ∧
  (∀ store probe users st,
     compare_with_enrolled store probe users st
       = compare_with_enrolled store probe
           (filter (λ u, is_Some (store !! embedding_path u)) users) st).
Proof.
  assert (∀ store probe u users st,
            store !! embedding_path u = None →
            compare_with_enrolled store probe (u :: users) st
              = compare_with_enrolled store probe users st) as Hskip.
  { intros store probe u users st Hu. cbn [compare_with_enrolled].
    by rewrite Hu. }
  assert (∀ store probe users st,
            compare_with_enrolled store probe users st
              = compare_with_enrolled store probe
                  (filter (λ u, is_Some (store !! embedding_path u)) users)
                  st) as Hfilter.
  { intros store probe users. induction users as [|u users IH]; intros st;
      [done|].
    destruct (store !! embedding_path u) as [fp|] eqn:Hu.
    - rewrite filter_cons_True by (by rewrite Hu).
      cbn [compare_with_enrolled]. rewrite Hu.
      destruct (compute_similarity probe fp); [apply IH | done].
    - rewrite filter_cons_False by (rewrite Hu; by intros [? ?]).
      rewrite Hskip by done. apply IH. }
  split; [|split; [exact Hskip | exact Hfilter]].
  intros probe s Hne Hmissing.
  rewrite identify_nonempty by done. rewrite Hfilter.
  replace (filter _ (Py.keys (load_registry s))) with (@nil string); [done|].
  symmetry. induction (Py.keys (load_registry s)) as [|u users IH]; [done|].
  rewrite filter_cons_False.
  - apply IH. intros u' Hu'. apply Hmissing. by right.
  - rewrite Hmissing by left. by intros [? ?].
Qed.

Lemma missing_fingerprints_are_skipped_witness :
  identify [1; 0]%Q Sample.orphan_entry = PredictOk nothing_compared ∧
  compare_with_enrolled (embeddings Sample.four_speakers) [1; 0]%Q
    ["dave"; "alice"] initial_match
  = compare_with_enrolled (embeddings Sample.four_speakers) [1; 0]%Q
      ["alice"] initial_match.
Proof.
  destruct missing_fingerprints_are_skipped as (Hnone & Hskip & _).
  split.
  - apply Hnone.
    + vm_compute. discriminate.
    + intros u Hu. change (u ∈ ["dave"]) in Hu.
      apply list_elem_of_singleton in Hu as ->. vm_compute. reflexivity.
  - apply Hskip. vm_compute. reflexivity.
Defined.

(** * Further properties *)

(** ** Strings *)

Lemma string_app_cons a s t : String a s +:+ t = String a (s +:+ t).
Proof. reflexivity. Qed.

Lemma string_app_nil_r s : s +:+ "" = s.
Proof.
  induction s as [|a s IH]; [done|]. by rewrite string_app_cons, IH.
Qed.

Lemma string_app_assoc s1 s2 s3 : (s1 +:+ s2) +:+ s3 = s1 +:+ s2 +:+ s3.
Proof.
  induction s1 as [|a s1 IH]; [done|]. by rewrite !string_app_cons, IH.
Qed.

Lemma string_length_app s1 s2 :
  String.length (s1 +:+ s2) = String.length s1 + String.length s2.
Proof.
  induction s1 as [|a s1 IH]; [done|]. rewrite string_app_cons. cbn.
  by rewrite IH.
Qed.

Lemma string_app_inj_r s1 s2 t : s1 +:+ t = s2 +:+ t → s1 = s2.
Proof.
  revert s2. induction s1 as [|a s1 IH]; intros [|b s2] Heq.
  - done.
  - apply (f_equal String.length) in Heq.
    rewrite !string_length_app in Heq. cbn in Heq. lia.
  - apply (f_equal String.length) in Heq.
    rewrite !string_length_app in Heq. cbn in Heq. lia.
  - rewrite !string_app_cons in Heq. injection Heq as -> Heq.
    f_equal. by apply IH.
Qed.

Lemma embedding_path_inj u u' : embedding_path u = embedding_path u' → u = u'.
Proof. apply string_app_inj_r. Qed.

Lemma clip_name_inj i j : clip_name i = clip_name j → i = j.
Proof.
  unfold clip_name. intros Heq. apply String.app_inj in Heq.
  apply string_app_inj_r in Heq. by apply pretty_nat_inj in Heq.
Qed.

Lemma rev_app_spec s1 s2 : String.rev_app s1 s2 = String.rev s1 +:+ s2.
Proof.
  revert s2. induction s1 as [|a s1 IH]; intros s2; [done|].
  unfold String.rev. cbn. rewrite (IH (String a "")), IH.
  by rewrite string_app_assoc.
Qed.

Lemma rev_cons a s : String.rev (String a s) = String.rev s +:+ String a "".
Proof. unfold String.rev at 1. cbn. apply rev_app_spec. Qed.

Lemma rev_app s1 s2 : String.rev (s1 +:+ s2) = String.rev s2 +:+ String.rev s1.
Proof.
  induction s1 as [|a s1 IH].
  - change ("" +:+ s2) with s2. by rewrite string_app_nil_r.
  - by rewrite string_app_cons, !rev_cons, IH, string_app_assoc.
Qed.

Lemma rev_involutive s : String.rev (String.rev s) = s.
Proof.
  induction s as [|a s IH]; [done|]. by rewrite rev_cons, rev_app, IH.
Qed.

Lemma lower_ascii_idemp a : Py.lower_ascii (Py.lower_ascii a) = Py.lower_ascii a.
Proof. by destruct a as [[] [] [] [] [] [] [] []]. Qed.

Lemma is_space_lower_ascii a : Py.is_space (Py.lower_ascii a) = Py.is_space a.
Proof. by destruct a as [[] [] [] [] [] [] [] []]. Qed.

Lemma lower_idemp s : Py.lower (Py.lower s) = Py.lower s.
Proof.
  induction s as [|a s IH]; [done|]. cbn. by rewrite lower_ascii_idemp, IH.
Qed.

Lemma lower_app s1 s2 : Py.lower (s1 +:+ s2) = Py.lower s1 +:+ Py.lower s2.
Proof.
  induction s1 as [|a s1 IH]; [done|].
  rewrite string_app_cons. cbn [Py.lower]. by rewrite string_app_cons, IH.
Qed.

Lemma lower_rev s : Py.lower (String.rev s) = String.rev (Py.lower s).
Proof.
  induction s as [|a s IH]; [done|]. cbn [Py.lower].
  by rewrite !rev_cons, lower_app, IH.
Qed.

Lemma lstrip_lower s : Py.lstrip (Py.lower s) = Py.lower (Py.lstrip s).
Proof.
  induction s as [|a s IH]; [done|]. cbn. rewrite is_space_lower_ascii.
  by destruct (Py.is_space a).
Qed.

Lemma strip_lower s : Py.strip (Py.lower s) = Py.lower (Py.strip s).
Proof.
  unfold Py.strip, Py.rstrip.
  by rewrite lstrip_lower, <- !lower_rev, lstrip_lower, lower_rev.
Qed.

Lemma lstrip_idemp s : Py.lstrip (Py.lstrip s) = Py.lstrip s.
Proof.
  induction s as [|a s IH]; [done|]. cbn.
  destruct (Py.is_space a) eqn:Ha; [done|]. cbn. by rewrite Ha.
Qed.

Lemma lstrip_app_nonspace s a t :
  Py.is_space a = false →
  Py.lstrip (s +:+ String a t) = Py.lstrip s +:+ String a t.
Proof.
  intros Ha. induction s as [|b s IH].
  - change ("" +:+ String a t) with (String a t). cbn. by rewrite Ha.
  - rewrite string_app_cons. cbn [Py.lstrip].
    by destruct (Py.is_space b).
Qed.

Lemma rstrip_cons_nonspace a s :
  Py.is_space a = false → Py.rstrip (String a s) = String a (Py.rstrip s).
Proof.
  intros Ha. unfold Py.rstrip.
  by rewrite rev_cons, lstrip_app_nonspace, rev_app by done.
Qed.

Lemma rstrip_idemp s : Py.rstrip (Py.rstrip s) = Py.rstrip s.
Proof. unfold Py.rstrip. by rewrite rev_involutive, lstrip_idemp. Qed.

Lemma strip_idemp s : Py.strip (Py.strip s) = Py.strip s.
Proof.
  unfold Py.strip.
  assert (∀ t, Py.lstrip t = t → Py.lstrip (Py.rstrip t) = Py.rstrip t) as H.
  { intros [|a t] Ht; [done|]. cbn in Ht.
    destruct (Py.is_space a) eqn:Ha.
    - exfalso. apply (f_equal String.length) in Ht. cbn in Ht.
      assert (∀ x, String.length (Py.lstrip x) ≤ String.length x) as Hle.
      { clear. induction x as [|b x IH]; cbn; [done|].
        destruct (Py.is_space b); cbn; lia. }
      specialize (Hle t). lia.
    - rewrite rstrip_cons_nonspace by done. cbn. by rewrite Ha. }
  rewrite H by apply lstrip_idemp. apply rstrip_idemp.
Qed.

Lemma normalise_idemp s :
  Py.lower (Py.strip (Py.lower (Py.strip s))) = Py.lower (Py.strip s).
Proof. by rewrite strip_lower, strip_idemp, lower_idemp. Qed.

Lemma lower_ne_Unknown s : Py.lower s ≠ "Unknown".
Proof.
  destruct s as [|a s]; [done|]. cbn. intros [= Ha _]. revert Ha.
  by destruct a as [[] [] [] [] [] [] [] []].
Qed.

(** ** What [enroll_speaker] touches *)

Lemma makedirs_embeddings u s : embeddings (makedirs u s) = embeddings s.
Proof. unfold makedirs. by destruct (enrollments s !! u). Qed.

Lemma makedirs_registry_file u s :
  registry_file (makedirs u s) = registry_file s.
Proof. unfold makedirs. by destruct (enrollments s !! u). Qed.

(** The footprint of one call: only the folder of the request's identity
    can change, and only by the submitted slot; only that identity's
    fingerprint file and registry entry can be written. *)
Lemma enroll_speaker_footprint w req s :
  let s' := (enroll_speaker w req s).1 in
  let u := req_username req in
  (∀ u', u' ≠ u → user_folder s' u' = user_folder s u') ∧
  (user_folder s' u = user_folder s u ∨
   ∃ wav, 1 ≤ req_slot req ≤ REQUIRED_CLIPS ∧
          user_folder s' u
            = <[clip_name (req_slot req) := wav]> (user_folder s u)) ∧
  (embeddings s' = embeddings s ∨
   ∃ avg, embeddings s' = <[embedding_path u := avg]> (embeddings s)) ∧
  (registry_file s' = registry_file s ∨
   ∃ n avg, 1 ≤ n ≤ REQUIRED_CLIPS ∧
     embeddings s' = <[embedding_path u := avg]> (embeddings s) ∧
     registry_file s'
       = Some (Py.set u (new_entry w u n None) (load_registry s))).
Proof.
  intros s' u. subst s'.
  destruct (enroll_speaker_outcome w req s)
    as [msg ? ?|? ? ?|file Hv ?|file wav Hv ? s2 received ?
        |file wav Hv ? s2 received ?]; cbn [fst].
  - split; [done|]. split; [by left|]. split; by left.
  - split; [done|]. split; [by left|]. split; by left.
  - split; [intros; by apply after_failed_conversion_other|].
    split.
    { fold u. unfold u. rewrite after_failed_conversion_folder.
      destruct (left_at_target w file) as [residue|]; [right|by left].
      exists residue. split; [apply Hv | done]. }
    split; left; [apply after_failed_conversion_embeddings
                 |apply after_failed_conversion_registry_file].
  - fold u in s2. split; [intros; by apply user_folder_write_clip_ne|].
    split; [|split; by left].
    right. exists wav. split; [apply Hv | apply user_folder_write_clip].
  - fold u in s2 |- *.
    assert (∀ u', u' ≠ u → user_folder s2 u' = user_folder s u') as Hother
      by (intros; by apply user_folder_write_clip_ne).
    assert (∃ wav0, 1 ≤ req_slot req ≤ REQUIRED_CLIPS ∧
              user_folder s2 u
                = <[clip_name (req_slot req) := wav0]> (user_folder s u))
      as Hslot.
    { exists wav. split; [apply Hv | apply user_folder_write_clip]. }
    destruct (generate_embedding_outcome w u received s2)
      as [?|? ?|avg ? ? ?|avg vs Hne ? ?]; cbn [fst].
    + split; [done|]. split; [by right|]. split; by left.
    + split; [done|]. split; [by right|]. split; by left.
    + split; [done|]. split; [by right|]. split; [right; by exists avg|].
      by left.
    + split; [done|]. split; [by right|]. split; [right; by exists avg|].
      right. exists (length vs), avg. split; [|done].
      split; [by apply length_pos_of_ne_nil | apply length_extracted_slots].
Qed.

(** X1. A request that does not pass the input checks changes nothing on
    disk.  It is answered with status 400 and one of the five validation
    messages; the one exception is a [clip_number] of more digits than
    [int] converts, on which [int] raises and the answer is the server
    error of status 500.  (The form fields are ASCII; [str.strip] and
    [str.isdigit] beyond ASCII are not modelled.) *)
Theorem rejected_request_changes_nothing w req s :
  (∀ file, ¬ valid_request req file) →
  let clip_number := default "" (form_clip_number req) in
  is_ascii (default "" (form_username req)) = true →
  is_ascii clip_number = true →
  ∃ code msg,
    enroll_speaker w req s = (s, EnrollFail code msg) ∧
    (code = 400 ∧ msg ∈ validation_messages ∨
     code = 500 ∧ msg = ServerError ∧ req_username req ≠ "" ∧
     Py.isdigit clip_number = true ∧
     Py.int_max_str_digits < String.length clip_number) ∧
    (String.length clip_number ≤ Py.int_max_str_digits → code = 400).
Proof.
  intros Hinvalid clip_number _ _. unfold enroll_speaker.
  fold (req_username req). fold clip_number.
  destruct (decide (req_username req = "")) as [Hu|Hu].
  { exists 400, UsernameRequired. split; [done|]. split; [|done].
    left. split; [done|]. set_solver. }
  destruct (Py.isdigit clip_number) eqn:Hd; cbn [negb].
  2:{ exists 400, ValidClipNumberRequired. split; [done|]. split; [|done].
      left. split; [done|]. set_solver. }
  destruct (Py.int clip_number) as [k|] eqn:Hint.
  2:{ exists 500, ServerError. unfold Py.int in Hint.
      destruct (Nat.leb (String.length clip_number) Py.int_max_str_digits)
        eqn:Hlen; [done|]. apply Nat.leb_gt in Hlen.
      split; [done|]. split; [by right | lia]. }
  assert (req_slot req = k) as Hslot.
  { unfold req_slot. fold clip_number. by rewrite Hint. }
  rewrite <- Hslot. clear Hslot Hint k.
  destruct (Nat.ltb (req_slot req) 1 || Nat.ltb REQUIRED_CLIPS (req_slot req))
    eqn:Hr.
  { exists 400, ClipNumberOutOfRange. split; [done|]. split; [|done].
    left. split; [done|]. set_solver. }
  apply orb_false_iff in Hr as [Hlo Hhi]. apply Nat.ltb_ge in Hlo, Hhi.
  destruct (files_audio req) as [file|] eqn:Hf.
  2:{ exists 400, NoAudioFileProvided. split; [done|]. split; [|done].
      left. split; [done|]. set_solver. }
  destruct (decide (filename file = "")) as [Hn|Hn].
  { exists 400, NoFileSelected. split; [done|]. split; [|done].
    left. split; [done|]. set_solver. }
  destruct (Hinvalid file). done.
Qed.

Lemma rejected_request_changes_nothing_witness :
  let req := Sample.clip "alice" "5" "alice-1" in
  let clip_number := default "" (form_clip_number req) in
  ∃ code msg,
    enroll_speaker (Sample.world_at "09:05" true) req Sample.three_clips
      = (Sample.three_clips, EnrollFail code msg) ∧
    (code = 400 ∧ msg ∈ validation_messages ∨
     code = 500 ∧ msg = ServerError ∧ req_username req ≠ "" ∧
     Py.isdigit clip_number = true ∧
     Py.int_max_str_digits < String.length clip_number) ∧
    (String.length clip_number ≤ Py.int_max_str_digits → code = 400).
Proof.
  intros req.
  apply (rejected_request_changes_nothing (Sample.world_at "09:05" true) req
           Sample.three_clips).
  - intros file (_ & _ & [_ Hhi] & _). vm_compute in Hhi.
    repeat (apply le_S_n in Hhi). inversion Hhi.
  - reflexivity.
  - reflexivity.
Defined.

(** A slot number padded with zeros beyond the limit of [int] makes the
    call fail with the server error. *)
Example overlong_clip_number_raises :
  let padded := String.concat "" (replicate 4300 "0") +:+ "1" in
  Py.isdigit padded = true ∧
  enroll_speaker (Sample.world_at "09:05" true)
    (Sample.clip "alice" padded "alice-1") Sample.three_clips
  = (Sample.three_clips, EnrollFail 500 ServerError).
Proof. vm_compute. split; reflexivity. Qed.

(** X2. A call of [enroll_speaker] for one identity leaves the clips, the
    fingerprint file and the registry entry of every other identity as they
    were, whatever the outcome of the call.  (The user name of the request
    is plain and the name of the other identity is one path component, so
    that the two have folders and fingerprint files of their own.) *)
Theorem enroll_leaves_other_identities w req s u' :
  plain_username (default "" (form_username req)) →
  path_component u' = true →
  u' ≠ req_username req →
  user_folder (enroll_speaker w req s).1 u' = user_folder s u' ∧
  embeddings (enroll_speaker w req s).1 !! embedding_path u'
    = embeddings s !! embedding_path u' ∧
  Py.get u' (load_registry (enroll_speaker w req s).1)
    = Py.get u' (load_registry s).
Proof.
  intros _ _ Hne.
  destruct (enroll_speaker_footprint w req s)
    as (Hother & _ & Hstore & Hreg).
  split; [by apply Hother|]. split.
  - destruct Hstore as [->|[avg ->]]; [done|].
    apply lookup_insert_ne. intros Heq%embedding_path_inj. done.
  - unfold load_registry at 1.
    destruct Hreg as [->|(n & avg & _ & _ & ->)]; [done|]. cbn [default].
    apply PyFacts.get_set_ne. done.
Qed.

Lemma enroll_leaves_other_identities_witness :
  let s := (migrate_speaker (Sample.world_at "08:00" true) Sample.old_clips
              "Bob" Sample.three_clips).1 in
  let call := enroll_speaker (Sample.world_at "09:04" true)
                (Sample.clip "alice" "4" "alice-4") s in
  user_folder call.1 "bob" = user_folder s "bob" ∧
  embeddings call.1 !! embedding_path "bob"
    = embeddings s !! embedding_path "bob" ∧
  Py.get "bob" (load_registry call.1) = Py.get "bob" (load_registry s).
Proof.
  intros s call. apply enroll_leaves_other_identities.
  - split; vm_compute; reflexivity.
  - vm_compute. reflexivity.
  - vm_compute. discriminate.
Defined.

(** ** Slot files *)

Lemma slot_names_only_empty : slot_names_only ∅.
Proof. intros name [? Hname]. by rewrite lookup_empty in Hname. Qed.

Lemma slot_names_only_insert folder i wav :
  1 ≤ i ≤ REQUIRED_CLIPS →
  slot_names_only folder →
  slot_names_only (<[clip_name i := wav]> folder).
Proof.
  intros Hi Hfolder name Hname.
  destruct (decide (clip_name i = name)) as [<-|Hne]; [by exists i|].
  rewrite lookup_insert_ne in Hname by done. by apply Hfolder.
Qed.

Lemma user_folder_delete u u' s store registry :
  user_folder {| enrollments := delete u (enrollments s);
                 embeddings := store; registry_file := registry |} u'
  = if decide (u = u') then ∅ else user_folder s u'.
Proof.
  unfold user_folder. cbn [enrollments].
  destruct (decide (u = u')) as [<-|Hne].
  - by rewrite lookup_delete_eq.
  - by rewrite lookup_delete_ne.
Qed.

(** The three ways [delete_user] ends. *)
Lemma delete_user_cases w name s :
  let u := Py.lower (Py.strip name) in
  (Py.contains u (load_registry s) = false ∧
   delete_user w name s = (s, DeleteFail 404 UserNotFound)) ∨
  (Py.contains u (load_registry s) = true ∧ registry_writable w = true ∧
   delete_user w name s
     = ({| enrollments := delete u (enrollments s);
           embeddings := delete (embedding_path u) (embeddings s);
           registry_file := Some (Py.del u (load_registry s)) |},
        DeleteOk)) ∨
  (Py.contains u (load_registry s) = true ∧ registry_writable w = false ∧
   delete_user w name s
     = ({| enrollments := delete u (enrollments s);
           embeddings := delete (embedding_path u) (embeddings s);
           registry_file := registry_file s |},
        DeleteFail 500 ServerError)).
Proof.
  intros u. unfold delete_user. fold u.
  destruct (Py.contains u (load_registry s)); cbn [negb]; [|by left].
  right. unfold save_registry. destruct (registry_writable w); [left|right];
    done.
Qed.

Lemma copy_and_extract_folders w u clips : ∀ i embs s,
  1 ≤ i → i + length clips ≤ S REQUIRED_CLIPS →
  slots_only s →
  slots_only (copy_and_extract w u i clips embs s).1 ∧
  ∀ u', u' ≠ u →
    user_folder (copy_and_extract w u i clips embs s).1 u' = user_folder s u'.
Proof.
  induction clips as [|[name wav] clips IH]; intros i embs s Hi Hlen Hs.
  - done.
  - cbn [copy_and_extract]. cbn [length] in Hlen.
    destruct (IH (S i) (embs ++ option_list (extract_embedding w wav))
                (write_clip u (clip_name i) wav s)) as [Hslots Hother].
    + lia.
    + lia.
    + intros u'. destruct (decide (u = u')) as [<-|Hne].
      * rewrite user_folder_write_clip.
        apply slot_names_only_insert; [lia | apply Hs].
      * rewrite user_folder_write_clip_ne by done. apply Hs.
    + split; [exact Hslots|]. intros u' Hne.
      rewrite Hother by done. by apply user_folder_write_clip_ne.
Qed.

Lemma slots_only_makedirs u s : slots_only s → slots_only (makedirs u s).
Proof. intros Hs u'. rewrite user_folder_makedirs. apply Hs. Qed.

Lemma migrate_speaker_folders w source name s :
  slots_only s →
  slots_only (migrate_speaker w source name s).1 ∧
  ∀ u', u' ≠ Py.lower name →
    user_folder (migrate_speaker w source name s).1 u' = user_folder s u'.
Proof.
  intros Hs. unfold migrate_speaker.
  destruct (source !! name) as [listing|]; [|done].
  destruct (Nat.eqb (length (filter _ listing)) 0); [done|].
  pose proof (copy_and_extract_folders w (Py.lower name)
    (take CLIPS_TO_USE
       (filter (λ f, Is_true (Py.endswith ".wav" f.1)) listing))
    1 [] (makedirs (Py.lower name) s)) as Hcopy.
  destruct Hcopy as [Hslots Hother].
  { lia. }
  { rewrite length_take. unfold CLIPS_TO_USE, REQUIRED_CLIPS. lia. }
  { by apply slots_only_makedirs. }
  destruct (copy_and_extract _ _ _ _ _ _) as [s2 embs]. cbn [fst] in *.
  assert (∀ u', u' ≠ Py.lower name → user_folder s2 u' = user_folder s u')
    as Hother'.
  { intros u' Hne. rewrite Hother by done. apply user_folder_makedirs. }
  destruct (Nat.eqb (length embs) 0); [done|].
  destruct (Np.mean embs) as [avg|]; [|done].
  unfold save_registry. by destruct (registry_writable w).
Qed.

Lemma slots_only_enroll w req s :
  slots_only s → slots_only (enroll_speaker w req s).1.
Proof.
  intros Hs u'.
  destruct (enroll_speaker_footprint w req s) as (Hother & Hown & _).
  destruct (decide (u' = req_username req)) as [->|Hne].
  - destruct Hown as [->|(wav & Hslot & ->)]; [apply Hs|].
    apply slot_names_only_insert; [done | apply Hs].
  - rewrite Hother by done. apply Hs.
Qed.

Lemma slots_only_delete w name s :
  slots_only s → slots_only (delete_user w name s).1.
Proof.
  intros Hs u'.
  destruct (delete_user_cases w name s)
    as [[_ ->]|[(_ & _ & ->)|(_ & _ & ->)]]; cbn [fst]; [apply Hs| |];
    rewrite user_folder_delete; destruct (decide _);
    try apply slot_names_only_empty; apply Hs.
Qed.

(** X3. The enrollment folders never hold anything but the slot files
    [clip_1.wav] .. [clip_REQUIRED_CLIPS.wav]: the property holds on an
    empty disk and is kept by [enroll_speaker] for a plain user name, by
    [migrate_speaker] for a speaker folder whose name is one path
    component, and by [delete_user]. *)
Theorem slots_only_kept w s :
  slots_only s →
  (∀ req,
     plain_username (default "" (form_username req)) →
     slots_only (enroll_speaker w req s).1) ∧
  (∀ source name,
     path_component name = true →
     slots_only (migrate_speaker w source name s).1) ∧
  (∀ name, slots_only (delete_user w name s).1).
Proof.
  intros Hs. split; [|split].
  - intros req _. by apply slots_only_enroll.
  - intros source name _. by apply migrate_speaker_folders.
  - intros name. by apply slots_only_delete.
Qed.

Lemma slots_only_empty : slots_only empty_fs.
Proof.
  intros u. unfold user_folder. cbn. rewrite lookup_empty.
  apply slot_names_only_empty.
Qed.

Lemma slots_only_three_clips : slots_only Sample.three_clips.
Proof.
  pose proof slots_only_empty as H0.
  pose proof (slots_only_enroll (Sample.world_at "09:01" true)
                (Sample.clip " alice " "1" "alice-1") _ H0) as H1.
  pose proof (slots_only_enroll (Sample.world_at "09:02" true)
                (Sample.clip "Alice" "2" "noise") _ H1) as H2.
  exact (slots_only_enroll (Sample.world_at "09:03" true)
           (Sample.clip "Alice" "3" "alice-3") _ H2).
Qed.

Lemma slots_only_kept_witness :
  let w := Sample.truncating_world_at "09:04" in
  let s := Sample.three_clips in
  slots_only (enroll_speaker w (Sample.clip "alice" "4" "garbage") s).1 ∧
  slots_only (migrate_speaker w Sample.old_clips "Bob" s).1 ∧
  slots_only (delete_user w "alice" s).1.
Proof.
  intros w s.
  destruct (slots_only_kept w s slots_only_three_clips)
    as (Henroll & Hmigrate & Hdelete).
  split; [|split].
  - apply Henroll. split; vm_compute; reflexivity.
  - apply Hmigrate. vm_compute. reflexivity.
  - apply Hdelete.
Defined.

(** The number of [clip_] files of a folder of slot files is the number of
    filled slots. *)
Lemma existing_clips_filled_slots folder :
  slot_names_only folder →
  existing_clips folder = length (filled_slots folder).
Proof.
  intros Hfolder. unfold existing_clips, os_listdir, filled_slots.
  rewrite length_omap_filter.
  set (filled := filter (λ i, is_Some (folder !! clip_name i))
                   (seq 1 REQUIRED_CLIPS)).
  assert (elements (dom folder) ≡ₚ clip_name <$> filled) as Hperm.
  { apply NoDup_Permutation.
    - apply NoDup_elements.
    - apply NoDup_fmap_2; [intros i j; apply clip_name_inj|].
      apply NoDup_filter, NoDup_seq.
    - intros name. rewrite elem_of_elements, elem_of_dom, list_elem_of_fmap.
      split.
      + intros Hname. destruct (Hfolder name Hname) as (i & Hi & ->).
        exists i. split; [done|]. apply list_elem_of_filter.
        split; [done|]. apply elem_of_seq. lia.
      + intros (i & -> & Hin). by apply list_elem_of_filter in Hin as [? _]. }
  rewrite Hperm. clear Hperm. clearbody filled.
  induction filled as [|i filled IH]; [done|].
  rewrite fmap_cons, filter_cons_True by (by rewrite clip_name_startswith).
  cbn [length]. by rewrite IH.
Qed.

Lemma enroll_complete_counts w req s s' msg u n m :
  enroll_speaker w req s = (s', EnrollOk msg u n m true) →
  n = existing_clips (user_folder s' u) ∧ REQUIRED_CLIPS ≤ n ∧
  m = REQUIRED_CLIPS ∧ msg = EnrollmentComplete.
Proof.
  intros Heq. pose proof (enroll_speaker_outcome w req s) as Ho.
  rewrite Heq in Ho. inversion Ho as [| | | |file wav Hv Hc s2 received Hn Hg].
  pose proof (generate_embedding_outcome w (req_username req) received s2)
    as Hco.
  rewrite Hg in Hco. inversion Hco as [| | |avg vs Hne Hm Hw]; subst.
  done.
Qed.

(** X4. On folders of slot files the [clips_received] of every successful
    answer is the number of filled slots of the identity; it never exceeds
    [REQUIRED_CLIPS]; an answer with [enrollment_complete] true means that
    every slot is filled, and one with [enrollment_complete] false that some
    slot is still empty. *)
Theorem clips_received_counts_filled_slots w req s s' msg u n m complete :
  slots_only s →
  enroll_speaker w req s = (s', EnrollOk msg u n m complete) →
  n = length (filled_slots (user_folder s' u)) ∧
  n ≤ REQUIRED_CLIPS ∧
  m = REQUIRED_CLIPS ∧
  (complete = true →
   ∀ i, 1 ≤ i ≤ REQUIRED_CLIPS → is_Some (user_folder s' u !! clip_name i)) ∧
  (complete = false →
   ∃ i, 1 ≤ i ≤ REQUIRED_CLIPS ∧ user_folder s' u !! clip_name i = None).
Proof.
  intros Hs Heq.
  assert (slots_only s') as Hs'.
  { pose proof (slots_only_enroll w req s Hs) as H.
    by rewrite Heq in H. }
  assert (∀ folder,
            length (filled_slots folder) = REQUIRED_CLIPS →
            ∀ i, 1 ≤ i ≤ REQUIRED_CLIPS → is_Some (folder !! clip_name i))
    as Hfull.
  { intros folder. unfold filled_slots, REQUIRED_CLIPS. cbn.
    intros Hlen i Hi.
    destruct (folder !! clip_name 1) eqn:H1, (folder !! clip_name 2) eqn:H2,
      (folder !! clip_name 3) eqn:H3, (folder !! clip_name 4) eqn:H4;
      try (cbn in Hlen; lia).
    assert (i = 1 ∨ i = 2 ∨ i = 3 ∨ i = 4) as [->|[->|[->| ->]]] by lia;
      by eexists. }
  assert (∀ folder,
            length (filled_slots folder) < REQUIRED_CLIPS →
            ∃ i, 1 ≤ i ≤ REQUIRED_CLIPS ∧ folder !! clip_name i = None)
    as Hpartial.
  { intros folder. unfold filled_slots, REQUIRED_CLIPS. cbn. intros Hlen.
    destruct (folder !! clip_name 1) eqn:H1; [|exists 1; split; [lia|done]].
    destruct (folder !! clip_name 2) eqn:H2; [|exists 2; split; [lia|done]].
    destruct (folder !! clip_name 3) eqn:H3; [|exists 3; split; [lia|done]].
    destruct (folder !! clip_name 4) eqn:H4; [|exists 4; split; [lia|done]].
    cbn in Hlen. lia. }
  destruct complete.
  - apply enroll_complete_counts in Heq as (-> & Hn & -> & _).
    rewrite existing_clips_filled_slots in * by apply Hs'.
    pose proof (length_filled_slots (user_folder s' u)) as Hle.
    split; [done|]. split; [done|]. split; [done|].
    split; [|done]. intros _. apply Hfull. lia.
  - apply enroll_progress_inv in Heq
      as (file & wav & _ & _ & -> & -> & -> & Hn & _ & ->).
    rewrite existing_clips_filled_slots in * by apply Hs'.
    split; [done|]. split; [lia|]. split; [done|]. split; [done|].
    intros _. by apply Hpartial.
Qed.

Lemma clips_received_counts_filled_slots_witness :
  4 = length (filled_slots (user_folder Sample.enrolled "alice")) ∧
  4 ≤ REQUIRED_CLIPS ∧
  4 = REQUIRED_CLIPS ∧
  (true = true →
   ∀ i, 1 ≤ i ≤ REQUIRED_CLIPS →
        is_Some (user_folder Sample.enrolled "alice" !! clip_name i)) ∧
  (true = false →
   ∃ i, 1 ≤ i ≤ REQUIRED_CLIPS ∧
        user_folder Sample.enrolled "alice" !! clip_name i = None).
Proof.
  apply (clips_received_counts_filled_slots (Sample.world_at "09:04" true)
           (Sample.clip "alice" "4" "alice-4") Sample.three_clips
           Sample.enrolled EnrollmentComplete "alice" 4 4 true).
  - apply slots_only_three_clips.
  - vm_compute. reflexivity.
Defined.

(** ** More on the matcher *)

Lemma np_dot_None a b : Np.dot a b = None ↔ length a ≠ length b.
Proof.
  unfold Np.dot. destruct (Nat.eqb (length a) (length b)) eqn:Hl.
  - apply Nat.eqb_eq in Hl. split; [done | by intros []].
  - apply Nat.eqb_neq in Hl. done.
Qed.

(** The selected identity is one of the compared ones, and its score is the
    best similarity. *)
Lemma compare_with_enrolled_sound store probe users : ∀ st st',
  compare_with_enrolled store probe users st = Some st' →
  (best_match st' = best_match st ∧
   best_similarity st' = best_similarity st) ∨
  ∃ u (fp : embedding), u ∈ users ∧ store !! embedding_path u = Some fp ∧
          Np.dot probe fp = Some (best_similarity st') ∧
          best_match st' = Some u.
Proof.
  induction users as [|u users IH]; intros st st' Heq.
  - cbn in Heq. injection Heq as <-. by left.
  - cbn [compare_with_enrolled] in Heq.
    destruct (store !! embedding_path u) as [fp|] eqn:Hfp.
    + unfold compute_similarity in Heq.
      destruct (Np.dot probe fp) as [x|] eqn:Hx; [|done].
      apply IH in Heq as [[Hm Hs]|(u' & fp' & Hin & Hfp' & Hdot & Hm)].
      * destruct (Qgtb x (best_similarity st)); cbn in Hm, Hs.
        -- right. exists u, fp. rewrite Hs. split; [left|done].
        -- by left.
      * right. exists u', fp'. split; [by right | done].
    + apply IH in Heq as [?|(u' & fp' & Hin & ?)]; [by left|].
      right. exists u', fp'. split; [by right | done].
Qed.

Lemma compare_with_enrolled_None store probe users : ∀ st,
  compare_with_enrolled store probe users st = None ↔
  ∃ u (fp : embedding), u ∈ users ∧ store !! embedding_path u = Some fp ∧
          length fp ≠ length probe.
Proof.
  induction users as [|u users IH]; intros st.
  - cbn. split; [done|]. intros (u & fp & Hin & _). by apply elem_of_nil in Hin.
  - cbn [compare_with_enrolled].
    destruct (store !! embedding_path u) as [fp|] eqn:Hfp.
    + unfold compute_similarity.
      destruct (Np.dot probe fp) as [x|] eqn:Hx.
      * rewrite IH. split.
        -- intros (u' & fp' & Hin & ?). exists u', fp'. split; [by right|done].
        -- intros (u' & fp' & [->|Hin]%elem_of_cons & Hfp' & Hlen).
           ++ exfalso. rewrite Hfp in Hfp'. injection Hfp' as <-.
              assert (Np.dot probe fp = None) as Hnone
                by (by apply np_dot_None).
              rewrite Hx in Hnone. discriminate.
           ++ by exists u', fp'.
      * split; [|done]. intros _. exists u, fp.
        apply np_dot_None in Hx. split; [left | done].
    + rewrite IH. split.
      * intros (u' & fp' & Hin & ?). exists u', fp'. split; [by right|done].
      * intros (u' & fp' & [->|Hin]%elem_of_cons & Hfp' & Hlen).
        -- rewrite Hfp in Hfp'. discriminate.
        -- by exists u', fp'.
Qed.

(** What an answer of the matcher says about the stores. *)
Lemma identify_answer_sound probe s body :
  identify probe s = PredictOk body →
  (note body = MatchedWith →
   ∃ u (fp : embedding), prediction body = Some u ∧
           u ∈ Py.keys (load_registry s) ∧
           embeddings s !! embedding_path u = Some fp ∧
           Np.dot probe fp = Some (confidence body) ∧
           (SIMILARITY_THRESHOLD <= confidence body)%Q) ∧
  (note body ≠ MatchedWith →
   prediction body = Some "Unknown" ∧
   (confidence body < SIMILARITY_THRESHOLD)%Q).
Proof.
  unfold identify.
  destruct (Nat.eqb (length (load_registry s)) 0).
  { intros [= <-]. cbn. split; [done|]. intros _. split; [done|].
    reflexivity. }
  destruct (compare_with_enrolled _ _ _ _) as [st|] eqn:Hloop; [|done].
  intros [= <-]. cbn [note prediction confidence].
  destruct (Qle_bool SIMILARITY_THRESHOLD (best_similarity st)) eqn:Hhit.
  - split; [|done]. intros _.
    apply compare_with_enrolled_sound in Hloop
      as [[_ Hs]|(u & fp & Hin & Hfp & Hdot & Hm)].
    + rewrite Hs in Hhit. cbn in Hhit. discriminate.
    + exists u, fp. apply Qle_bool_iff in Hhit. done.
  - split; [done|]. intros _. split; [done|].
    apply Qnot_le_lt. intros Hle%Qle_bool_iff. congruence.
Qed.

(** X5. Whatever the registry and the fingerprint store hold, an answer of
    the matcher always carries a prediction, and an answer that reports a
    match names a registered identity whose fingerprint file exists and
    whose dot product with the probe is exactly the reported confidence,
    which is at least [SIMILARITY_THRESHOLD]; every other answer predicts
    ["Unknown"]. *)
Theorem reported_match_is_registered probe s body :
  identify probe s = PredictOk body →
  (note body = MatchedWith →
   ∃ u (fp : embedding), prediction body = Some u ∧
           u ∈ Py.keys (load_registry s) ∧
           embeddings s !! embedding_path u = Some fp ∧
           Np.dot probe fp = Some (confidence body) ∧
           (SIMILARITY_THRESHOLD <= confidence body)%Q) ∧
  (note body ≠ MatchedWith →
   prediction body = Some "Unknown" ∧
   (confidence body < SIMILARITY_THRESHOLD)%Q).
Proof. apply identify_answer_sound. Qed.

Lemma reported_match_is_registered_witness :
  let body := {| prediction := Some "bob";
                 confidence := 1;
                 threshold := Some SIMILARITY_THRESHOLD;
                 all_similarities :=
                   Some [("carol", 0%Q); ("bob", 1%Q); ("alice", 1%Q)];
                 note := MatchedWith |} in
  (note body = MatchedWith →
   ∃ u (fp : embedding), prediction body = Some u ∧
           u ∈ Py.keys (load_registry Sample.four_speakers) ∧
           embeddings Sample.four_speakers !! embedding_path u = Some fp ∧
           Np.dot [1; 0]%Q fp = Some (confidence body) ∧
           (SIMILARITY_THRESHOLD <= confidence body)%Q) ∧
  (note body ≠ MatchedWith →
   prediction body = Some "Unknown" ∧
   (confidence body < SIMILARITY_THRESHOLD)%Q).
Proof.
  intros body.
  apply (reported_match_is_registered [1; 0]%Q Sample.four_speakers body).
  vm_compute. reflexivity.
Defined.

(** X6. On a non-empty registry the matcher fails (status 500) exactly when
    some registered identity has a fingerprint file whose dimension differs
    from the probe's; on an empty registry it never fails. *)
Theorem identify_fails_on_dimension_mismatch probe s :
  identify probe s = PredictFail 500 ServerError ↔
  load_registry s ≠ [] ∧
  ∃ u (fp : embedding), u ∈ Py.keys (load_registry s) ∧
          embeddings s !! embedding_path u = Some fp ∧
          length fp ≠ length probe.
Proof.
  destruct (load_registry s) as [|e reg] eqn:Hreg.
  - unfold identify. rewrite Hreg. cbn. split; [done | by intros [? _]].
  - rewrite identify_nonempty by (by rewrite Hreg). rewrite Hreg.
    rewrite <- (compare_with_enrolled_None (embeddings s) probe
                  (Py.keys (e :: reg)) initial_match).
    destruct (compare_with_enrolled _ _ _ _); split; try done.
    by intros [_ ?].
Qed.

(** A stored fingerprint of another dimension makes every identification
    fail. *)
Example mismatched_fingerprint_fails :
  identify [1; 0; 0]%Q Sample.four_speakers = PredictFail 500 ServerError.
Proof. vm_compute. reflexivity. Qed.

(** ** Deleting an identity *)

Lemma get_del_ne {V} (k k' : string) (d : Py.dict V) :
  k ≠ k' → Py.get k' (Py.del k d) = Py.get k' d.
Proof.
  intros Hne. induction d as [|[k0 v0] d IH]; [done|]. cbn.
  destruct (decide (k0 = k)) as [->|Hk0].
  - by rewrite decide_False.
  - cbn. destruct (decide (k0 = k')); [done | apply IH].
Qed.

Lemma contains_true {V} (k : string) (d : Py.dict V) :
  Py.contains k d = true ↔ k ∈ Py.keys d.
Proof.
  unfold Py.contains. rewrite bool_decide_eq_true.
  destruct (Py.get k d) as [v|] eqn:Hget.
  - split; [|by eexists]. intros _.
    destruct (decide (k ∈ Py.keys d)) as [|Hnot]; [done|].
    apply PyFacts.get_None_keys in Hnot. congruence.
  - apply PyFacts.get_None_keys in Hget. split; [by intros [? ?] | done].
Qed.

Lemma contains_false {V} (k : string) (d : Py.dict V) :
  Py.contains k d = false ↔ k ∉ Py.keys d.
Proof.
  rewrite <- contains_true. destruct (Py.contains k d); split; done.
Qed.



(** The disk after a successful [delete_user]. *)
Lemma delete_user_ok_inv w name s s' :
  NoDup (Py.keys (load_registry s)) →
  delete_user w name s = (s', DeleteOk) →
  let u := Py.lower (Py.strip name) in
  u ∈ Py.keys (load_registry s) ∧
  Py.get u (load_registry s') = None ∧
  embeddings s' !! embedding_path u = None ∧
  enrollments s' !! u = None ∧
  ∀ u', u' ≠ u →
    Py.get u' (load_registry s') = Py.get u' (load_registry s) ∧
    embeddings s' !! embedding_path u' = embeddings s !! embedding_path u' ∧
    enrollments s' !! u' = enrollments s !! u'.
Proof.
  intros Hnd Heq u.
  destruct (delete_user_cases w name s)
    as [[_ Hres]|[(Hin & _ & Hres)|(_ & _ & Hres)]];
    rewrite Hres in Heq; try discriminate.
  injection Heq as <-. fold u. unfold load_registry at 2 4.
  cbn [registry_file embeddings enrollments default].
  split; [by apply contains_true|].
  split; [by apply PyFacts.get_del_eq|].
  split; [apply lookup_delete_eq|]. split; [apply lookup_delete_eq|].
  intros u' Hne. split; [by apply get_del_ne|]. split.
  - apply lookup_delete_ne. intros Hp%embedding_path_inj. done.
  - by apply lookup_delete_ne.
Qed.

(** X8. A successful [delete_user] for a plain user name removes the
    identity from the registry (distinct keys assumed), removes its
    fingerprint file and its clips, and leaves the registry entry, the
    fingerprint file and the clips of every other identity whose name is
    one path component as they were. *)
Theorem delete_removes_one_identity w name s s' :
  NoDup (Py.keys (load_registry s)) →
  plain_username name →
  delete_user w name s = (s', DeleteOk) →
  let u := Py.lower (Py.strip name) in
  u ∈ Py.keys (load_registry s) ∧
  Py.get u (load_registry s') = None ∧
  embeddings s' !! embedding_path u = None ∧
  enrollments s' !! u = None ∧
  ∀ u', path_component u' = true → u' ≠ u →
    Py.get u' (load_registry s') = Py.get u' (load_registry s) ∧
    embeddings s' !! embedding_path u' = embeddings s !! embedding_path u' ∧
    enrollments s' !! u' = enrollments s !! u'.
Proof.
  intros Hnd _ Heq u.
  destruct (delete_user_ok_inv w name s s' Hnd Heq)
    as (Hin & Hentry & Hfile & Hfolder & Hother).
  split; [exact Hin|]. split; [exact Hentry|]. split; [exact Hfile|].
  split; [exact Hfolder|]. intros u' _ Hne. by apply Hother.
Qed.

Lemma delete_removes_one_identity_witness :
  let s := (migrate_speaker (Sample.world_at "08:00" true) Sample.old_clips
              "Bob" Sample.enrolled).1 in
  let s' := (delete_user (Sample.world_at "10:00" true) "ALICE " s).1 in
  let u := Py.lower (Py.strip "ALICE ") in
  u ∈ Py.keys (load_registry s) ∧
  Py.get u (load_registry s') = None ∧
  embeddings s' !! embedding_path u = None ∧
  enrollments s' !! u = None ∧
  ∀ u', path_component u' = true → u' ≠ u →
    Py.get u' (load_registry s') = Py.get u' (load_registry s) ∧
    embeddings s' !! embedding_path u' = embeddings s !! embedding_path u' ∧
    enrollments s' !! u' = enrollments s !! u'.
Proof.
  intros s s'.
  apply (delete_removes_one_identity (Sample.world_at "10:00" true)
           "ALICE " s s').
  - apply (bool_decide_unpack _). vm_compute. exact I.
  - split; vm_compute; reflexivity.
  - vm_compute. reflexivity.
Defined.

(** An identity without fingerprint file, or one that is not registered, is
    never the prediction, provided its name is in lower case. *)
Lemma never_predicted probe s body u :
  Py.lower u = u →
  u ∉ Py.keys (load_registry s) ∨ embeddings s !! embedding_path u = None →
  identify probe s = PredictOk body →
  prediction body ≠ Some u.
Proof.
  intros Hlow Habsent Heq Hpred.
  destruct (identify_answer_sound probe s body Heq) as [Hhit Hmiss].
  assert (note body = MatchedWith ∨ note body ≠ MatchedWith)
    as [Hnote|Hnote] by (destruct (note body); (by left) || (by right)).
  - destruct (Hhit Hnote) as (u' & fp & Hp & Hin & Hfp & _).
    assert (u' = u) as -> by congruence.
    destruct Habsent as [Hnot|Hnone]; [done | congruence].
  - destruct (Hmiss Hnote) as [Hp _].
    assert (u = "Unknown") as Hu by congruence.
    apply (lower_ne_Unknown u). congruence.
Qed.

(** X9. After a successful [delete_user] the matcher never predicts the
    deleted identity again, whatever the probe. *)
Theorem deleted_identity_is_never_predicted w name s s' probe body :
  NoDup (Py.keys (load_registry s)) →
  delete_user w name s = (s', DeleteOk) →
  identify probe s' = PredictOk body →
  prediction body ≠ Some (Py.lower (Py.strip name)).
Proof.
  intros Hnd Hdel Hid.
  destruct (delete_user_ok_inv w name s s' Hnd Hdel)
    as (_ & _ & Hfile & _).
  eapply never_predicted; [|right; exact Hfile|exact Hid].
  apply lower_idemp.
Qed.

Lemma deleted_identity_is_never_predicted_witness :
  let s' := (delete_user (Sample.world_at "10:00" true) "Bob"
               Sample.four_speakers).1 in
  prediction {| prediction := Some "alice";
                confidence := 1;
                threshold := Some SIMILARITY_THRESHOLD;
                all_similarities := Some [("carol", 0%Q); ("alice", 1%Q)];
                note := MatchedWith |}
  ≠ Some (Py.lower (Py.strip "Bob")).
Proof.
  intros s'.
  apply (deleted_identity_is_never_predicted (Sample.world_at "10:00" true)
           "Bob" Sample.four_speakers s' [1; 0]%Q).
  - apply (bool_decide_unpack _). vm_compute. exact I.
  - vm_compute. reflexivity.
  - vm_compute. reflexivity.
Defined.



(** X11. [delete_user] resets the accumulation: once it has got past the
    registry check, the next accepted clip of that identity is reported as
    the first of [REQUIRED_CLIPS], whichever slot it fills. *)
Theorem delete_resets_accumulation w name s w' req file wav :
  (delete_user w name s).2 ≠ DeleteFail 404 UserNotFound →
  valid_request req file →
  req_username req = Py.lower (Py.strip name) →
  save_uploaded_and_convert w' file = Some wav →
  (enroll_speaker w' req (delete_user w name s).1).2
    = EnrollOk ClipReceived (req_username req) 1 REQUIRED_CLIPS false.
Proof.
  intros Hpast Hv Hu Hc.
  rewrite (enroll_speaker_valid w' req file wav _ Hv Hc).
  assert (user_folder (delete_user w name s).1 (req_username req) = ∅)
    as Hempty.
  { destruct (delete_user_cases w name s)
      as [[_ Hres]|[(_ & _ & Hres)|(_ & _ & Hres)]]; rewrite Hres in *;
      [done| |]; cbn [fst]; rewrite user_folder_delete, Hu;
      by rewrite decide_True. }
  rewrite user_folder_write_clip, Hempty.
  rewrite existing_clips_new_clip by apply lookup_empty.
  done.
Qed.

Lemma delete_resets_accumulation_witness :
  (enroll_speaker (Sample.world_at "11:00" true)
     (Sample.clip "alice" "3" "alice-3")
     (delete_user (Sample.world_at "10:00" true) "Alice"
        Sample.enrolled).1).2
  = EnrollOk ClipReceived
      (req_username (Sample.clip "alice" "3" "alice-3")) 1 REQUIRED_CLIPS
      false.
Proof.
  apply (delete_resets_accumulation (Sample.world_at "10:00" true) "Alice"
           Sample.enrolled (Sample.world_at "11:00" true)
           (Sample.clip "alice" "3" "alice-3")
           {| filename := "clip.webm"; content := "alice-3" |} "alice-3").
  - vm_compute. discriminate.
  - valid_request_by_computation.
  - vm_compute. reflexivity.
  - vm_compute. reflexivity.
Defined.

(** X12. An identity whose enrollment has completed can be deleted under
    the name the server reported, and under every spelling that differs
    from it by case or surrounding white space. *)
Theorem enrolled_identity_can_be_deleted
    w req s s' msg u n m w' name :
  enroll_speaker w req s = (s', EnrollOk msg u n m true) →
  registry_writable w' = true →
  Py.lower (Py.strip name) = u →
  (delete_user w' name s').2 = DeleteOk ∧
  (delete_user w' u s').2 = DeleteOk.
Proof.
  intros Heq Hw Hname.
  assert (u ∈ Py.keys (load_registry s')) as Hin.
  { apply enroll_complete_inv in Heq
      as (file & wav & avg & _ & _ & _ & _ & _ & _ & _ & ->).
    unfold load_registry. cbn [registry_file default].
    destruct (decide (u ∈ Py.keys
      (Py.set u (new_entry w u
         (length (extracted w (filled_slots (user_folder
            (write_clip u (clip_name (req_slot req)) wav s) u)))) None)
         (load_registry s)))) as [|Hnot]; [done|].
    apply PyFacts.get_None_keys in Hnot.
    by rewrite PyFacts.get_set_eq in Hnot. }
  assert (Py.lower (Py.strip u) = u) as Hnorm.
  { rewrite <- Hname. apply normalise_idemp. }
  assert (∀ name', Py.lower (Py.strip name') = u →
                   (delete_user w' name' s').2 = DeleteOk) as Hdel.
  { intros name' Hname'.
    destruct (delete_user_cases w' name' s')
      as [[Hno _]|[(_ & _ & ->)|(_ & Hw' & _)]]; [|done|congruence].
    rewrite Hname' in Hno. apply contains_false in Hno. done. }
  split; by apply Hdel.
Qed.

Lemma enrolled_identity_can_be_deleted_witness :
  (delete_user (Sample.world_at "10:00" true) "  ALICE " Sample.enrolled).2
    = DeleteOk ∧
  (delete_user (Sample.world_at "10:00" true) "alice" Sample.enrolled).2
    = DeleteOk.
Proof.
  apply (enrolled_identity_can_be_deleted (Sample.world_at "09:04" true)
           (Sample.clip "alice" "4" "alice-4") Sample.three_clips
           Sample.enrolled EnrollmentComplete "alice" 4 4).
  - vm_compute. reflexivity.
  - reflexivity.
  - vm_compute. reflexivity.
Defined.

(** ** Invariants that tie the registry to the fingerprint store *)

Lemma elem_of_keys_set {V} (k k' : string) (v : V) (d : Py.dict V) :
  k' ∈ Py.keys (Py.set k v d) → k' = k ∨ k' ∈ Py.keys d.
Proof.
  rewrite PyFacts.keys_set. destruct (decide (k ∈ Py.keys d)); [by right|].
  rewrite elem_of_app, list_elem_of_singleton. tauto.
Qed.

Lemma elem_of_keys_del {V} (k k' : string) (d : Py.dict V) :
  NoDup (Py.keys d) → k' ∈ Py.keys (Py.del k d) → k' ≠ k ∧ k' ∈ Py.keys d.
Proof.
  intros Hnd Hin. split.
  - intros ->. apply (PyFacts.get_del_eq k d) in Hnd.
    apply PyFacts.get_None_keys in Hnd. done.
  - eapply elem_of_sublist; [exact Hin|].
    unfold Py.keys. apply fmap_sublist, PyFacts.del_sublist.
Qed.

Lemma elem_of_keys_del_weak {V} (k k' : string) (d : Py.dict V) :
  k' ∈ Py.keys (Py.del k d) → k' ∈ Py.keys d.
Proof.
  intros Hin. eapply elem_of_sublist; [exact Hin|].
  unfold Py.keys. apply fmap_sublist, PyFacts.del_sublist.
Qed.

(** What [migrate_speaker] does to the fingerprint store and the registry. *)
Lemma migrate_speaker_stores w source name s :
  let s' := (migrate_speaker w source name s).1 in
  let u := Py.lower name in
  (embeddings s' = embeddings s ∧ registry_file s' = registry_file s) ∨
  ∃ avg, embeddings s' = <[embedding_path u := avg]> (embeddings s) ∧
         (migrate_speaker w source name s).2 ≠ Returned false ∧
         (registry_file s' = registry_file s ∨
          ∃ n, registry_file s'
                 = Some (Py.set u (new_entry w u n (Some name))
                           (load_registry s))).
Proof.
  unfold migrate_speaker.
  destruct (source !! name) as [listing|] eqn:Hsrc; [|left; done].
  destruct (Nat.eqb (length (filter _ listing)) 0); [left; done|].
  pose proof (copy_and_extract_spec w (Py.lower name)
    (take CLIPS_TO_USE
       (filter (λ f, Is_true (Py.endswith ".wav" f.1)) listing))
    1 [] (makedirs (Py.lower name) s)) as (_ & Hstore & Hreg).
  destruct (copy_and_extract _ _ _ _ _ _) as [s2 embs].
  cbn [fst snd] in *.
  rewrite makedirs_embeddings in Hstore.
  rewrite makedirs_registry_file in Hreg.
  destruct (Nat.eqb (length embs) 0); [left; done|].
  destruct (Np.mean embs) as [avg|] eqn:Hm; [|left; done].
  unfold save_registry. destruct (registry_writable w).
  - right. exists avg. cbn [fst snd embeddings registry_file np_save].
    rewrite Hstore. split; [done|]. split; [done|]. right.
    exists (length embs). unfold load_registry, np_save.
    cbn [registry_file]. by rewrite Hreg.
  - right. exists avg. cbn [fst snd embeddings registry_file np_save].
    rewrite Hstore. split; [done|]. split; [done|]. by left.
Qed.

(** X13. If every registered identity has its fingerprint file, this is
    still so after [enroll_speaker] and after [migrate_speaker], whether
    they succeed or fail, and after every [delete_user] that does not end
    in the 500 error, provided the registry keys are distinct and each is
    one path component (so that no two identities share a fingerprint
    file). *)
Theorem fingerprints_present_kept w s :
  fingerprints_present s →
  (∀ req, fingerprints_present (enroll_speaker w req s).1) ∧
  (∀ source name, fingerprints_present (migrate_speaker w source name s).1) ∧
  (∀ name,
     NoDup (Py.keys (load_registry s)) →
     Forall (λ u, path_component u = true) (Py.keys (load_registry s)) →
     (delete_user w name s).2 ≠ DeleteFail 500 ServerError →
     fingerprints_present (delete_user w name s).1).
Proof.
  intros Hs. split; [|split].
  - intros req u Hu.
    destruct (enroll_speaker_footprint w req s) as (_ & _ & Hstore & Hreg).
    unfold load_registry in Hu.
    destruct Hreg as [Hreg|(n & avg & _ & Hstore' & Hreg)];
      rewrite Hreg in Hu.
    + destruct Hstore as [->|[avg ->]]; [by apply Hs|].
      apply lookup_insert_is_Some'. right. by apply Hs.
    + cbn [default] in Hu. rewrite Hstore'.
      apply lookup_insert_is_Some'.
      apply elem_of_keys_set in Hu as [->|Hu]; [by left|].
      right. by apply Hs.
  - intros source name u Hu.
    destruct (migrate_speaker_stores w source name s)
      as [[Hstore Hreg]|(avg & Hstore & _ & Hreg)];
      unfold load_registry in Hu; rewrite Hstore.
    + rewrite Hreg in Hu. by apply Hs.
    + apply lookup_insert_is_Some'.
      destruct Hreg as [Hreg|[n Hreg]]; rewrite Hreg in Hu.
      * right. by apply Hs.
      * cbn [default] in Hu.
        apply elem_of_keys_set in Hu as [->|Hu]; [by left|].
        right. by apply Hs.
  - intros name Hnd _ Hok u Hu.
    destruct (delete_user_cases w name s)
      as [[_ Hres]|[(_ & _ & Hres)|(_ & _ & Hres)]]; rewrite Hres in *;
      cbn [fst snd] in *; [by apply Hs| |done].
    unfold load_registry in Hu. cbn [registry_file default] in Hu.
    apply elem_of_keys_del in Hu as [Hne Hu]; [|done].
    cbn [embeddings]. rewrite lookup_delete_ne; [by apply Hs|].
    intros Hp%embedding_path_inj. done.
Qed.

Lemma fingerprints_present_kept_witness :
  let w := Sample.world_at "12:00" true in
  let s := (migrate_speaker (Sample.world_at "08:00" true) Sample.old_clips
              "Bob" Sample.enrolled).1 in
  (∀ req, fingerprints_present (enroll_speaker w req s).1) ∧
  (∀ source name, fingerprints_present (migrate_speaker w source name s).1) ∧
  fingerprints_present (delete_user w "alice" s).1.
Proof.
  intros w s.
  assert (Py.keys (load_registry s) = ["alice"; "bob"]) as Hkeys
    by (vm_compute; reflexivity).
  destruct (fingerprints_present_kept w s)
    as (Henroll & Hmigrate & Hdelete).
  - intros u Hu. rewrite Hkeys in Hu.
    rewrite !elem_of_cons, elem_of_nil in Hu.
    destruct Hu as [->|[->|[]]]; vm_compute; by eexists.
  - split; [exact Henroll|]. split; [exact Hmigrate|]. apply Hdelete.
    + apply (bool_decide_unpack _). vm_compute. exact I.
    + rewrite Hkeys. repeat constructor.
    + vm_compute. discriminate.
Defined.

Lemma keys_scores_all_present store probe users :
  (∀ u, u ∈ users → ∃ fp : embedding,
          store !! embedding_path u = Some fp ∧ length fp = length probe) →
  Py.keys (scores store probe users) = users.
Proof.
  induction users as [|u users IH]; intros Hall; [done|].
  destruct (Hall u) as (fp & Hfp & Hlen); [left|].
  destruct (np_dot_defined probe fp Hlen) as [x Hx].
  rewrite (scores_cons_present _ _ _ _ fp x) by done.
  unfold Py.keys in *. rewrite fmap_cons. cbn [fst]. f_equal.
  apply IH. intros u' Hu'. apply Hall. by right.
Qed.

(** The score recorded for an identity is the dot product of the probe and
    its fingerprint. *)
Lemma get_scores store probe users u (fp : embedding) x :
  u ∈ users → store !! embedding_path u = Some fp →
  Np.dot probe fp = Some x →
  Py.get u (scores store probe users) = Some x.
Proof.
  intros Hin Hfp Hx. induction users as [|u0 users IH].
  - by apply elem_of_nil in Hin.
  - destruct (decide (u0 = u)) as [->|Hne].
    + rewrite (scores_cons_present _ _ _ _ fp x) by done.
      cbn [Py.get]. by rewrite decide_True.
    + apply elem_of_cons in Hin as [?|Hin]; [congruence|].
      destruct (store !! embedding_path u0) as [fp0|] eqn:Hfp0.
      * destruct (Np.dot probe fp0) as [x0|] eqn:Hx0.
        -- rewrite (scores_cons_present _ _ _ _ fp0 x0) by done.
           cbn [Py.get]. rewrite decide_False by done. by apply IH.
        -- unfold scores. cbn. rewrite Hfp0. cbn. rewrite Hx0. cbn.
           by apply IH.
      * rewrite scores_cons_missing by done. by apply IH.
Qed.

(** X14. When every registered identity has a fingerprint file of the
    probe's dimension (and keys are distinct), the matcher answers on a
    non-empty registry with a score map that has exactly one score for
    every registered identity and no other, as many scores as the health
    check counts identities; each score is the dot product of the probe and
    the fingerprint of the identity. *)
Theorem every_identity_is_scored probe s :
  load_registry s ≠ [] →
  NoDup (Py.keys (load_registry s)) →
  (∀ u, u ∈ Py.keys (load_registry s) →
        ∃ fp : embedding, embeddings s !! embedding_path u = Some fp ∧
                          length fp = length probe) →
  ∃ body sims,
    identify probe s = PredictOk body ∧
    all_similarities body = Some sims ∧
    NoDup (Py.keys sims) ∧
    (∀ u, u ∈ Py.keys sims ↔ u ∈ Py.keys (load_registry s)) ∧
    (∀ u (fp : embedding),
       u ∈ Py.keys (load_registry s) →
       embeddings s !! embedding_path u = Some fp →
       ∃ x, Py.get u sims = Some x ∧ Np.dot probe fp = Some x) ∧
    length sims = home s.
Proof.
  intros Hne Hnd Hall. rewrite identify_nonempty by done.
  assert (∀ u (fp : embedding), u ∈ Py.keys (load_registry s) →
            embeddings s !! embedding_path u = Some fp →
            length fp = length probe) as Hdim.
  { intros u fp Hu Hfp. destruct (Hall u Hu) as (fp' & Hfp' & Hlen).
    assert (Some fp = Some fp') as [= ->]
      by (etrans; [symmetry; exact Hfp | exact Hfp']).
    exact Hlen. }
  rewrite (compare_with_enrolled_spec (embeddings s) probe
             (Py.keys (load_registry s)) initial_match Hdim Hnd)
    by (intros u _; cbn; apply not_elem_of_nil).
  eexists _, _. split; [reflexivity|]. cbn [all_similarities similarities
    initial_match app]. split; [reflexivity|].
  assert (Py.keys (scores (embeddings s) probe (Py.keys (load_registry s)))
          = Py.keys (load_registry s)) as Hkeys
    by (by apply keys_scores_all_present).
  split; [by rewrite Hkeys|]. split; [intros u; by rewrite Hkeys|]. split.
  - intros u fp Hu Hfp.
    destruct (np_dot_defined probe fp (Hdim u fp Hu Hfp)) as [x Hx].
    exists x. split; [by eapply get_scores | done].
  - apply (f_equal length) in Hkeys. unfold Py.keys in Hkeys.
    rewrite !length_fmap in Hkeys. exact Hkeys.
Qed.

Lemma every_identity_is_scored_witness :
  let s := (delete_user (Sample.world_at "10:00" true) "dave"
              Sample.four_speakers).1 in
  let probe := [0; 1]%Q in
  ∃ body sims,
    identify probe s = PredictOk body ∧
    all_similarities body = Some sims ∧
    NoDup (Py.keys sims) ∧
    (∀ u, u ∈ Py.keys sims ↔ u ∈ Py.keys (load_registry s)) ∧
    (∀ u (fp : embedding),
       u ∈ Py.keys (load_registry s) →
       embeddings s !! embedding_path u = Some fp →
       ∃ x, Py.get u sims = Some x ∧ Np.dot probe fp = Some x) ∧
    length sims = home s.
Proof.
  intros s probe.
  assert (Py.keys (load_registry s) = ["carol"; "bob"; "alice"]) as Hkeys
    by (vm_compute; reflexivity).
  apply every_identity_is_scored.
  - vm_compute. discriminate.
  - apply (bool_decide_unpack _). vm_compute. exact I.
  - intros u Hu. rewrite Hkeys in Hu.
    rewrite !elem_of_cons, elem_of_nil in Hu.
    destruct Hu as [->|[->|[->|[]]]];
      (eexists; split; [vm_compute; reflexivity | reflexivity]).
Defined.

Lemma lowercase_keys_set u (e : registry_entry) registry :
  Py.lower u = u → lowercase_keys registry →
  lowercase_keys (Py.set u e registry).
Proof.
  intros Hu Hreg u' [->|Hin]%elem_of_keys_set; [done | by apply Hreg].
Qed.

(** X15. If all identity keys of the registry are in lower case they stay
    so under [enroll_speaker], [migrate_speaker] and [delete_user]; then no
    identity is called ["Unknown"], and a prediction ["Unknown"] always
    means that no identity was matched. *)
Theorem unknown_is_never_an_identity w s :
  lowercase_keys (load_registry s) →
  (∀ req, lowercase_keys (load_registry (enroll_speaker w req s).1)) ∧
  (∀ source name,
     lowercase_keys (load_registry (migrate_speaker w source name s).1)) ∧
  (∀ name, lowercase_keys (load_registry (delete_user w name s).1)) ∧
  ("Unknown" ∉ Py.keys (load_registry s)) ∧
  (∀ probe body,
     identify probe s = PredictOk body →
     (prediction body = Some "Unknown" ↔ note body ≠ MatchedWith)).
Proof.
  intros Hs.
  assert ("Unknown" ∉ Py.keys (load_registry s)) as Hunknown.
  { intros Hin. apply Hs in Hin. by apply (lower_ne_Unknown "Unknown"). }
  split; [|split; [|split; [|split; [exact Hunknown|]]]].
  - intros req.
    destruct (enroll_speaker_footprint w req s) as (_ & _ & _ & Hreg).
    unfold load_registry at 1.
    destruct Hreg as [->|(n & avg & _ & _ & ->)]; [done|]. cbn [default].
    apply lowercase_keys_set; [apply lower_idemp | done].
  - intros source name.
    destruct (migrate_speaker_stores w source name s)
      as [[_ Hreg]|(avg & _ & _ & [Hreg|[n Hreg]])];
      unfold load_registry at 1; rewrite Hreg; [done..|]. cbn [default].
    apply lowercase_keys_set; [apply lower_idemp | done].
  - intros name.
    destruct (delete_user_cases w name s)
      as [[_ ->]|[(_ & _ & ->)|(_ & _ & ->)]]; cbn [fst]; [done| |done].
    unfold load_registry at 1. cbn [registry_file default].
    intros u Hu%elem_of_keys_del_weak. by apply Hs.
  - intros probe body Hid.
    destruct (identify_answer_sound probe s body Hid) as [Hhit Hmiss].
    split.
    + intros Hp Hnote. destruct (Hhit Hnote) as (u & fp & Hp' & Hin & _).
      assert (u = "Unknown") as -> by congruence. done.
    + intros Hnote. by apply Hmiss.
Qed.

Lemma unknown_is_never_an_identity_witness :
  let w := Sample.world_at "12:00" true in
  let s := Sample.enrolled in
  (∀ req, lowercase_keys (load_registry (enroll_speaker w req s).1)) ∧
  (∀ source name,
     lowercase_keys (load_registry (migrate_speaker w source name s).1)) ∧
  (∀ name, lowercase_keys (load_registry (delete_user w name s).1)) ∧
  ("Unknown" ∉ Py.keys (load_registry s)) ∧
  (∀ probe body,
     identify probe s = PredictOk body →
     (prediction body = Some "Unknown" ↔ note body ≠ MatchedWith)).
Proof.
  intros w s. apply (unknown_is_never_an_identity w s).
  intros u Hu. change (u ∈ ["alice"]) in Hu.
  apply list_elem_of_singleton in Hu as ->. reflexivity.
Defined.

(** ** Listing the enrolled users *)

Lemma filter_key_absent {V} (u : string) (d : list (string * V)) :
  u ∉ d.*1 → filter (λ ke, ke.1 = u) d = [].
Proof.
  induction d as [|[k v] d IH]; [done|]. rewrite fmap_cons.
  intros [Hne Hd]%not_elem_of_cons. cbn [fst] in Hne.
  rewrite filter_cons_False by (cbn [fst]; congruence). by apply IH.
Qed.

Lemma filter_key_unique {V} (u : string) (e : V) (d : list (string * V)) :
  NoDup d.*1 → Py.get u d = Some e →
  filter (λ ke, ke.1 = u) d = [(u, e)].
Proof.
  induction d as [|[k v] d IH]; [done|]. rewrite fmap_cons. cbn [Py.get fst].
  intros [Hk Hnd]%NoDup_cons Hget.
  destruct (decide (k = u)) as [->|Hne].
  - injection Hget as ->. rewrite filter_cons_True by done. f_equal.
    by apply filter_key_absent.
  - rewrite filter_cons_False by done. by apply IH.
Qed.

Lemma filter_fmap_key {A B} (f : A → B) (P : B → Prop)
    `{∀ y, Decision (P y)} (l : list A) :
  filter P (f <$> l) = f <$> filter (λ x, P (f x)) l.
Proof.
  induction l as [|x l IH]; [done|]. rewrite fmap_cons.
  destruct (decide (P (f x))) as [Hx|Hx].
  - rewrite !filter_cons_True by done. by rewrite fmap_cons, IH.
  - rewrite !filter_cons_False by done. exact IH.
Qed.

Lemma get_enrolled_users_names s :
  info_username <$> (get_enrolled_users s).2 = Py.keys (load_registry s).
Proof.
  unfold get_enrolled_users, Py.keys. cbn [snd].
  rewrite <- list_fmap_compose. by apply list_fmap_ext.
Qed.

(** X16. [get_enrolled_users] lists the registered identities in registry
    order, and its count is the number [home] reports.  After a completed
    enrollment (distinct keys before it) the identity is listed exactly
    once, with the time of the commit and the number of clips whose
    extraction succeeded; the count has grown by one if the identity is
    new and is unchanged if it was registered already. *)
Theorem completed_enrollment_is_listed w req s s' msg u n m :
  NoDup (Py.keys (load_registry s)) →
  enroll_speaker w req s = (s', EnrollOk msg u n m true) →
  (get_enrolled_users s').1 = length (get_enrolled_users s').2 ∧
  (get_enrolled_users s').1 = home s' ∧
  info_username <$> (get_enrolled_users s').2 = Py.keys (load_registry s') ∧
  filter (λ i, info_username i = u) (get_enrolled_users s').2
    = [{| info_username := u;
          info_enrolled_date := now_isoformat w;
          info_clips_count :=
            succeeded_count w (filled_slots (user_folder s' u)) |}] ∧
  home s' = if decide (u ∈ Py.keys (load_registry s))
            then home s else S (home s).
Proof.
  intros Hnd Heq.
  split; [done|]. split; [unfold get_enrolled_users, home; cbn;
                          by rewrite length_fmap|].
  split; [apply get_enrolled_users_names|].
  apply enroll_complete_inv in Heq
    as (file & wav & avg & _ & _ & _ & _ & _ & _ & _ & Hs').
  set (e := new_entry w u
              (length (extracted w (filled_slots (user_folder s' u)))) None).
  assert (load_registry s' = Py.set u e (load_registry s)) as Hreg
    by (subst e; rewrite Hs'; reflexivity).
  split.
  - unfold get_enrolled_users. cbn [snd].
    rewrite Hreg, filter_fmap_key. cbn [info_username].
    rewrite (filter_key_unique u e).
    + subst e. rewrite <- length_extracted_succeeded. reflexivity.
    + by apply PyFacts.NoDup_keys_set.
    + apply PyFacts.get_set_eq.
  - unfold home. rewrite Hreg.
    assert (∀ d : Py.dict registry_entry, length d = length (Py.keys d))
      as Hlen by (intros d; unfold Py.keys; by rewrite length_fmap).
    rewrite !Hlen, PyFacts.keys_set.
    destruct (decide (u ∈ Py.keys (load_registry s))); [done|].
    rewrite length_app. cbn. lia.
Qed.

Lemma completed_enrollment_is_listed_witness :
  let w := Sample.world_at "09:04" true in
  let s' := Sample.enrolled in
  (get_enrolled_users s').1 = length (get_enrolled_users s').2 ∧
  (get_enrolled_users s').1 = home s' ∧
  info_username <$> (get_enrolled_users s').2 = Py.keys (load_registry s') ∧
  filter (λ i, info_username i = "alice") (get_enrolled_users s').2
    = [{| info_username := "alice";
          info_enrolled_date := now_isoformat w;
          info_clips_count :=
            succeeded_count w (filled_slots (user_folder s' "alice")) |}] ∧
  home s' = if decide ("alice" ∈ Py.keys (load_registry Sample.three_clips))
            then home Sample.three_clips else S (home Sample.three_clips).
Proof.
  intros w s'.
  apply (completed_enrollment_is_listed w
           (Sample.clip "alice" "4" "alice-4") Sample.three_clips
           s' EnrollmentComplete "alice" 4 4).
  - vm_compute. apply NoDup_nil_2.
  - vm_compute. reflexivity.
Defined.

(** X17. After a successful [delete_user] (distinct keys before it) the
    identity is no longer listed and the count has dropped by one. *)
Theorem deleted_identity_is_not_listed w name s s' :
  NoDup (Py.keys (load_registry s)) →
  delete_user w name s = (s', DeleteOk) →
  (Py.lower (Py.strip name) ∉ info_username <$> (get_enrolled_users s').2) ∧
  S (get_enrolled_users s').1 = (get_enrolled_users s).1.
Proof.
  intros Hnd Heq.
  destruct (delete_user_ok_inv w name s s' Hnd Heq)
    as (Hin & Hgone & _).
  split.
  - rewrite get_enrolled_users_names. by apply PyFacts.get_None_keys.
  - unfold get_enrolled_users. cbn [fst]. rewrite !length_fmap.
    destruct (delete_user_cases w name s)
      as [[_ Hres]|[(_ & _ & Hres)|(_ & _ & Hres)]];
      rewrite Hres in Heq; try discriminate.
    injection Heq as <-. unfold load_registry at 1.
    cbn [registry_file default].
    clear Hgone Hres. revert Hin.
    generalize (Py.lower (Py.strip name)). intros u.
    induction (load_registry s) as [|[k v] d IH]; intros Hin.
    + by apply elem_of_nil in Hin.
    + cbn [Py.del]. destruct (decide (k = u)) as [->|Hne]; [done|].
      cbn [length]. f_equal. apply IH.
      * by apply NoDup_cons in Hnd as [_ ?].
      * unfold Py.keys in Hin. rewrite fmap_cons in Hin.
        apply elem_of_cons in Hin as [?|?]; [cbn in *; congruence | done].
Qed.

Lemma deleted_identity_is_not_listed_witness :
  let s' := (delete_user (Sample.world_at "10:00" true) "Bob"
               Sample.four_speakers).1 in
  (Py.lower (Py.strip "Bob") ∉ info_username <$> (get_enrolled_users s').2) ∧
  S (get_enrolled_users s').1 = (get_enrolled_users Sample.four_speakers).1.
Proof.
  intros s'.
  apply (deleted_identity_is_not_listed (Sample.world_at "10:00" true)
           "Bob" Sample.four_speakers s').
  - apply (bool_decide_unpack _). vm_compute. exact I.
  - vm_compute. reflexivity.
Defined.

(** ** Upload names *)

Lemma has_dot_app s1 s2 :
  Py.has_dot (s1 +:+ s2) = Py.has_dot s1 || Py.has_dot s2.
Proof.
  induction s1 as [|a s1 IH]; [done|]. rewrite string_app_cons. cbn.
  by destruct (Ascii.eqb a ".").
Qed.

Lemma has_dot_rev s : Py.has_dot (String.rev s) = Py.has_dot s.
Proof.
  induction s as [|a s IH]; [done|]. rewrite rev_cons, has_dot_app, IH. cbn.
  destruct (Ascii.eqb a "."), (Py.has_dot s); done.
Qed.

Lemma before_dot_app s t :
  Py.has_dot s = false → Py.before_dot (s +:+ String "." t) = s.
Proof.
  induction s as [|a s IH]; [done|]. rewrite string_app_cons. cbn.
  destruct (Ascii.eqb a "."); [done|]. intros Hs. by rewrite IH.
Qed.

Lemma before_dot_no_dot s : Py.has_dot s = false → Py.before_dot s = s.
Proof.
  induction s as [|a s IH]; [done|]. cbn.
  destruct (Ascii.eqb a "."); [done|]. intros Hs. by rewrite IH.
Qed.

(** What follows the last dot of [base.ext], when [ext] has no dot. *)
Lemma rsplit_dot_1_app base ext :
  Py.has_dot ext = false →
  Py.rsplit_dot_1 (base +:+ "." +:+ ext) = ext.
Proof.
  intros Hext. unfold Py.rsplit_dot_1.
  rewrite !rev_app. change (String.rev ".") with ".".
  rewrite string_app_assoc.
  change ("." +:+ String.rev base) with (String "." (String.rev base)).
  rewrite before_dot_app by (by rewrite has_dot_rev).
  apply rev_involutive.
Qed.

Lemma eqb_dot_lower_ascii a :
  Ascii.eqb (Py.lower_ascii a) "." = Ascii.eqb a ".".
Proof. by destruct a as [[] [] [] [] [] [] [] []]. Qed.

Lemma has_dot_lower s : Py.has_dot (Py.lower s) = Py.has_dot s.
Proof.
  induction s as [|a s IH]; [done|]. cbn. by rewrite eqb_dot_lower_ascii, IH.
Qed.

Lemma before_dot_lower s :
  Py.before_dot (Py.lower s) = Py.lower (Py.before_dot s).
Proof.
  induction s as [|a s IH]; [done|]. cbn. rewrite eqb_dot_lower_ascii.
  destruct (Ascii.eqb a "."); [done|]. cbn. by rewrite IH.
Qed.

Lemma rsplit_dot_1_lower s :
  Py.rsplit_dot_1 (Py.lower s) = Py.lower (Py.rsplit_dot_1 s).
Proof.
  unfold Py.rsplit_dot_1.
  by rewrite <- lower_rev, before_dot_lower, lower_rev.
Qed.

(** X18. [allowed_file] rejects a name without a dot; for a name
    [base.ext] it decides on [ext] alone, which must be one of wav, mp3,
    ogg, webm, m4a in any mix of cases; and it does not depend on the case
    of the name. *)
Theorem allowed_file_looks_at_last_extension :
  (∀ name, Py.has_dot name = false → allowed_file name = false) ∧
  (∀ base ext,
     Py.has_dot ext = false →
     allowed_file (base +:+ "." +:+ ext)
       = bool_decide (Py.lower ext ∈ ALLOWED_EXTENSIONS)) ∧
  (∀ name, allowed_file (Py.lower name) = allowed_file name).
Proof.
  split; [|split].
  - intros name Hname. unfold allowed_file. by rewrite Hname.
  - intros base ext Hext. unfold allowed_file.
    rewrite rsplit_dot_1_app by done.
    rewrite !has_dot_app. cbn. by rewrite orb_true_r.
  - intros name. unfold allowed_file.
    by rewrite has_dot_lower, rsplit_dot_1_lower, lower_idemp.
Qed.

Lemma allowed_file_looks_at_last_extension_witness :
  allowed_file "recording" = false ∧
  allowed_file ("take.1" +:+ "." +:+ "WebM")
    = bool_decide (Py.lower "WebM" ∈ ALLOWED_EXTENSIONS) ∧
  allowed_file ("voice.wav" +:+ "." +:+ "exe")
    = bool_decide (Py.lower "exe" ∈ ALLOWED_EXTENSIONS) ∧
  allowed_file (Py.lower "Clip.MP3") = allowed_file "Clip.MP3".
Proof.
  destruct allowed_file_looks_at_last_extension as (Hnodot & Hext & Hcase).
  split; [by apply Hnodot|]. split; [by apply Hext|].
  split; [by apply Hext | apply Hcase].
Defined.

(** X19. [save_uploaded_and_convert] looks only at what follows the last
    dot of the sanitised upload name: if that is [wav] in any mix of cases
    the upload is stored byte for byte and the transcoder is not run (so it
    cannot fail); with any other extension the result is the transcoder's,
    run with the lower-cased extension as suffix; a name without a dot goes
    to the transcoder with an empty suffix. *)
Theorem wav_uploads_bypass_the_transcoder w file :
  let name :=
    secure_filename w
      (if decide (filename file = "") then "upload" else filename file) in
  (∀ base ext,
     name = base +:+ "." +:+ ext → Py.has_dot ext = false →
     (Py.lower ext = "wav" →
      save_uploaded_and_convert w file = Some (content file)) ∧
     (Py.lower ext ≠ "wav" →
      save_uploaded_and_convert w file
        = ffmpeg w ("." +:+ Py.lower ext) (content file))) ∧
  (Py.has_dot name = false →
   save_uploaded_and_convert w file = ffmpeg w "" (content file)).
Proof.
  intros name. split.
  - intros base ext Hname Hext. unfold save_uploaded_and_convert.
    fold name. rewrite Hname, rsplit_dot_1_app by done.
    rewrite !has_dot_app. cbn [Py.has_dot Ascii.eqb Bool.eqb orb].
    rewrite orb_true_r. split.
    + intros ->. by rewrite decide_True.
    + intros Hne. rewrite decide_False; [done|].
      intros Heq. apply Hne.
      change ".wav" with ("." +:+ "wav") in Heq.
      by apply String.app_inj in Heq.
  - intros Hname. unfold save_uploaded_and_convert. fold name.
    rewrite Hname. by rewrite decide_False.
Qed.

Lemma wav_uploads_bypass_the_transcoder_witness :
  let w := Sample.world_at "09:00" true in
  save_uploaded_and_convert w {| filename := "garbage.old.WAV";
                                 content := "garbage" |} = Some "garbage" ∧
  save_uploaded_and_convert w {| filename := "voice.wav.OGG";
                                 content := "garbage" |}
    = ffmpeg w ("." +:+ Py.lower "OGG") "garbage" ∧
  save_uploaded_and_convert w {| filename := "recording";
                                 content := "garbage" |}
    = ffmpeg w "" "garbage".
Proof.
  intros w. split; [|split].
  - apply (proj1 (wav_uploads_bypass_the_transcoder w
             {| filename := "garbage.old.WAV"; content := "garbage" |})
             "garbage.old" "WAV"); reflexivity.
  - apply (proj1 (wav_uploads_bypass_the_transcoder w
             {| filename := "voice.wav.OGG"; content := "garbage" |})
             "voice.wav" "OGG"); [reflexivity..|]. vm_compute. discriminate.
  - apply (proj2 (wav_uploads_bypass_the_transcoder w
             {| filename := "recording"; content := "garbage" |})).
    reflexivity.
Defined.

(** ** Migration *)

Lemma migration_clips_nil listing :
  migration_clips listing = [] ↔
  filter (λ f, Is_true (Py.endswith ".wav" f.1)) listing = [].
Proof.
  unfold migration_clips, CLIPS_TO_USE.
  destruct (filter _ listing) as [|f fs]; done.
Qed.

(** X20. [migrate_speaker] returns [False] without touching the disk when
    the speaker folder is missing or holds no [.wav] file; and whenever it
    returns [False] (also after copying clips none of which the encoder
    accepts) it has written no fingerprint and no registry entry. *)
Theorem failed_migration_writes_no_fingerprint w source name s :
  (source !! name = None →
   migrate_speaker w source name s = (s, Returned false)) ∧
  (∀ listing,
     source !! name = Some listing → migration_clips listing = [] →
     migrate_speaker w source name s = (s, Returned false)) ∧
  ((migrate_speaker w source name s).2 = Returned false →
   embeddings (migrate_speaker w source name s).1 = embeddings s ∧
   registry_file (migrate_speaker w source name s).1 = registry_file s).
Proof.
  split; [|split].
  - intros Hsrc. unfold migrate_speaker. by rewrite Hsrc.
  - intros listing Hsrc Hnil%migration_clips_nil.
    unfold migrate_speaker. by rewrite Hsrc, Hnil.
  - intros Hres.
    destruct (migrate_speaker_stores w source name s)
      as [?|(avg & _ & Hne & _)]; done.
Qed.

Lemma failed_migration_writes_no_fingerprint_witness :
  let w := Sample.world_at "08:00" true in
  let source : gmap string (list (string * audio)) :=
    {[ "Eve" := [("readme.txt", "alice-1")];
       "Mallory" := [("a.wav", "noise"); ("b.wav", "hiss")] ]} in
  migrate_speaker w source "Trent" Sample.enrolled
    = (Sample.enrolled, Returned false) ∧
  migrate_speaker w source "Eve" Sample.enrolled
    = (Sample.enrolled, Returned false) ∧
  embeddings (migrate_speaker w source "Mallory" Sample.enrolled).1
    = embeddings Sample.enrolled ∧
  registry_file (migrate_speaker w source "Mallory" Sample.enrolled).1
    = registry_file Sample.enrolled.
Proof.
  intros w source. split; [|split].
  - apply (proj1 (failed_migration_writes_no_fingerprint w source "Trent"
                    Sample.enrolled)).
    vm_compute. reflexivity.
  - apply (proj1 (proj2 (failed_migration_writes_no_fingerprint w source
                           "Eve" Sample.enrolled))
             [("readme.txt", "alice-1")]).
    + vm_compute. reflexivity.
    + vm_compute. reflexivity.
  - apply (proj2 (proj2 (failed_migration_writes_no_fingerprint w source
                           "Mallory" Sample.enrolled))).
    vm_compute. reflexivity.
Defined.

Lemma copy_and_extract_slots w u clips : ∀ i embs s j,
  user_folder (copy_and_extract w u i clips embs s).1 u !! clip_name j
  = if decide (i ≤ j < i + length clips)
    then clips.*2 !! (j - i)
    else user_folder s u !! clip_name j.
Proof.
  induction clips as [|[name wav] clips IH]; intros i embs s j.
  - cbn. rewrite decide_False by lia. done.
  - cbn [copy_and_extract]. rewrite IH. cbn [length]. rewrite fmap_cons.
    destruct (decide (S i ≤ j < S i + length clips)) as [Hin|Hout].
    + rewrite decide_True by lia.
      replace (j - i) with (S (j - S i)) by lia. done.
    + destruct (decide (j = i)) as [->|Hne].
      * rewrite decide_True by lia. rewrite user_folder_write_clip.
        rewrite lookup_insert_eq. by rewrite Nat.sub_diag.
      * rewrite decide_False by lia. rewrite user_folder_write_clip.
        apply lookup_insert_ne. intros Heq%clip_name_inj. lia.
Qed.

(** X21. When the speaker folder holds [.wav] files, [migrate_speaker]
    copies the first [CLIPS_TO_USE] of them, in listing order, into the
    slots 1, 2, ... of the lower-cased identity, whatever its result;
    every other slot of that identity keeps what it held, so a clip left in
    a higher slot by an earlier enrollment survives the migration. *)
Theorem migration_fills_leading_slots w source name listing s j :
  source !! name = Some listing →
  migration_clips listing ≠ [] →
  user_folder (migrate_speaker w source name s).1 (Py.lower name)
    !! clip_name j
  = if decide (1 ≤ j ≤ length (migration_clips listing))
    then migration_clips listing !! (j - 1)
    else user_folder s (Py.lower name) !! clip_name j.
Proof.
  intros Hsrc Hne. unfold migrate_speaker. rewrite Hsrc.
  assert (filter (λ f, Is_true (Py.endswith ".wav" f.1)) listing ≠ [])
    as Hfilter by (by rewrite <- migration_clips_nil).
  destruct (Nat.eqb (length (filter _ listing)) 0) eqn:Hlen.
  { apply Nat.eqb_eq, length_zero_iff_nil in Hlen. done. }
  pose proof (copy_and_extract_slots w (Py.lower name)
    (take CLIPS_TO_USE
       (filter (λ f, Is_true (Py.endswith ".wav" f.1)) listing))
    1 [] (makedirs (Py.lower name) s) j) as Hslots.
  destruct (copy_and_extract _ _ _ _ _ _) as [s2 embs]. cbn [fst] in Hslots.
  rewrite user_folder_makedirs in Hslots.
  assert (user_folder s2 (Py.lower name) !! clip_name j
          = if decide (1 ≤ j ≤ length (migration_clips listing))
            then migration_clips listing !! (j - 1)
            else user_folder s (Py.lower name) !! clip_name j) as Hgoal.
  { rewrite Hslots. unfold migration_clips. rewrite length_fmap.
    destruct (decide (1 ≤ j < 1 + _)), (decide (1 ≤ j ≤ _)); try done; lia. }
  destruct (Nat.eqb (length embs) 0); [exact Hgoal|].
  destruct (Np.mean embs); [|exact Hgoal].
  unfold save_registry. destruct (registry_writable w); exact Hgoal.
Qed.

Lemma migration_fills_leading_slots_witness :
  let w := Sample.world_at "08:00" true in
  let source : gmap string (list (string * audio)) :=
    {[ "Alice" := [("x.wav", "alice-2"); ("y.wav", "alice-5")] ]} in
  let s' := (migrate_speaker w source "Alice" Sample.enrolled).1 in
  user_folder s' (Py.lower "Alice") !! clip_name 2
    = (if decide (1 ≤ 2 ≤ length (migration_clips
                                   [("x.wav", "alice-2"); ("y.wav", "alice-5")]))
       then migration_clips [("x.wav", "alice-2"); ("y.wav", "alice-5")]
              !! (2 - 1)
       else user_folder Sample.enrolled (Py.lower "Alice") !! clip_name 2) ∧
  user_folder s' (Py.lower "Alice") !! clip_name 4
    = (if decide (1 ≤ 4 ≤ length (migration_clips
                                   [("x.wav", "alice-2"); ("y.wav", "alice-5")]))
       then migration_clips [("x.wav", "alice-2"); ("y.wav", "alice-5")]
              !! (4 - 1)
       else user_folder Sample.enrolled (Py.lower "Alice") !! clip_name 4).
Proof.
  intros w source s'. split.
  - apply (migration_fills_leading_slots w source "Alice"
             [("x.wav", "alice-2"); ("y.wav", "alice-5")] Sample.enrolled 2).
    + vm_compute. reflexivity.
    + vm_compute. discriminate.
  - apply (migration_fills_leading_slots w source "Alice"
             [("x.wav", "alice-2"); ("y.wav", "alice-5")] Sample.enrolled 4).
    + vm_compute. reflexivity.
    + vm_compute. discriminate.
Defined.

(** The stale fourth clip of the example above. *)
Example migration_keeps_higher_slot :
  let source : gmap string (list (string * audio)) :=
    {[ "Alice" := [("x.wav", "alice-2"); ("y.wav", "alice-5")] ]} in
  let s' := (migrate_speaker (Sample.world_at "08:00" true) source "Alice"
               Sample.enrolled).1 in
  user_folder s' "alice" !! clip_name 2 = Some "alice-5" ∧
  user_folder s' "alice" !! clip_name 4 = Some "alice-4".
Proof. vm_compute. split; reflexivity. Qed.

(** ** The migration script *)

Lemma migrate_speaker_keys w source name s :
  let s' := (migrate_speaker w source name s).1 in
  (∀ u, u ∈ Py.keys (load_registry s) → u ∈ Py.keys (load_registry s')) ∧
  ((migrate_speaker w source name s).2 = Returned true →
   Py.lower name ∈ Py.keys (load_registry s')).
Proof.
  intros s'. subst s'.
  assert (∀ (u : string) e (d : Py.dict registry_entry),
            u ∈ Py.keys (Py.set u e d)) as Hset.
  { intros u e d. destruct (decide (u ∈ Py.keys (Py.set u e d)))
      as [|Hnot]; [done|].
    apply PyFacts.get_None_keys in Hnot.
    by rewrite PyFacts.get_set_eq in Hnot. }
  assert (∀ (u u' : string) e (d : Py.dict registry_entry),
            u' ∈ Py.keys d → u' ∈ Py.keys (Py.set u e d)) as Hmono.
  { intros u u' e d Hin. rewrite PyFacts.keys_set.
    destruct (decide (u ∈ Py.keys d)); [done|].
    apply elem_of_app. by left. }
  destruct (migrate_speaker_writes w source name s)
    as [[Hr Hreg]|(listing & avg & _ & Hr & _ & _ & _ & Hreg)];
    unfold load_registry at 2 3; rewrite Hreg.
  - split; [done|]. intros Htrue. done.
  - cbn [default]. split; [intros u Hu; by apply Hmono | intros _; apply Hset].
Qed.

Lemma migrate_each_spec world_of source speakers : ∀ succ0 fail0 s s' succ fail,
  migrate_each world_of source speakers succ0 fail0 s
    = (s', Some (succ, fail)) →
  ∃ succ' fail',
    succ = succ0 ++ succ' ∧ fail = fail0 ++ fail' ∧
    succ' ++ fail' ≡ₚ speakers ∧
    succ' `sublist_of` speakers ∧ fail' `sublist_of` speakers ∧
    (∀ u, u ∈ Py.keys (load_registry s) → u ∈ Py.keys (load_registry s')) ∧
    (∀ sp, sp ∈ succ' → Py.lower sp ∈ Py.keys (load_registry s')).
Proof.
  induction speakers as [|sp speakers IH]; intros succ0 fail0 s s' succ fail.
  - cbn. intros [= <- <- <-]. exists [], [].
    rewrite !app_nil_r. split_and!; try done.
    intros sp Hsp. by apply elem_of_nil in Hsp.
  - cbn [migrate_each].
    pose proof (migrate_speaker_keys (world_of sp) source sp s)
      as [Hmono Hnew].
    destruct (migrate_speaker (world_of sp) source sp s) as [s1 r] eqn:Hm.
    cbn [fst snd] in Hmono, Hnew.
    destruct r as [[|]|]; [| |done].
    + intros Heq.
      apply IH in Heq
        as (succ' & fail' & -> & -> & Hperm & Hs & Hf & Hmono' & Hin).
      exists (sp :: succ'), fail'. rewrite <- app_assoc.
      split; [done|]. split; [done|].
      split; [cbn; by rewrite Hperm|].
      split; [by apply sublist_skip|]. split; [by apply sublist_cons|].
      split; [intros u Hu; by apply Hmono', Hmono|].
      intros sp' [->|Hsp']%elem_of_cons; [|by apply Hin].
      by apply Hmono', Hnew.
    + intros Heq.
      apply IH in Heq
        as (succ' & fail' & -> & -> & Hperm & Hs & Hf & Hmono' & Hin).
      exists succ', (sp :: fail'). rewrite <- app_assoc.
      split; [done|]. split; [done|].
      split; [by rewrite <- Permutation_middle, Hperm|].
      split; [by apply sublist_cons|]. split; [by apply sublist_skip|].
      split; [intros u Hu; by apply Hmono', Hmono | done].
Qed.

Lemma migrate_each_invariant world_of source speakers : ∀ succ0 fail0 s,
  registry_invariant (load_registry s) →
  registry_invariant
    (load_registry (migrate_each world_of source speakers succ0 fail0 s).1).
Proof.
  induction speakers as [|sp speakers IH]; intros succ0 fail0 s Hinv; [done|].
  cbn [migrate_each].
  assert (registry_invariant
            (load_registry (migrate_speaker (world_of sp) source sp s).1))
    as Hstep.
  { destruct (migrate_speaker_writes (world_of sp) source sp s)
      as [[_ Heq]|(listing & avg & _ & _ & Hne & _ & _ & Heq)];
      unfold load_registry at 1; rewrite Heq; [done|].
    apply registry_invariant_set; [|done].
    split; [by apply length_pos_of_ne_nil|].
    etrans; [apply length_extracted_le|].
    etrans; [apply length_migration_clips|].
    unfold CLIPS_TO_USE, REQUIRED_CLIPS. lia. }
  destruct (migrate_speaker (world_of sp) source sp s) as [s1 r].
  cbn [fst] in Hstep. destruct r as [[|]|]; [by apply IH..|done].
Qed.

(** X22. When the migration script runs to its end, the speakers it
    reports as migrated and as failed are, each in folder order, a
    partition of the speaker folders; every speaker reported as migrated
    is in the registry under its lower-cased name; no identity that was
    registered before has disappeared; and the registry invariant is
    kept. *)
Theorem main_partitions_speakers world_of tree s s' successful failed :
  main world_of tree s = (s', Some (successful, failed)) →
  let speakers := default [] ((λ folders, folders.*1) <$> tree) in
  successful ++ failed ≡ₚ speakers ∧
  successful `sublist_of` speakers ∧
  failed `sublist_of` speakers ∧
  (∀ sp, sp ∈ successful → Py.lower sp ∈ Py.keys (load_registry s')) ∧
  (∀ u, u ∈ Py.keys (load_registry s) → u ∈ Py.keys (load_registry s')) ∧
  (registry_invariant (load_registry s) →
   registry_invariant (load_registry s')).
Proof.
  unfold main. destruct tree as [folders|]; cbn [fmap option_fmap option_map
    default].
  2:{ intros [= <- <- <-]. split_and!; try done.
      intros sp Hsp. by apply elem_of_nil in Hsp. }
  destruct (Nat.eqb (length folders.*1) 0) eqn:Hlen.
  { apply Nat.eqb_eq, length_zero_iff_nil in Hlen. rewrite Hlen.
    intros [= <- <- <-]. split_and!; try done.
    intros sp Hsp. by apply elem_of_nil in Hsp. }
  intros Heq.
  pose proof (migrate_each_invariant world_of (list_to_map folders)
                folders.*1 [] [] s) as Hinv.
  rewrite Heq in Hinv. cbn [fst] in Hinv.
  apply migrate_each_spec in Heq
    as (succ' & fail' & -> & -> & Hperm & Hs & Hf & Hmono & Hin).
  rewrite !app_nil_l. done.
Qed.

Lemma main_partitions_speakers_witness :
  let world_of := λ _ : string, Sample.world_at "08:00" true in
  let tree := Some [("Eve", [("readme.txt", "alice-1")]);
                    ("Bob", [("b.wav", "alice-2"); ("c.wav", "alice-4")]);
                    ("Mallory", [("a.wav", "noise")]);
                    ("Carol", [("c.wav", "alice-3")])] in
  let s' := (main world_of tree Sample.enrolled).1 in
  let speakers := ["Eve"; "Bob"; "Mallory"; "Carol"] in
  ["Bob"; "Carol"] ++ ["Eve"; "Mallory"] ≡ₚ speakers ∧
  ["Bob"; "Carol"] `sublist_of` speakers ∧
  ["Eve"; "Mallory"] `sublist_of` speakers ∧
  (∀ sp, sp ∈ ["Bob"; "Carol"] →
         Py.lower sp ∈ Py.keys (load_registry s')) ∧
  (∀ u, u ∈ Py.keys (load_registry Sample.enrolled) →
        u ∈ Py.keys (load_registry s')) ∧
  (registry_invariant (load_registry Sample.enrolled) →
   registry_invariant (load_registry s')).
Proof.
  intros world_of tree s' speakers.
  apply (main_partitions_speakers world_of tree Sample.enrolled s'
           ["Bob"; "Carol"] ["Eve"; "Mallory"]).
  vm_compute. reflexivity.
Defined.

(** ** Enrollment and identification together *)




(** X24. The first identity enrolled into an empty registry is predicted
    for a probe of the fingerprint's dimension exactly when the dot product
    of the probe and the committed fingerprint is at least
    [SIMILARITY_THRESHOLD]; otherwise the prediction is ["Unknown"]; the
    score map holds that one score. *)
Theorem first_enrolled_identity_is_matched
    w req s s' msg u n m probe :
  load_registry s = [] →
  enroll_speaker w req s = (s', EnrollOk msg u n m true) →
  (∀ fp : embedding, embeddings s' !! embedding_path u = Some fp →
                     length fp = length probe) →
  ∃ (fp : embedding) x body,
    embeddings s' !! embedding_path u = Some fp ∧
    Np.dot probe fp = Some x ∧
    identify probe s' = PredictOk body ∧
    all_similarities body = Some [(u, x)] ∧
    prediction body
      = (if Qle_bool SIMILARITY_THRESHOLD x then Some u else Some "Unknown").
Proof.
  intros Hempty Heq Hdim.
  apply enroll_complete_inv in Heq
    as (file & wav & avg & _ & _ & _ & _ & _ & _ & _ & Hs').
  assert (embeddings s' !! embedding_path u = Some avg) as Hfp.
  { rewrite Hs'. cbn [embeddings]. apply lookup_insert_eq. }
  destruct (np_dot_defined probe avg (Hdim avg Hfp)) as [x Hx].
  assert (Py.keys (load_registry s') = [u]) as Hkeys.
  { rewrite Hs'. unfold load_registry at 1. cbn [registry_file default].
    by rewrite Hempty. }
  exists avg, x.
  assert (load_registry s' ≠ []) as Hne.
  { intros Hnil. by rewrite Hnil in Hkeys. }
  rewrite identify_nonempty by done. rewrite Hkeys.
  cbn [compare_with_enrolled]. rewrite Hfp.
  unfold compute_similarity. rewrite Hx.
  cbn [initial_match best_similarity best_match similarities Py.set].
  destruct (Qgtb x (-1)) eqn:Hgt.
  - eexists. split; [done|]. split; [done|]. split; [reflexivity|].
    cbn [all_similarities prediction best_similarity best_match similarities].
    split; [done|]. by destruct (Qle_bool SIMILARITY_THRESHOLD x).
  - eexists. split; [done|]. split; [done|]. split; [reflexivity|].
    cbn [all_similarities prediction best_similarity best_match similarities].
    split; [done|].
    destruct (Qle_bool SIMILARITY_THRESHOLD x) eqn:Hhit; [|done].
    exfalso. apply Qgtb_false in Hgt. apply Qle_bool_iff in Hhit.
    assert (SIMILARITY_THRESHOLD <= -1)%Q as Habs
      by (eapply Qle_trans; [exact Hhit | exact Hgt]).
    vm_compute in Habs. by apply Habs.
Qed.

Lemma first_enrolled_identity_is_matched_witness :
  ∃ (fp : embedding) x body,
    embeddings Sample.enrolled !! embedding_path "alice" = Some fp ∧
    Np.dot [1; 0]%Q fp = Some x ∧
    identify [1; 0]%Q Sample.enrolled = PredictOk body ∧
    all_similarities body = Some [("alice", x)] ∧
    prediction body
      = (if Qle_bool SIMILARITY_THRESHOLD x
         then Some "alice" else Some "Unknown").
Proof.
  apply (first_enrolled_identity_is_matched (Sample.world_at "09:04" true)
           (Sample.clip "alice" "4" "alice-4") Sample.three_clips
           Sample.enrolled EnrollmentComplete "alice" 4 4 [1; 0]%Q).
  - vm_compute. reflexivity.
  - vm_compute. reflexivity.
  - intros fp. vm_compute. intros [= <-]. reflexivity.
Defined.

(** X25. Deleting an identity twice: after a successful [delete_user]
    (distinct keys before it) a second [delete_user] of the same name
    answers 404 and changes nothing. *)
Theorem second_delete_is_not_found w name s s' w' :
  NoDup (Py.keys (load_registry s)) →
  delete_user w name s = (s', DeleteOk) →
  delete_user w' name s' = (s', DeleteFail 404 UserNotFound).
Proof.
  intros Hnd Heq.
  destruct (delete_user_ok_inv w name s s' Hnd Heq)
    as (_ & Hgone & _).
  destruct (delete_user_cases w' name s')
    as [[_ ->]|[(Hin & _)|(Hin & _)]]; [done| |];
    apply contains_true, PyFacts.get_None_keys in Hin; done.
Qed.

Lemma second_delete_is_not_found_witness :
  let s' := (delete_user (Sample.world_at "10:00" true) "Alice"
               Sample.enrolled).1 in
  delete_user (Sample.world_at "10:05" true) "Alice" s'
    = (s', DeleteFail 404 UserNotFound).
Proof.
  intros s'.
  apply (second_delete_is_not_found (Sample.world_at "10:00" true) "Alice"
           Sample.enrolled s').
  - apply (bool_decide_unpack _). vm_compute. exact I.
  - vm_compute. reflexivity.
Defined.
(** ** Sequences of calls *)

Lemma filter_submseteq {A} (P : A → Prop) `{∀ x, Decision (P x)}
    (l1 l2 : list A) :
  l1 ⊆+ l2 → filter P l1 ⊆+ filter P l2.
Proof.
  induction 1 as [|x l1 l2 _ IH|x y l|x l1 l2 _ IH|l1 l2 l3 _ IH1 _ IH2].
  - done.
  - destruct (decide (P x)).
    + rewrite !filter_cons_True by done. by apply submseteq_skip.
    + by rewrite !filter_cons_False by done.
  - destruct (decide (P x)), (decide (P y));
      rewrite ?filter_cons_True, ?filter_cons_False by done;
      rewrite ?filter_cons_True, ?filter_cons_False by done;
      try done.
    apply submseteq_swap.
  - destruct (decide (P x)).
    + rewrite filter_cons_True by done. by apply submseteq_cons.
    + by rewrite filter_cons_False by done.
  - by etrans.
Qed.

(** A folder that loses no file loses no clip. *)
Lemma existing_clips_mono (folder folder' : gmap string audio) :
  (∀ name, is_Some (folder !! name) → is_Some (folder' !! name)) →
  existing_clips folder ≤ existing_clips folder'.
Proof.
  intros Hgrows. unfold existing_clips, os_listdir.
  apply submseteq_length, filter_submseteq, elements_submseteq.
  intros name. rewrite !elem_of_dom. apply Hgrows.
Qed.

Lemma copy_and_extract_keeps_files w u clips : ∀ i embs s u' name,
  is_Some (user_folder s u' !! name) →
  is_Some (user_folder (copy_and_extract w u i clips embs s).1 u' !! name).
Proof.
  induction clips as [|[f wav] clips IH]; intros i embs s u' name Hname;
    [done|].
  cbn [copy_and_extract]. apply IH.
  destruct (decide (u = u')) as [<-|Hne].
  - rewrite user_folder_write_clip. apply lookup_insert_is_Some'. by right.
  - by rewrite user_folder_write_clip_ne.
Qed.

Lemma migrate_speaker_keeps_files w source speaker s u name :
  is_Some (user_folder s u !! name) →
  is_Some (user_folder (migrate_speaker w source speaker s).1 u !! name).
Proof.
  intros Hname. unfold migrate_speaker.
  destruct (source !! speaker) as [listing|]; [|done].
  destruct (Nat.eqb (length (filter _ listing)) 0); [done|].
  pose proof (copy_and_extract_keeps_files w (Py.lower speaker)
    (take CLIPS_TO_USE
       (filter (λ f, Is_true (Py.endswith ".wav" f.1)) listing))
    1 [] (makedirs (Py.lower speaker) s) u name) as Hcopy.
  rewrite user_folder_makedirs in Hcopy. specialize (Hcopy Hname).
  destruct (copy_and_extract _ _ _ _ _ _) as [s2 embs]. cbn [fst] in Hcopy.
  destruct (Nat.eqb (length embs) 0); [done|].
  destruct (Np.mean embs); [|done].
  unfold save_registry. by destruct (registry_writable w).
Qed.

Lemma elem_of_keys_set_mono {V} (k k' : string) (v : V) (d : Py.dict V) :
  k' ∈ Py.keys d → k' ∈ Py.keys (Py.set k v d).
Proof.
  intros Hin. rewrite PyFacts.keys_set.
  destruct (decide (k ∈ Py.keys d)); [done|]. apply elem_of_app. by left.
Qed.

Lemma elem_of_keys_del_ne {V} (k k' : string) (d : Py.dict V) :
  k' ≠ k → k' ∈ Py.keys d → k' ∈ Py.keys (Py.del k d).
Proof.
  intros Hne Hin.
  destruct (decide (k' ∈ Py.keys (Py.del k d))) as [|Hnot]; [done|].
  apply PyFacts.get_None_keys in Hnot. rewrite get_del_ne in Hnot by done.
  by apply PyFacts.get_None_keys in Hnot.
Qed.

Lemma elem_of_keys_set_eq {V} (k : string) (v : V) (d : Py.dict V) :
  k ∈ Py.keys (Py.set k v d).
Proof.
  destruct (decide (k ∈ Py.keys (Py.set k v d))) as [|Hnot]; [done|].
  apply PyFacts.get_None_keys in Hnot. by rewrite PyFacts.get_set_eq in Hnot.
Qed.

Lemma enroll_complete_registered w req s s' msg u n m :
  enroll_speaker w req s = (s', EnrollOk msg u n m true) →
  u ∈ Py.keys (load_registry s').
Proof.
  intros Heq. apply enroll_complete_inv in Heq
    as (file & wav & avg & _ & _ & _ & _ & _ & _ & _ & ->).
  unfold load_registry. cbn [registry_file default].
  apply elem_of_keys_set_eq.
Qed.

(** A call that is not a [delete_user] of [u] removes no file from the
    folder of [u] and does not remove [u] from the registry. *)
Lemma run_call_keeps u c s :
  no_delete_of u c →
  (∀ name, is_Some (user_folder s u !! name) →
           is_Some (user_folder (run_call c s) u !! name)) ∧
  (u ∈ Py.keys (load_registry s) →
   u ∈ Py.keys (load_registry (run_call c s))).
Proof.
  intros Hc. destruct c as [w req|w name|w source speaker]; cbn [run_call].
  - destruct (enroll_speaker_footprint w req s)
      as (Hother & Hown & _ & Hreg).
    split.
    + intros name Hname.
      destruct (decide (u = req_username req)) as [->|Hne].
      * destruct Hown as [->|(wav & _ & ->)]; [done|].
        apply lookup_insert_is_Some'. by right.
      * by rewrite Hother.
    + intros Hu. unfold load_registry at 1.
      destruct Hreg as [->|(n & avg & _ & _ & ->)]; [done|]. cbn [default].
      by apply elem_of_keys_set_mono.
  - cbn [no_delete_of call_identity] in Hc.
    destruct (delete_user_cases w name s)
      as [[_ ->]|[(_ & _ & ->)|(_ & _ & ->)]]; cbn [fst]; [done| |].
    + split.
      * intros name' Hname. rewrite user_folder_delete.
        by rewrite decide_False.
      * intros Hu. unfold load_registry at 1. cbn [registry_file default].
        apply elem_of_keys_del_ne; [congruence | done].
    + split; [|done].
      intros name' Hname. rewrite user_folder_delete.
      by rewrite decide_False.
  - split.
    + intros name Hname. by apply migrate_speaker_keeps_files.
    + apply (migrate_speaker_keys w source speaker s).
Qed.

Lemma run_keeps u calls : ∀ s,
  Forall (no_delete_of u) calls →
  (∀ name, is_Some (user_folder s u !! name) →
           is_Some (user_folder (run calls s) u !! name)) ∧
  (u ∈ Py.keys (load_registry s) →
   u ∈ Py.keys (load_registry (run calls s))).
Proof.
  induction calls as [|c calls IH]; intros s Hall; [done|].
  apply Forall_cons in Hall as [Hc Hall].
  destruct (run_call_keeps u c s Hc) as [Hfiles Hkey].
  destruct (IH (run_call c s) Hall) as [Hfiles' Hkey'].
  change (run (c :: calls) s) with (run calls (run_call c s)).
  split; [intros name Hname; by apply Hfiles', Hfiles | auto].
Qed.

(** C5, as the code has it.  The clips of an identity stay in its folder
    after a commit, and only [delete_user] of that identity removes them:
    through every sequence of calls of [enroll_speaker], [migrate_speaker]
    and [delete_user] for any identities, none of them a [delete_user] of
    the enrolled identity, no file of its folder disappears and it stays
    registered.  So once an enrollment has completed, every later accepted
    submission for that identity (valid slot, audio converted) finds all
    clips present and runs the commit sequence again on the spot: it never
    answers with a count of clips still to come; and when that commit
    extracts a vector and can write, it replaces the fingerprint and the
    registry entry of the identity.  A [delete_user] of the identity, at
    any later time, empties the folder.  (User names are plain: ASCII, one
    path component.) *)
Theorem later_submissions_commit_again
    w0 req0 s0 s1 msg u n m calls w req file wav :
  enroll_speaker w0 req0 s0 = (s1, EnrollOk msg u n m true) →
  plain_username (default "" (form_username req0)) →
  Forall plain_call calls →
  Forall (no_delete_of u) calls →
  valid_request req file →
  req_username req = u →
  save_uploaded_and_convert w file = Some wav →
  let s := run calls s1 in
  let s2 := write_clip u (clip_name (req_slot req)) wav s in
  let vs := extracted w (filled_slots (user_folder s2 u)) in
  (∀ name, is_Some (user_folder s1 u !! name) →
           is_Some (user_folder s u !! name)) ∧
  REQUIRED_CLIPS ≤ existing_clips (user_folder s u) ∧
  u ∈ Py.keys (load_registry s) ∧
  enroll_speaker w req s
    = generate_embedding w u (existing_clips (user_folder s2 u)) s2 ∧
  (∀ k, (enroll_speaker w req s).2
          ≠ EnrollOk ClipReceived u k REQUIRED_CLIPS false) ∧
  (∀ avg, vs ≠ [] → Np.mean vs = Some avg → registry_writable w = true →
     ∃ s3, enroll_speaker w req s
             = (s3, EnrollOk EnrollmentComplete u
                      (existing_clips (user_folder s2 u)) REQUIRED_CLIPS true) ∧
           embeddings s3 !! embedding_path u = Some avg ∧
           Py.get u (load_registry s3)
             = Some (new_entry w u (length vs) None)) ∧
  (∀ w' name,
     Py.lower (Py.strip name) = u →
     (delete_user w' name s).2 ≠ DeleteFail 404 UserNotFound ∧
     user_folder (delete_user w' name s).1 u = ∅).
Proof.
  intros Heq _ _ Hcalls Hv Hu Hc s s2 vs.
  pose proof (enroll_complete_registered w0 req0 s0 s1 msg u n m Heq)
    as Hreg1.
  pose proof (enroll_complete_counts w0 req0 s0 s1 msg u n m Heq)
    as (Hcount & Hn & _ & _).
  rewrite Hcount in Hn. clear Hcount.
  destruct (run_keeps u calls s1 Hcalls) as [Hfiles Hkey]. fold s in Hfiles,
    Hkey.
  assert (REQUIRED_CLIPS ≤ existing_clips (user_folder s u)) as Hn1.
  { etrans; [exact Hn | by apply existing_clips_mono]. }
  assert (REQUIRED_CLIPS ≤ existing_clips (user_folder s2 u)) as Hn2.
  { unfold s2. rewrite user_folder_write_clip.
    etrans; [exact Hn1 | apply existing_clips_write_mono]. }
  assert (enroll_speaker w req s
          = generate_embedding w u (existing_clips (user_folder s2 u)) s2)
    as Hagain.
  { rewrite (enroll_speaker_valid w req file wav s Hv Hc).
    rewrite Hu. fold s2. apply Nat.leb_le in Hn2. by rewrite Hn2. }
  split; [exact Hfiles|]. split; [exact Hn1|]. split; [by apply Hkey|].
  split; [exact Hagain|]. split; [|split].
  - intros k. rewrite Hagain.
    destruct (generate_embedding_outcome w u
                (existing_clips (user_folder s2 u)) s2)
      as [?|? ?|avg' ? ? ?|avg' vs' ? ? ?]; cbn [snd]; discriminate.
  - intros avg Hne Hm Hw. rewrite Hagain. unfold vs in *. clear vs.
    destruct (generate_embedding_outcome w u
                (existing_clips (user_folder s2 u)) s2)
      as [Hnil|? Hnone|avg' ? ? Hw'|avg' vs' ? Hm' ?].
    + done.
    + congruence.
    + congruence.
    + subst vs'. assert (avg' = avg) as -> by congruence.
      eexists. split; [done|]. cbn [embeddings]. split.
      * apply lookup_insert_eq.
      * unfold load_registry at 1. cbn [registry_file default].
        apply PyFacts.get_set_eq.
  - intros w' name Hname. specialize (Hkey Hreg1).
    destruct (delete_user_cases w' name s)
      as [[Hno _]|[(_ & _ & ->)|(_ & _ & ->)]]; cbn [fst snd].
    + rewrite Hname in Hno. apply contains_false in Hno. done.
    + split; [done|]. rewrite user_folder_delete, Hname.
      by rewrite decide_True.
    + split; [done|]. rewrite user_folder_delete, Hname.
      by rewrite decide_True.
Qed.

(** Between Alice's completed enrollment and her next clip: Bob sends a
    clip, is migrated from the old recordings and deleted again, and a
    failed conversion truncates Alice's second slot. *)
Lemma later_submissions_commit_again_witness :
  let u := "alice" in
  let calls :=
    [Enroll (Sample.world_at "09:10" true) (Sample.clip "bob" "1" "alice-2");
     Migrate (Sample.world_at "09:15" true) Sample.old_clips "Bob";
     Delete (Sample.world_at "09:20" true) " Bob";
     Enroll (Sample.truncating_world_at "09:25")
       (Sample.clip "alice" "2" "garbage")] in
  let w := Sample.world_at "09:30" true in
  let req := Sample.clip "alice" "1" "alice-5" in
  let s := run calls Sample.enrolled in
  let s2 := write_clip u (clip_name (req_slot req)) "alice-5" s in
  let vs := extracted w (filled_slots (user_folder s2 u)) in
  (∀ name, is_Some (user_folder Sample.enrolled u !! name) →
           is_Some (user_folder s u !! name)) ∧
  REQUIRED_CLIPS ≤ existing_clips (user_folder s u) ∧
  u ∈ Py.keys (load_registry s) ∧
  enroll_speaker w req s
    = generate_embedding w u (existing_clips (user_folder s2 u)) s2 ∧
  (∀ k, (enroll_speaker w req s).2
          ≠ EnrollOk ClipReceived u k REQUIRED_CLIPS false) ∧
  (∀ avg, vs ≠ [] → Np.mean vs = Some avg → registry_writable w = true →
     ∃ s3, enroll_speaker w req s
             = (s3, EnrollOk EnrollmentComplete u
                      (existing_clips (user_folder s2 u)) REQUIRED_CLIPS true) ∧
           embeddings s3 !! embedding_path u = Some avg ∧
           Py.get u (load_registry s3)
             = Some (new_entry w u (length vs) None)) ∧
  (∀ w' name,
     Py.lower (Py.strip name) = u →
     (delete_user w' name s).2 ≠ DeleteFail 404 UserNotFound ∧
     user_folder (delete_user w' name s).1 u = ∅).
Proof.
  intros u calls w req.
  apply (later_submissions_commit_again (Sample.world_at "09:04" true)
           (Sample.clip "alice" "4" "alice-4") Sample.three_clips
           Sample.enrolled EnrollmentComplete u 4 4 calls w req
           {| filename := "clip.webm"; content := "alice-5" |} "alice-5").
  - vm_compute. reflexivity.
  - split; vm_compute; reflexivity.
  - repeat (apply Forall_cons; split; [split; vm_compute; reflexivity|]).
    apply Forall_nil_2.
  - apply Forall_cons; split; [exact I|].
    apply Forall_cons; split; [exact I|].
    apply Forall_cons; split; [vm_compute; discriminate|].
    apply Forall_cons; split; [exact I|]. apply Forall_nil_2.
  - valid_request_by_computation.
  - vm_compute. reflexivity.
  - vm_compute. reflexivity.
Defined.

(** In that run the fingerprint committed at 09:30 no longer uses the
    truncated second slot. *)
Example recommit_after_truncated_slot :
  let calls :=
    [Enroll (Sample.world_at "09:10" true) (Sample.clip "bob" "1" "alice-2");
     Migrate (Sample.world_at "09:15" true) Sample.old_clips "Bob";
     Delete (Sample.world_at "09:20" true) " Bob";
     Enroll (Sample.truncating_world_at "09:25")
       (Sample.clip "alice" "2" "garbage")] in
  let again := enroll_speaker (Sample.world_at "09:30" true)
                 (Sample.clip "alice" "1" "alice-5")
                 (run calls Sample.enrolled) in
  user_folder (run calls Sample.enrolled) "alice" !! clip_name 2 = Some "" ∧
  again.2 = EnrollOk EnrollmentComplete "alice" 4 4 true ∧
  enrolled_date <$> Py.get "alice" (load_registry again.1) = Some "09:30" ∧
  Py.keys (load_registry again.1) = ["alice"].
Proof. vm_compute. repeat split; reflexivity. Qed.
